(** * AI-backed request-to-plan orchestration core: verification development

    A shallow embedding of the TypeScript sources
      - config/ai-config.ts              (provider configuration resolver),
      - utils/ai-executor.ts             (prompt executor: cache, retries,
                                          structured-output extraction),
      - tools/tool-chain-orchestrator.ts (plan validator, intent classifier,
                                          session health monitor),
    together with the properties the specification states about them.

    Conventions of the embedding.
      - A JS string is a Rocq [string]: a sequence of code units below 256
        (the Latin-1 range).  Whitespace, case mapping and UTF-8 encoding are
        given for that whole range.
      - A JS number that counts something (steps, retries, milliseconds,
        tokens) is a [Z]; a number that is a fraction (confidence,
        temperature) is a binary64 [float], compared by the IEEE operations.
      - An optional property is an [option]; JS truthiness is written out by
        the [truthy_*] functions.
      - A function that may throw returns an [outcome]. *)

From Stdlib Require Import ZArith String Ascii List Bool Lia DecimalString.
From Stdlib Require Import Floats.
From stdpp Require Import gmap strings list.

Import ListNotations.
Set Warnings "-inexact-float,-register-all,-clear-no-such-hyp".
Local Open Scope string_scope.
Local Open Scope Z_scope.

(** ** Results of functions that may throw *)

Inductive outcome (E A : Type) : Type :=
| Return (a : A)
| Throw (e : E).
Arguments Return {E A} a.
Arguments Throw {E A} e.

(** ** JavaScript built-ins used by the sources *)

Module JS.

(** [!!s] for a string: the empty string is falsy. *)
Definition truthy_string (s : string) : bool :=
  negb (String.eqb s "").

(** [!!s] for an optional string property: [undefined] is falsy too. *)
Definition truthy_opt_string (o : option string) : bool :=
  match o with
  | Some s => truthy_string s
  | None => false
  end.

(** [!!n] for an integral number. *)
Definition truthy_Z (n : Z) : bool := negb (n =? 0).

(** [!!x] for a binary64 number: [+0], [-0] and [NaN] are falsy. *)
Definition truthy_float (x : float) : bool :=
  negb (PrimFloat.eqb x 0%float || PrimFloat.is_nan x).

(** [a || b] on strings. *)
Definition or_string (a b : string) : string :=
  if truthy_string a then a else b.

(** [Array.prototype.includes] on an array of strings. *)
Definition includes (l : list string) (x : string) : bool :=
  existsb (String.eqb x) l.

(** WhiteSpace and LineTerminator code units below 256: TAB, LF, VT, FF,
    CR, SP and NBSP.  This is the class [\s] and what [trim] removes. *)
Definition is_space (c : ascii) : bool :=
  let n := nat_of_ascii c in
  ((9 <=? n) && (n <=? 13) || (n =? 32) || (n =? 160))%nat.

Fixpoint trimStart (s : string) : string :=
  match s with
  | String c s' => if is_space c then trimStart s' else s
  | EmptyString => EmptyString
  end.

(** [trimEnd] drops the trailing run of whitespace: a character is kept
    when it is not whitespace or when something is kept after it. *)
Fixpoint trimEnd (s : string) : string :=
  match s with
  | String c s' =>
      match trimEnd s' with
      | EmptyString => if is_space c then EmptyString else String c EmptyString
      | r => String c r
      end
  | EmptyString => EmptyString
  end.

Definition trim (s : string) : string := trimEnd (trimStart s).

(** [String.prototype.toLowerCase] on code units below 256: A-Z and the
    Latin-1 capitals U+00C0..U+00DE except the multiplication sign. *)
Definition lower_char (c : ascii) : ascii :=
  let n := nat_of_ascii c in
  if ((65 <=? n) && (n <=? 90)
      || (192 <=? n) && (n <=? 222) && negb (n =? 215))%nat
  then ascii_of_nat (n + 32) else c.

Fixpoint toLowerCase (s : string) : string :=
  match s with
  | String c s' => String (lower_char c) (toLowerCase s')
  | EmptyString => EmptyString
  end.

(** [s.startsWith(p)]. *)
Fixpoint startsWith (s p : string) : bool :=
  match p, s with
  | EmptyString, _ => true
  | String a p', String b s' => Ascii.eqb a b && startsWith s' p'
  | String _ _, EmptyString => false
  end.

(** [String.prototype.includes]: [sub] occurs somewhere in [s]. *)
Fixpoint str_includes (s sub : string) : bool :=
  startsWith s sub ||
  match s with
  | String _ s' => str_includes s' sub
  | EmptyString => false
  end.

(** [s.slice(0, n)] for [n >= 0]. *)
Definition slice0 (n : nat) (s : string) : string := String.substring 0 n s.

(** *** Numeric literals *)

Definition digit_val (radix : nat) (c : ascii) : option nat :=
  let n := nat_of_ascii c in
  let v := if ((48 <=? n) && (n <=? 57))%nat then Some (n - 48)%nat
           else if ((97 <=? n) && (n <=? 122))%nat then Some (n - 87)%nat
           else if ((65 <=? n) && (n <=? 90))%nat then Some (n - 55)%nat
           else None in
  match v with
  | Some d => if (d <? radix)%nat then Some d else None
  | None => None
  end.

(** The longest prefix of digits in [radix]: their values, most
    significant first, and the rest of the string. *)
Fixpoint take_digits (radix : nat) (s : string) : list nat * string :=
  match s with
  | String c s' =>
      match digit_val radix c with
      | Some d => let (ds, r) := take_digits radix s' in (d :: ds, r)
      | None => ([], s)
      end
  | EmptyString => ([], s)
  end.

Definition digits_value (radix : nat) (ds : list nat) : Z :=
  fold_left (fun acc d => acc * Z.of_nat radix + Z.of_nat d) ds 0.

(** An optional sign: whether it is [-], and the rest. *)
Definition take_sign (s : string) : bool * string :=
  match s with
  | String "-" s' => (true, s')
  | String "+" s' => (false, s')
  | _ => (false, s)
  end.

(** [parseInt(s)] without a radix; [None] is [NaN].  Leading whitespace
    and a sign are skipped, a [0x] prefix selects radix 16, and the
    longest run of digits is read. *)
Definition parseInt (s : string) : option Z :=
  let (neg, s1) := take_sign (trimStart s) in
  let (radix, s2) :=
    if startsWith s1 "0x" || startsWith s1 "0X"
    then (16%nat, String.substring 2 (String.length s1 - 2) s1)
    else (10%nat, s1) in
  match take_digits radix s2 with
  | ([], _) => None
  | (ds, _) => Some (if neg then - digits_value radix ds else digits_value radix ds)
  end.

(** The binary64 number nearest to [(-1)^neg * m * 10^e], ties to even. *)
Definition decimal_to_float (neg : bool) (m : Z) (e : Z) : float :=
  if m <=? 0 then (if neg then neg_zero else zero)
  else if 0 <=? e then
    SF2Prim (binary_normalize prec emax (if neg then - (m * 10 ^ e) else m * 10 ^ e) 0 false)
  else
    let '(q, e', l) := SFdiv_core_binary prec emax m 0 (10 ^ (- e)) 0 in
    SF2Prim (binary_round_aux prec emax neg q e' l).

(** The exponent part [e[+-]digits] of a decimal literal, when complete. *)
Definition take_exponent (s : string) : Z * string :=
  match s with
  | String c s1 =>
      if Ascii.eqb c "e" || Ascii.eqb c "E" then
        let (eneg, s2) := take_sign s1 in
        match take_digits 10 s2 with
        | ([], _) => (0, s)
        | (ds, r) => (if eneg then - digits_value 10 ds else digits_value 10 ds, r)
        end
      else (0, s)
  | EmptyString => (0, s)
  end.

(** [parseFloat(s)]: the longest prefix that is a StrDecimalLiteral. *)
Definition parseFloat (s : string) : float :=
  let (neg, s1) := take_sign (trimStart s) in
  if startsWith s1 "Infinity" then (if neg then neg_infinity else infinity)
  else
    let (ip, s2) := take_digits 10 s1 in
    let (fp, s3) :=
      match s2 with
      | String "." s2' => take_digits 10 s2'
      | _ => ([], s2)
      end in
    match (ip ++ fp)%list with
    | [] => nan
    | ds =>
        let (ex, _) := take_exponent s3 in
        decimal_to_float neg (digits_value 10 ds) (ex - Z.of_nat (length fp))
    end.

(** *** Number to string *)

(** The decimal digits of an integer, as [Number::toString] prints a
    count (counts stay far below 10^21, where JS switches notation). *)
Definition Z_to_string (z : Z) : string :=
  NilZero.string_of_int (Z.to_int z).

Fixpoint zeros (n : nat) : string :=
  match n with
  | O => EmptyString
  | S n' => String "0" (zeros n')
  end.

(** The least [n], searching upwards from [n0], with [num/den < 10^n].
    [Number_toString] starts the search just below [log10] of the value,
    estimated from its binary exponent. *)
Fixpoint decimal_exponent (fuel : nat) (num den n0 : Z) : Z :=
  match fuel with
  | O => n0
  | S fuel' =>
      if (if 0 <=? n0 then num <? 10 ^ n0 * den else num * 10 ^ (- n0) <? den)
      then n0
      else decimal_exponent fuel' num den (n0 + 1)
  end.

(** [Number::toString] step 5 for a positive finite [x = num/den]: the
    digits [s] (as a number with [k] digits) and the exponent [n] with
    [k] as small as possible such that [s * 10^(n-k)] reads back as [x];
    of the two neighbours of [x] on the [k]-digit grid the closer one is
    taken when both read back as [x]. *)
Fixpoint shortest_digits (fuel : nat) (x : float) (num den n k : Z) : Z * Z * Z :=
  let sc := k - n in
  let (N, D) := if 0 <=? sc then (num * 10 ^ sc, den) else (num, den * 10 ^ (- sc)) in
  let (lo, r) := Z.div_eucl N D in
  let hi := if lo + 1 =? 10 ^ k then (10 ^ (k - 1), n + 1) else (lo + 1, n) in
  let ok_lo := PrimFloat.eqb (decimal_to_float false lo (n - k)) x in
  let ok_hi := PrimFloat.eqb (decimal_to_float false (fst hi) (snd hi - k)) x in
  let pick_lo := (lo, n, k) in
  let pick_hi := (fst hi, snd hi, k) in
  match fuel with
  | O => pick_lo
  | S fuel' =>
      if ok_lo && ok_hi then
        match Z.compare (2 * r) D with
        | Lt => pick_lo
        | Gt => pick_hi
        | Eq => if Z.even lo then pick_lo else pick_hi
        end
      else if ok_lo then pick_lo
      else if ok_hi then pick_hi
      else shortest_digits fuel' x num den n (k + 1)
  end.

(** [Number::toString] steps 6-10: positional notation for
    [-6 < n <= 21], exponential notation otherwise. *)
Definition format_digits (s n k : Z) : string :=
  let ds := Z_to_string s in
  if (k <=? n) && (n <=? 21) then ds ++ zeros (Z.to_nat (n - k))
  else if (0 <? n) && (n <=? 21) then
    String.substring 0 (Z.to_nat n) ds ++ "." ++
    String.substring (Z.to_nat n) (Z.to_nat (k - n)) ds
  else if (-6 <? n) && (n <=? 0) then
    "0." ++ zeros (Z.to_nat (- n)) ++ ds
  else
    let e := n - 1 in
    let es := (if 0 <=? e then "+" else "-") ++ Z_to_string (Z.abs e) in
    if k =? 1 then ds ++ "e" ++ es
    else String.substring 0 1 ds ++ "." ++
         String.substring 1 (Z.to_nat (k - 1)) ds ++ "e" ++ es.

Definition Number_toString (x : float) : string :=
  match Prim2SF x with
  | S754_nan => "NaN"
  | S754_zero _ => "0"
  | S754_infinity sg => if sg then "-Infinity" else "Infinity"
  | S754_finite sg m e =>
      let (num, den) := if 0 <=? e then (Zpos m * 2 ^ e, 1) else (Zpos m, 2 ^ (- e)) in
      let b := Z.log2 (Zpos m) + 1 + e in
      let n := decimal_exponent 8 num den ((b - 1) * 30103 / 100000 - 2) in
      let '(s, n', k) := shortest_digits 17 (PrimFloat.abs x) num den n 1 in
      (if sg then "-" else "") ++ format_digits s n' k
  end.

(** *** JSON.stringify, Buffer and base64 *)

Definition hex_digit (n : nat) : ascii :=
  ascii_of_nat (if (n <? 10)%nat then 48 + n else 87 + n).

(** QuoteJSONString, one code unit at a time (below 256 there are no
    surrogates): the two-character escapes, [\u00xx] for the other
    controls, everything else verbatim. *)
Definition quote_char (c : ascii) : string :=
  let n := nat_of_ascii c in
  if (n =? 8)%nat then "\b"
  else if (n =? 9)%nat then "\t"
  else if (n =? 10)%nat then "\n"
  else if (n =? 12)%nat then "\f"
  else if (n =? 13)%nat then "\r"
  else if (n =? 34)%nat then String "\" (String c "")
  else if (n =? 92)%nat then "\\"
  else if (n <? 32)%nat then
    "\u00" ++ String (hex_digit (n / 16)) (String (hex_digit (n mod 16)) "")
  else String c "".

Fixpoint quote_chars (s : string) : string :=
  match s with
  | String c s' => quote_char c ++ quote_chars s'
  | EmptyString => EmptyString
  end.

Definition dquote : string := String (ascii_of_nat 34) "".

(** [JSON.stringify] of a string. *)
Definition JSON_stringify_string (s : string) : string :=
  dquote ++ quote_chars s ++ dquote.

(** [JSON.stringify] of a number: non-finite numbers print as [null]. *)
Definition JSON_stringify_number (x : float) : string :=
  if PrimFloat.is_nan x || PrimFloat.is_infinity x then "null"
  else Number_toString x.

(** [Buffer.from(s)]: the UTF-8 encoding, one or two bytes per code unit
    below 256. *)
Fixpoint utf8_encode (s : string) : list nat :=
  match s with
  | String c s' =>
      let n := nat_of_ascii c in
      if (n <? 128)%nat then n :: utf8_encode s'
      else (192 + n / 64)%nat :: (128 + n mod 64)%nat :: utf8_encode s'
  | EmptyString => []
  end.

Definition base64_alphabet : string :=
  "ABCDEFGHIJKLMNOPQRSTUVWXYZabcdefghijklmnopqrstuvwxyz0123456789+/".

Definition base64_char (n : nat) : ascii :=
  match String.get n base64_alphabet with
  | Some c => c
  | None => "="%char
  end.

(** [buf.toString('base64')]. *)
Fixpoint base64_encode (bs : list nat) : string :=
  match bs with
  | a :: b :: c :: rest =>
      String (base64_char (a / 4))
        (String (base64_char (a mod 4 * 16 + b / 16))
           (String (base64_char (b mod 16 * 4 + c / 64))
              (String (base64_char (c mod 64)) (base64_encode rest))))
  | [a; b] =>
      String (base64_char (a / 4))
        (String (base64_char (a mod 4 * 16 + b / 16))
           (String (base64_char (b mod 16 * 4)) "="))
  | [a] =>
      String (base64_char (a / 4)) (String (base64_char (a mod 4 * 16)) "==")
  | [] => EmptyString
  end%nat.

(** *** JSON.parse *)

(** A parsed JSON text.  Strings are kept as code units, since an escape
    [\uXXXX] may denote one above 255; an object keeps its members in
    source order. *)
Inductive JSONValue : Type :=
| JNull
| JBool (b : bool)
| JNumber (x : float)
| JString (s : list N)
| JArray (items : list JSONValue)
| JObject (members : list (list N * JSONValue)).

Definition is_json_ws (c : ascii) : bool :=
  let n := nat_of_ascii c in
  ((n =? 32) || (n =? 9) || (n =? 10) || (n =? 13))%nat.

Fixpoint skip_json_ws (s : string) : string :=
  match s with
  | String c s' => if is_json_ws c then skip_json_ws s' else s
  | EmptyString => EmptyString
  end.

Definition hex4 (a b c d : ascii) : option N :=
  match digit_val 16 a, digit_val 16 b, digit_val 16 c, digit_val 16 d with
  | Some x, Some y, Some z, Some w =>
      Some (N.of_nat (((x * 16 + y) * 16 + z) * 16 + w))
  | _, _, _, _ => None
  end.

Definition cons_unit {A : Type} (u : N) (r : option (list N * A))
  : option (list N * A) :=
  match r with
  | Some (l, a) => Some (u :: l, a)
  | None => None
  end.

(** After the opening quote of a JSON string: its code units and what
    follows the closing quote. *)
Fixpoint parse_string_body (s : string) : option (list N * string) :=
  match s with
  | EmptyString => None
  | String c r =>
      let n := nat_of_ascii c in
      if (n =? 34)%nat then Some ([], r)
      else if (n =? 92)%nat then
        match r with
        | String e r1 =>
            let m := nat_of_ascii e in
            if (m =? 34)%nat || (m =? 92)%nat || (m =? 47)%nat
            then cons_unit (N.of_nat m) (parse_string_body r1)
            else if Ascii.eqb e "b" then cons_unit 8%N (parse_string_body r1)
            else if Ascii.eqb e "f" then cons_unit 12%N (parse_string_body r1)
            else if Ascii.eqb e "n" then cons_unit 10%N (parse_string_body r1)
            else if Ascii.eqb e "r" then cons_unit 13%N (parse_string_body r1)
            else if Ascii.eqb e "t" then cons_unit 9%N (parse_string_body r1)
            else if Ascii.eqb e "u" then
              match r1 with
              | String h1 (String h2 (String h3 (String h4 r2))) =>
                  match hex4 h1 h2 h3 h4 with
                  | Some u => cons_unit u (parse_string_body r2)
                  | None => None
                  end
              | _ => None
              end
            else None
        | EmptyString => None
        end
      else if (n <? 32)%nat then None
      else cons_unit (N.of_nat n) (parse_string_body r)
  end.

(** A JSON number: [-? int frac? exp?], where [int] has no leading zero
    and [frac] and [exp] need at least one digit. *)
Definition parse_number (s : string) : option (float * string) :=
  let (neg, s1) := match s with
                   | String "-" s' => (true, s')
                   | _ => (false, s)
                   end in
  match take_digits 10 s1 with
  | ([], _) => None
  | (O :: _ :: _, _) => None
  | (ip, s2) =>
      let frac :=
        match s2 with
        | String "." s2' =>
            match take_digits 10 s2' with
            | ([], _) => None
            | (fp, s3) => Some (fp, s3)
            end
        | _ => Some ([], s2)
        end in
      match frac with
      | None => None
      | Some (fp, s3) =>
          let ex :=
            match s3 with
            | String c s4 =>
                if Ascii.eqb c "e" || Ascii.eqb c "E" then
                  let (eneg, s5) := take_sign s4 in
                  match take_digits 10 s5 with
                  | ([], _) => None
                  | (ds, s6) =>
                      Some (if eneg then - digits_value 10 ds
                            else digits_value 10 ds, s6)
                  end
                else Some (0, s3)
            | EmptyString => Some (0, s3)
            end in
          match ex with
          | None => None
          | Some (e, rest) =>
              Some (decimal_to_float neg (digits_value 10 (ip ++ fp)%list)
                      (e - Z.of_nat (length fp)), rest)
          end
      end
  end.

(** A JSON value at the head of [s] (no leading whitespace) and the rest
    of the input.  [fuel] bounds the nesting depth and the number of
    elements of one array or object. *)
Fixpoint parse_value (fuel : nat) (s : string) : option (JSONValue * string) :=
  match fuel with
  | O => None
  | S fuel' =>
      match s with
      | EmptyString => None
      | String c r =>
          if Ascii.eqb c "[" then
            match skip_json_ws r with
            | String "]" r2 => Some (JArray [], r2)
            | _ =>
                match
                (fix elements (f : nat) (s0 : string) {struct f}
                   : option (list JSONValue * string) :=
                   match f with
                   | O => None
                   | S f' =>
                       match parse_value fuel' (skip_json_ws s0) with
                       | Some (v, s1) =>
                           match skip_json_ws s1 with
                           | String "," s2 =>
                               match elements f' s2 with
                               | Some (vs, s3) => Some (v :: vs, s3)
                               | None => None
                               end
                           | String "]" s2 => Some ([v], s2)
                           | _ => None
                           end
                       | None => None
                       end
                   end) fuel' r
                with
                | Some (vs, rest) => Some (JArray vs, rest)
                | None => None
                end
            end
          else if Ascii.eqb c "{" then
            match skip_json_ws r with
            | String "}" r2 => Some (JObject [], r2)
            | _ =>
                match
                (fix members (f : nat) (s0 : string) {struct f}
                   : option (list (list N * JSONValue) * string) :=
                   match f with
                   | O => None
                   | S f' =>
                       match skip_json_ws s0 with
                       | String q s1 =>
                           if (nat_of_ascii q =? 34)%nat then
                             match parse_string_body s1 with
                             | Some (key, s2) =>
                                 match skip_json_ws s2 with
                                 | String ":" s3 =>
                                     match parse_value fuel' (skip_json_ws s3) with
                                     | Some (v, s4) =>
                                         match skip_json_ws s4 with
                                         | String "," s5 =>
                                             match members f' s5 with
                                             | Some (ms, s6) => Some ((key, v) :: ms, s6)
                                             | None => None
                                             end
                                         | String "}" s5 => Some ([(key, v)], s5)
                                         | _ => None
                                         end
                                     | None => None
                                     end
                                 | _ => None
                                 end
                             | None => None
                             end
                           else None
                       | EmptyString => None
                       end
                   end) fuel' r
                with
                | Some (ms, rest) => Some (JObject ms, rest)
                | None => None
                end
            end
          else if (nat_of_ascii c =? 34)%nat then
            match parse_string_body r with
            | Some (l, rest) => Some (JString l, rest)
            | None => None
            end
          else if startsWith s "null" then Some (JNull, String.substring 4 (String.length s - 4) s)
          else if startsWith s "true" then Some (JBool true, String.substring 4 (String.length s - 4) s)
          else if startsWith s "false" then Some (JBool false, String.substring 5 (String.length s - 5) s)
          else
            match parse_number s with
            | Some (x, rest) => Some (JNumber x, rest)
            | None => None
            end
      end
  end.

(** [JSON.parse(s)]; [None] stands for the SyntaxError. *)
Definition JSON_parse (s : string) : option JSONValue :=
  match parse_value (S (String.length s)) (skip_json_ws s) with
  | Some (v, rest) =>
      match skip_json_ws rest with
      | EmptyString => Some v
      | _ => None
      end
  | None => None
  end.

(** *** Regular expressions *)

(** The fragment of the regular-expression language the sources use.
    Quantified atoms are always single-character classes, so a starred
    class is matched by recursion on the input. *)
Inductive regex : Type :=
| REps                           (* the empty pattern *)
| RChar (c : ascii)              (* a literal character *)
| RSet (p : ascii -> bool)       (* a character class *)
| RSeq (r1 r2 : regex)           (* r1 r2 *)
| RAlt (r1 r2 : regex)           (* r1 | r2 *)
| ROpt (r : regex)               (* r?, greedy *)
| RStar (p : ascii -> bool)      (* [class]*, greedy *)
| RLazyStar (p : ascii -> bool)  (* [class]*?, lazy *)
| RGroup (r : regex)             (* ( r ), the capture group 1 *)
| REnd.                          (* $ *)

(** A literal string. *)
Fixpoint RLit (s : string) : regex :=
  match s with
  | String c s' => RSeq (RChar c) (RLit s')
  | EmptyString => REps
  end.

(** The class [[\s\S]]. *)
Definition any_char (c : ascii) : bool := true.

(** What a successful match reports: the text of capture group 1, or
    [None] when the group did not take part. *)
Definition captures : Type := option string.

(** Greedy star: as many characters of the class as possible first,
    giving them back one at a time while the continuation fails. *)
Fixpoint star_greedy (p : ascii -> bool) (s : string)
    (k : string -> option captures) : option captures :=
  match s with
  | String c s' =>
      if p c then
        match star_greedy p s' k with
        | Some r => Some r
        | None => k s
        end
      else k s
  | EmptyString => k s
  end.

(** Lazy star: the continuation first, one more character of the class
    each time it fails. *)
Fixpoint star_lazy (p : ascii -> bool) (s : string)
    (k : string -> option captures) : option captures :=
  match k s with
  | Some r => Some r
  | None =>
      match s with
      | String c s' => if p c then star_lazy p s' k else None
      | EmptyString => None
      end
  end.

(** The part of [s] in front of its suffix [s']. *)
Definition consumed (s s' : string) : string :=
  String.substring 0 (String.length s - String.length s') s.

(** Backtracking matcher in continuation-passing style: [rmatch r s cap k]
    matches [r] at the head of [s] and hands the rest of the input and the
    captures to [k]; alternatives are tried in the order the ECMAScript
    semantics prescribes. *)
Fixpoint rmatch (r : regex) (s : string) (cap : captures)
    (k : string -> captures -> option captures) : option captures :=
  match r with
  | REps => k s cap
  | RChar c =>
      match s with
      | String c' s' => if Ascii.eqb c c' then k s' cap else None
      | EmptyString => None
      end
  | RSet p =>
      match s with
      | String c' s' => if p c' then k s' cap else None
      | EmptyString => None
      end
  | RSeq r1 r2 => rmatch r1 s cap (fun s' cap' => rmatch r2 s' cap' k)
  | RAlt r1 r2 =>
      match rmatch r1 s cap k with
      | Some x => Some x
      | None => rmatch r2 s cap k
      end
  | ROpt r1 =>
      match rmatch r1 s cap k with
      | Some x => Some x
      | None => k s cap
      end
  | RStar p => star_greedy p s (fun s' => k s' cap)
  | RLazyStar p => star_lazy p s (fun s' => k s' cap)
  | RGroup r1 => rmatch r1 s cap (fun s' _ => k s' (Some (consumed s s')))
  | REnd =>
      match s with
      | EmptyString => k s cap
      | String _ _ => None
      end
  end.

(** [s.match(/^r/)]: a match that must start at the first character. *)
Definition match_anchored (r : regex) (s : string) : option captures :=
  rmatch r s None (fun _ cap => Some cap).

(** [s.match(/r/)]: the match at the leftmost possible start. *)
Fixpoint match_search (r : regex) (s : string) : option captures :=
  match rmatch r s None (fun _ cap => Some cap) with
  | Some x => Some x
  | None =>
      match s with
      | String _ s' => match_search r s'
      | EmptyString => None
      end
  end.

End JS.

(** ** ai-config.ts *)

(** [process.env]. *)
Abbreviation Env := (gmap string string).

(** [process.env[name] || d]: an unset or empty variable gives [d]. *)
Definition env_or (env : Env) (name d : string) : string :=
  JS.or_string (default "" (env !! name)) d.

(** [parseInt(process.env[name] || '') || d]: [NaN] and [0] give [d]. *)
Definition env_int_or (env : Env) (name : string) (d : Z) : Z :=
  match JS.parseInt (env_or env name "") with
  | Some n => if JS.truthy_Z n then n else d
  | None => d
  end.

(** [parseFloat(process.env[name] || '') || d]: [NaN] and zero give [d]. *)
Definition env_float_or (env : Env) (name : string) (d : float) : float :=
  let x := JS.parseFloat (env_or env name "") in
  if JS.truthy_float x then x else d.

Record AIConfig : Type := {
  provider : string;        (* AIProvider; loadAIConfig casts the variable unchecked *)
  apiKey : string;
  baseURL : string;
  defaultModel : string;
  executionMode : string;   (* 'full' | 'prompt-only', cast unchecked as well *)
  siteUrl : option string;
  siteName : option string;
  timeout : Z;
  maxRetries : Z;
  temperature : float;
  maxTokens : Z;
  cacheEnabled : bool;
  cacheTTL : Z;
  azureEndpoint : option string;
  azureDeployment : option string;
  azureApiVersion : option string
}.

Record ModelConfig : Type := {
  id : string;
  name : string;
  modelProvider : string;
  inputCost : float;
  outputCost : float;
  contextLength : Z;
  useCases : list string
}.

(** [AVAILABLE_MODELS], in the order [Object.values] enumerates it. *)
Definition AVAILABLE_MODELS : list (string * ModelConfig) := [
  ("claude-3-sonnet",
   {| id := "anthropic/claude-3-sonnet"; name := "Claude 3 Sonnet";
      modelProvider := "anthropic"; inputCost := 3.0; outputCost := 15.0;
      contextLength := 200000;
      useCases := ["analysis"; "reasoning"; "code-generation"] |});
  ("claude-3-haiku",
   {| id := "anthropic/claude-3-haiku"; name := "Claude 3 Haiku";
      modelProvider := "anthropic"; inputCost := 0.25; outputCost := 1.25;
      contextLength := 200000;
      useCases := ["quick-analysis"; "simple-tasks"] |});
  ("gpt-4o",
   {| id := "openai/gpt-4o"; name := "GPT-4 Omni";
      modelProvider := "openai"; inputCost := 5.0; outputCost := 15.0;
      contextLength := 128000;
      useCases := ["analysis"; "reasoning"; "creative-tasks"] |});
  ("gpt-4o-mini",
   {| id := "openai/gpt-4o-mini"; name := "GPT-4 Omni Mini";
      modelProvider := "openai"; inputCost := 0.15; outputCost := 0.6;
      contextLength := 128000;
      useCases := ["quick-analysis"; "simple-tasks"; "cost-effective"] |})
].

Definition DEFAULT_AI_CONFIG : AIConfig := {|
  provider := "openrouter";
  apiKey := "";
  baseURL := "https://openrouter.ai/api/v1";
  defaultModel := "anthropic/claude-3-sonnet";
  executionMode := "full";
  siteUrl := Some "https://github.com/tosin2013/mcp-adr-analysis-server";
  siteName := Some "MCP ADR Analysis Server";
  timeout := 60000;
  maxRetries := 3;
  temperature := 0.1;
  maxTokens := 4000;
  cacheEnabled := true;
  cacheTTL := 3600;
  azureEndpoint := None;
  azureDeployment := None;
  azureApiVersion := Some "2024-08-01-preview"
|}.

(** [s.replace(/\/$/, '')]: one trailing slash is dropped. *)
Fixpoint strip_trailing_slash (s : string) : string :=
  match s with
  | String c EmptyString => if Ascii.eqb c "/" then EmptyString else s
  | String c s' => String c (strip_trailing_slash s')
  | EmptyString => EmptyString
  end.

(** [Array.prototype.join]. *)
Fixpoint join (sep : string) (l : list string) : string :=
  match l with
  | [] => ""
  | [x] => x
  | x :: rest => x ++ sep ++ join sep rest
  end.

(** An optional property that is only included when its value is truthy:
    [...(v ? { v } : {})]. *)
Definition include_if_truthy (v : option string) : option string :=
  if JS.truthy_opt_string v then v else None.

(** The names [validateProviderConfig] collects for the azure provider. *)
Definition missingAzureVars (config : AIConfig) : list string :=
  (if JS.truthy_opt_string (azureEndpoint config) then [] else ["AZURE_OPENAI_ENDPOINT"]) ++
  (if JS.truthy_string (apiKey config) then [] else ["AZURE_OPENAI_API_KEY"]) ++
  (if JS.truthy_opt_string (azureDeployment config) then [] else ["AZURE_OPENAI_DEPLOYMENT"]).

(** [validateProviderConfig]: throws [new Error(message)]. *)
Definition validateProviderConfig (config : AIConfig) : outcome string unit :=
  if negb (String.eqb (executionMode config) "full") then
    (* No validation needed for prompt-only mode *)
    Return tt
  else if String.eqb (provider config) "azure" then
    let missing := missingAzureVars config in
    if (0 <? length missing)%nat then
      Throw ("Azure AI Foundry requires the following environment variables: "
             ++ join ", " missing ++ ". "
             ++ "Set AI_PROVIDER=openrouter or AI_PROVIDER=openai to use a different provider, "
             ++ "or set EXECUTION_MODE=prompt-only to disable AI execution.")
    else Return tt
  else if String.eqb (provider config) "openai" then
    if negb (JS.truthy_string (apiKey config)) then
      Throw ("OpenAI requires OPENAI_API_KEY environment variable. "
             ++ "Set AI_PROVIDER=openrouter or AI_PROVIDER=azure to use a different provider, "
             ++ "or set EXECUTION_MODE=prompt-only to disable AI execution.")
    else Return tt
  else (* case 'openrouter': default: *)
    if negb (JS.truthy_string (apiKey config)) then
      Throw ("OpenRouter requires OPENROUTER_API_KEY environment variable. "
             ++ "Get your API key at https://openrouter.ai/keys. "
             ++ "Set AI_PROVIDER=azure or AI_PROVIDER=openai to use a different provider, "
             ++ "or set EXECUTION_MODE=prompt-only to disable AI execution.")
    else Return tt.

(** The object literal [loadAIConfig] builds before validating it. *)
Definition buildAIConfig (env : Env) : AIConfig :=
  let provider := env_or env "AI_PROVIDER" "openrouter" in
  let '(apiKey, baseURL, defaultModel, azEndpoint, azDeployment, azApiVersion) :=
    if String.eqb provider "azure" then
      let apiKey := env_or env "AZURE_OPENAI_API_KEY" "" in
      let azureEndpoint := env_or env "AZURE_OPENAI_ENDPOINT" "" in
      let azureDeployment := env_or env "AZURE_OPENAI_DEPLOYMENT" "" in
      let azureApiVersion :=
        env_or env "AZURE_OPENAI_API_VERSION" "2024-08-01-preview" in
      let baseURL :=
        if JS.truthy_string azureEndpoint
        then strip_trailing_slash azureEndpoint ++ "/openai/deployments/" ++ azureDeployment
        else "" in
      let defaultModel :=
        JS.or_string azureDeployment (env_or env "AI_MODEL" "gpt-4") in
      (apiKey, baseURL, defaultModel,
       Some azureEndpoint, Some azureDeployment, Some azureApiVersion)
    else if String.eqb provider "openai" then
      (env_or env "OPENAI_API_KEY" "", "https://api.openai.com/v1",
       env_or env "AI_MODEL" "gpt-4o", None, None, None)
    else
      (env_or env "OPENROUTER_API_KEY" "", "https://openrouter.ai/api/v1",
       env_or env "AI_MODEL" (defaultModel DEFAULT_AI_CONFIG), None, None, None) in
  {| provider := provider;
     apiKey := apiKey;
     baseURL := baseURL;
     defaultModel := defaultModel;
     executionMode := env_or env "EXECUTION_MODE" (executionMode DEFAULT_AI_CONFIG);
     siteUrl := Some (env_or env "SITE_URL"
                        "https://github.com/tosin2013/mcp-adr-analysis-server");
     siteName := Some (env_or env "SITE_NAME" "MCP ADR Analysis Server");
     timeout := env_int_or env "AI_TIMEOUT" (timeout DEFAULT_AI_CONFIG);
     maxRetries := env_int_or env "AI_MAX_RETRIES" (maxRetries DEFAULT_AI_CONFIG);
     temperature := env_float_or env "AI_TEMPERATURE" (temperature DEFAULT_AI_CONFIG);
     maxTokens := env_int_or env "AI_MAX_TOKENS" (maxTokens DEFAULT_AI_CONFIG);
     cacheEnabled := negb (bool_decide (env !! "AI_CACHE_ENABLED" = Some "false"));
     cacheTTL := env_int_or env "AI_CACHE_TTL" (cacheTTL DEFAULT_AI_CONFIG);
     azureEndpoint := include_if_truthy azEndpoint;
     azureDeployment := include_if_truthy azDeployment;
     azureApiVersion := include_if_truthy azApiVersion |}.

(** [loadAIConfig]: build, validate the provider requirements, return. *)
Definition loadAIConfig (env : Env) : outcome string AIConfig :=
  let config := buildAIConfig env in
  match validateProviderConfig config with
  | Throw msg => Throw msg
  | Return _ => Return config
  end.

(** [validateAIConfig]: the common numeric ranges (the unknown-model check
    only writes a warning to the console). *)
Definition validateAIConfig (config : AIConfig) : outcome string unit :=
  if PrimFloat.ltb (temperature config) 0 || PrimFloat.ltb 1 (temperature config)
  then Throw "Temperature must be between 0 and 1"
  else if (maxTokens config <? 100) || (8000 <? maxTokens config)
  then Throw "Max tokens must be between 100 and 8000"
  else if (timeout config <? 1000) || (300000 <? timeout config)
  then Throw "Timeout must be between 1000ms and 300000ms"
  else Return tt.

Definition isAIExecutionEnabled (config : AIConfig) : bool :=
  String.eqb (executionMode config) "full" && JS.truthy_string (apiKey config).

(** [Array.prototype.sort] with the comparator of [getRecommendedModel]:
    a stable insertion by total cost. *)
Definition cost_before (a b : ModelConfig) : bool :=
  PrimFloat.ltb (inputCost a + outputCost a - (inputCost b + outputCost b))%float 0.

Fixpoint insert_by_cost (m : ModelConfig) (l : list ModelConfig) : list ModelConfig :=
  match l with
  | [] => [m]
  | x :: rest => if cost_before x m then x :: insert_by_cost m rest else m :: l
  end.

Definition sort_by_cost (l : list ModelConfig) : list ModelConfig :=
  fold_right insert_by_cost [] l.

Definition getRecommendedModel (useCase : string) (costSensitive : bool) : string :=
  let models := List.map snd AVAILABLE_MODELS in
  let suitableModels :=
    List.filter (fun m => JS.includes (useCases m) useCase
                          || JS.includes (useCases m) "analysis") models in
  match (if costSensitive then sort_by_cost suitableModels else suitableModels) with
  | [] => defaultModel DEFAULT_AI_CONFIG
  | m :: _ => id m
  end.

(** ** ai-executor.ts *)

Record Usage : Type := {
  promptTokens : Z;
  completionTokens : Z;
  totalTokens : Z
}.

(** [AIExecutionResult.metadata]; [timestamp] is the clock reading that
    [toISOString] renders. *)
Record Metadata : Type := {
  executionTime : Z;
  cached : bool;
  retryCount : Z;
  timestamp : Z
}.

Record AIExecutionResult : Type := {
  content : string;
  model : string;
  usage : option Usage;
  metadata : Metadata
}.

(** What can be thrown on the executor's paths: a plain [Error], whatever
    the provider client throws, and the [AIExecutionError] of
    [createError] (its message is rendered from the other fields). *)
Inductive JSError : Type :=
| PlainError (message : string)
| ProviderError (what : string)
| SyntaxError
| SchemaError
| AIExecutionError (code : string) (retryable : bool) (originalError : option JSError).

Definition createError (code : string) (retryable : bool)
    (originalError : option JSError) : JSError :=
  AIExecutionError code retryable originalError.

(** The [options] argument of [executePrompt]: an object whose properties
    are kept in insertion order, which is the order [JSON.stringify]
    prints them in. *)
Inductive OptionField : Type :=
| OptModel (v : string)
| OptTemperature (v : float)
| OptMaxTokens (v : Z)
| OptSystemPrompt (v : string).

Abbreviation Options := (list OptionField).

Fixpoint opt_model (o : Options) : option string :=
  match o with
  | OptModel v :: _ => Some v
  | _ :: rest => opt_model rest
  | [] => None
  end.

Fixpoint opt_temperature (o : Options) : option float :=
  match o with
  | OptTemperature v :: _ => Some v
  | _ :: rest => opt_temperature rest
  | [] => None
  end.

Fixpoint opt_maxTokens (o : Options) : option Z :=
  match o with
  | OptMaxTokens v :: _ => Some v
  | _ :: rest => opt_maxTokens rest
  | [] => None
  end.

Fixpoint opt_systemPrompt (o : Options) : option string :=
  match o with
  | OptSystemPrompt v :: _ => Some v
  | _ :: rest => opt_systemPrompt rest
  | [] => None
  end.

Definition same_key (a b : OptionField) : bool :=
  match a, b with
  | OptModel _, OptModel _
  | OptTemperature _, OptTemperature _
  | OptMaxTokens _, OptMaxTokens _
  | OptSystemPrompt _, OptSystemPrompt _ => true
  | _, _ => false
  end.

(** Defining a property in an object literal after a spread: an existing
    property keeps its place and takes the new value, a new one goes last. *)
Fixpoint set_field (f : OptionField) (o : Options) : Options :=
  match o with
  | g :: rest => if same_key f g then f :: rest else g :: set_field f rest
  | [] => [f]
  end.

Definition JSON_stringify_field (f : OptionField) : string :=
  match f with
  | OptModel v => JS.JSON_stringify_string "model" ++ ":" ++ JS.JSON_stringify_string v
  | OptTemperature v =>
      JS.JSON_stringify_string "temperature" ++ ":" ++ JS.JSON_stringify_number v
  | OptMaxTokens v => JS.JSON_stringify_string "maxTokens" ++ ":" ++ JS.Z_to_string v
  | OptSystemPrompt v =>
      JS.JSON_stringify_string "systemPrompt" ++ ":" ++ JS.JSON_stringify_string v
  end.

Definition JSON_stringify_options (o : Options) : string :=
  "{" ++ join "," (List.map JSON_stringify_field o) ++ "}".

(** [generateCacheKey]: the first 32 base64 characters of the UTF-8 bytes
    of [JSON.stringify({ prompt, model, options })]. *)
Definition generateCacheKey (prompt model : string) (options : Options) : string :=
  let key :=
    "{" ++ JS.JSON_stringify_string "prompt" ++ ":" ++ JS.JSON_stringify_string prompt
        ++ "," ++ JS.JSON_stringify_string "model" ++ ":" ++ JS.JSON_stringify_string model
        ++ "," ++ JS.JSON_stringify_string "options" ++ ":" ++ JSON_stringify_options options
        ++ "}" in
  JS.slice0 32 (JS.base64_encode (JS.utf8_encode key)).

(** The request [chat.completions.create] receives. *)
Record ChatRequest : Type := {
  req_model : string;
  req_messages : list (string * string);   (* role, content *)
  req_temperature : float;
  req_max_tokens : Z
}.

(** The completion it resolves to: [choices[0]?.message?.content] may be
    missing. *)
Record Completion : Type := {
  choice_content : option string;
  completion_model : string;
  completion_usage : option Usage
}.

Inductive ProviderReply : Type :=
| Completed (c : Completion)
| Failed (e : JSError).

(** What the executor does to the world, in the order it does it: a
    request sent to the provider, or a delay waited out. *)
Inductive Event : Type :=
| Call (req : ChatRequest)
| Sleep (delay : Z).

(** The world outside the executor: the clock [Date.now()] reads, the
    provider (what the n-th call answers to a request, and how many
    milliseconds it takes), and the trace of what the executor did, oldest
    event first. *)
Record World : Type := {
  now : Z;
  provider_reply : nat -> ChatRequest -> ProviderReply * N;
  events : list Event
}.

(** The requests sent so far, and the delays waited so far. *)
Definition calls (w : World) : list ChatRequest :=
  flat_map (fun ev => match ev with Call req => [req] | Sleep _ => [] end) (events w).

Definition sleeps (w : World) : list Z :=
  flat_map (fun ev => match ev with Call _ => [] | Sleep d => [d] end) (events w).

(** [await this.client.chat.completions.create(req)]. *)
Definition call_provider (req : ChatRequest) (w : World) : ProviderReply * World :=
  let (reply, elapsed) := provider_reply w (length (calls w)) req in
  (reply, {| now := now w + Z.of_N elapsed;
             provider_reply := provider_reply w;
             events := (events w ++ [Call req])%list |}).

(** [await new Promise(resolve => setTimeout(resolve, delay))]. *)
Definition sleep (delay : Z) (w : World) : World :=
  {| now := now w + delay;
     provider_reply := provider_reply w;
     events := (events w ++ [Sleep delay])%list |}.

Record CacheEntry : Type := {
  result : AIExecutionResult;
  expiry : Z
}.

Inductive Client : Type := AzureOpenAIClient | OpenAIClient | OpenRouterClient.

(** The fields of an [AIExecutor] instance. *)
Record AIExecutor : Type := {
  client : option Client;
  config : AIConfig;
  cache : gmap string CacheEntry
}.

Definition initializeClient (ex : AIExecutor) : AIExecutor :=
  if negb (isAIExecutionEnabled (config ex)) then ex
  else
    match validateAIConfig (config ex) with
    | Return _ =>
        {| client :=
             Some (if String.eqb (provider (config ex)) "azure" then AzureOpenAIClient
                   else if String.eqb (provider (config ex)) "openai" then OpenAIClient
                   else OpenRouterClient);
           config := config ex;
           cache := cache ex |}
    | Throw _ => {| client := None; config := config ex; cache := cache ex |}
    end.

(** [new AIExecutor(config)]; without an argument the configuration is
    loaded, which may throw. *)
Definition newAIExecutor (env : Env) (cfg : option AIConfig) : outcome JSError AIExecutor :=
  match cfg with
  | Some c => Return (initializeClient {| client := None; config := c; cache := ∅ |})
  | None =>
      match loadAIConfig env with
      | Return c => Return (initializeClient {| client := None; config := c; cache := ∅ |})
      | Throw msg => Throw (PlainError msg)
      end
  end.

Definition reloadConfigIfNeeded (env : Env) (ex : AIExecutor) : outcome JSError AIExecutor :=
  match loadAIConfig env with
  | Throw msg => Throw (PlainError msg)
  | Return currentConfig =>
      let configChanged :=
        negb (String.eqb (apiKey (config ex)) (apiKey currentConfig))
        || negb (String.eqb (executionMode (config ex)) (executionMode currentConfig))
        || negb (String.eqb (defaultModel (config ex)) (defaultModel currentConfig)) in
      if configChanged then
        Return (initializeClient
                  {| client := client ex; config := currentConfig; cache := cache ex |})
      else Return ex
  end.

Definition isAvailable (env : Env) (ex : AIExecutor) : outcome JSError (bool * AIExecutor) :=
  match reloadConfigIfNeeded env ex with
  | Throw e => Throw e
  | Return ex' =>
      Return (match client ex' with Some _ => true | None => false end
              && isAIExecutionEnabled (config ex'), ex')
  end.

(** [{ ...r, metadata: { ...r.metadata, cached: true } }]. *)
Definition mark_cached (r : AIExecutionResult) : AIExecutionResult :=
  {| content := content r;
     model := model r;
     usage := usage r;
     metadata := {| executionTime := executionTime (metadata r);
                    cached := true;
                    retryCount := retryCount (metadata r);
                    timestamp := timestamp (metadata r) |} |}.

(** [getCachedResult] at clock reading [t]: an expired entry is deleted. *)
Definition getCachedResult (cacheKey : string) (t : Z) (ex : AIExecutor)
  : option AIExecutionResult * AIExecutor :=
  match cache ex !! cacheKey with
  | None => (None, ex)
  | Some entry =>
      if expiry entry <? t then
        (None, {| client := client ex; config := config ex;
                  cache := delete cacheKey (cache ex) |})
      else (Some (mark_cached (result entry)), ex)
  end.

(** [cleanupCache] at clock reading [t]. *)
Definition cleanupCache (t : Z) (c : gmap string CacheEntry) : gmap string CacheEntry :=
  filter (fun kv => negb (expiry (snd kv) <? t) = true) c.

(** [setCachedResult] at clock reading [t]. *)
Definition setCachedResult (cacheKey : string) (r : AIExecutionResult) (t : Z)
    (ex : AIExecutor) : AIExecutor :=
  let expiry := t + cacheTTL (config ex) * 1000 in
  let c := <[cacheKey := {| result := r; expiry := expiry |}]> (cache ex) in
  {| client := client ex;
     config := config ex;
     cache := if (100 <? size c)%nat then cleanupCache t c else c |}.

Definition clearCache (ex : AIExecutor) : AIExecutor :=
  {| client := client ex; config := config ex; cache := ∅ |}.

Definition getCacheStats (ex : AIExecutor) : nat * Z := (size (cache ex), 0).

Definition getConfig (ex : AIExecutor) : AIConfig := config ex.

(** [updateConfig] with the merged configuration [{ ...this.config, ...newConfig }]. *)
Definition updateConfig (merged : AIConfig) (ex : AIExecutor) : AIExecutor :=
  initializeClient {| client := client ex; config := merged; cache := cache ex |}.

(** [Math.min(1000 * Math.pow(2, retryCount - 1), 10000)]. *)
Definition backoff_delay (retryCount : Z) : Z :=
  Z.min (1000 * 2 ^ (retryCount - 1)) 10000.

Definition build_request (prompt model : string) (options : Options) (cfg : AIConfig)
  : ChatRequest :=
  {| req_model := model;
     req_messages :=
       (match opt_systemPrompt options with
        | Some sp => if JS.truthy_string sp then [("system", sp)] else []
        | None => []
        end ++ [("user", prompt)])%list;
     req_temperature := default (temperature cfg) (opt_temperature options);
     req_max_tokens := default (maxTokens cfg) (opt_maxTokens options) |}.

(** The [while (retryCount <= maxRetries)] loop of [executePrompt].  One
    unit of [fuel] is spent per iteration; [None] means the fuel ran out,
    which [retry_loop_fuel] below shows cannot happen with the fuel
    [executePrompt] provides. *)
Fixpoint retry_loop (fuel : nat) (retryCount : Z) (startTime : Z)
    (prompt model cacheKey : string) (options : Options)
    (ex : AIExecutor) (w : World)
  : option (outcome JSError AIExecutionResult * AIExecutor * World) :=
  let maxRetries := maxRetries (config ex) in
  if retryCount <=? maxRetries then
    match fuel with
    | O => None
    | S fuel' =>
        match call_provider (build_request prompt model options (config ex)) w with
        | (Completed completion, w1) =>
            let r :=
              {| content := match choice_content completion with
                            | Some c => c
                            | None => ""
                            end;
                 model := completion_model completion;
                 usage := completion_usage completion;
                 metadata := {| executionTime := now w1 - startTime;
                                cached := false;
                                retryCount := retryCount;
                                timestamp := now w1 |} |} in
            (* Cache the result *)
            let ex1 := if cacheEnabled (config ex)
                       then setCachedResult cacheKey r (now w1) ex else ex in
            Some (Return r, ex1, w1)
        | (Failed error, w1) =>
            let retryCount := retryCount + 1 in
            if maxRetries <? retryCount then
              Some (Throw (createError "AI_EXECUTION_FAILED" false (Some error)), ex, w1)
            else
              (* Wait before retry (exponential backoff) *)
              retry_loop fuel' retryCount startTime prompt model cacheKey options
                ex (sleep (backoff_delay retryCount) w1)
        end
    end
  else
    Some (Throw (createError "AI_UNEXPECTED_ERROR" false None), ex, w).

Definition executePrompt (env : Env) (prompt : string) (options : Options)
    (ex : AIExecutor) (w : World)
  : outcome JSError AIExecutionResult * AIExecutor * World :=
  (* Ensure configuration is up to date before execution *)
  match reloadConfigIfNeeded env ex with
  | Throw e => (Throw e, ex, w)
  | Return ex1 =>
      match isAvailable env ex1 with
      | Throw e => (Throw e, ex1, w)
      | Return (false, ex2) =>
          (Throw (createError "AI_UNAVAILABLE" false None), ex2, w)
      | Return (true, ex2) =>
          let startTime := now w in
          let model := JS.or_string (default "" (opt_model options))
                         (defaultModel (config ex2)) in
          let cacheKey := generateCacheKey prompt model options in
          (* Check cache first *)
          let (hit, ex3) :=
            if cacheEnabled (config ex2) then getCachedResult cacheKey (now w) ex2
            else (None, ex2) in
          match hit with
          | Some r => (Return r, ex3, w)
          | None =>
              match retry_loop (Z.to_nat (maxRetries (config ex3) + 1)) 0 startTime
                      prompt model cacheKey options ex3 w with
              | Some res => res
              | None => (Throw (createError "AI_UNEXPECTED_ERROR" false None), ex3, w)
              end
          end
      end
  end.

(** *** Structured prompts *)

Definition LF : ascii := ascii_of_nat 10.

(** [/^```(?:json)?\s*\n?([\s\S]*?)\n?```$/] *)
Definition codeBlockRegex : JS.regex :=
  JS.RSeq (JS.RLit "```")
    (JS.RSeq (JS.ROpt (JS.RLit "json"))
       (JS.RSeq (JS.RStar JS.is_space)
          (JS.RSeq (JS.ROpt (JS.RChar LF))
             (JS.RSeq (JS.RGroup (JS.RLazyStar JS.any_char))
                (JS.RSeq (JS.ROpt (JS.RChar LF))
                   (JS.RSeq (JS.RLit "```") JS.REnd)))))).

(** [/^`([\s\S]*?)`$/] *)
Definition inlineCodeRegex : JS.regex :=
  JS.RSeq (JS.RChar "`")
    (JS.RSeq (JS.RGroup (JS.RLazyStar JS.any_char))
       (JS.RSeq (JS.RChar "`") JS.REnd)).

(** [/(\{[\s\S]*\}|\[[\s\S]*\])/] *)
Definition jsonRegex : JS.regex :=
  JS.RGroup
    (JS.RAlt
       (JS.RSeq (JS.RChar "{") (JS.RSeq (JS.RStar JS.any_char) (JS.RChar "}")))
       (JS.RSeq (JS.RChar "[") (JS.RSeq (JS.RStar JS.any_char) (JS.RChar "]")))).

(** [m && m[1]]: the capture of a match, when it is a non-empty string. *)
Definition truthy_capture (m : option JS.captures) : option string :=
  match m with
  | Some (Some c) => if JS.truthy_string c then Some c else None
  | _ => None
  end.

Definition extractJsonFromResponse (content : string) : string :=
  (* Remove leading/trailing whitespace *)
  let content := JS.trim content in
  (* Check if content is wrapped in markdown code blocks *)
  match truthy_capture (JS.match_anchored codeBlockRegex content) with
  | Some c => JS.trim c
  | None =>
      (* Check for inline code blocks *)
      match truthy_capture (JS.match_anchored inlineCodeRegex content) with
      | Some c => JS.trim c
      | None =>
          (* Try to find JSON object/array in the content *)
          match truthy_capture (JS.match_search jsonRegex content) with
          | Some c => JS.trim c
          | None => content   (* Return as-is if no patterns match *)
          end
      end
  end.

Definition STRUCTURED_SYSTEM_PROMPT : string :=
  "You are a helpful assistant that responds with valid JSON. Always return properly formatted JSON that matches the requested schema. Do not wrap the JSON in markdown code blocks.".

(** The [try] block of [executeStructuredPrompt]: extraction, [JSON.parse]
    and the optional [schema.parse], any failure of which is rethrown as
    [AI_JSON_PARSE_ERROR]. *)
Definition parse_structured (schema : option (JS.JSONValue -> bool)) (raw : string)
  : outcome JSError JS.JSONValue :=
  let jsonContent := extractJsonFromResponse raw in
  match JS.JSON_parse jsonContent with
  | None => Throw (createError "AI_JSON_PARSE_ERROR" false (Some SyntaxError))
  | Some data =>
      match schema with
      | Some accepts =>
          if accepts data then Return data
          else Throw (createError "AI_JSON_PARSE_ERROR" false (Some SchemaError))
      | None => Return data
      end
  end.

Definition executeStructuredPrompt (env : Env) (prompt : string)
    (schema : option (JS.JSONValue -> bool)) (options : Options)
    (ex : AIExecutor) (w : World)
  : outcome JSError (JS.JSONValue * AIExecutionResult) * AIExecutor * World :=
  let systemPrompt :=
    JS.or_string (default "" (opt_systemPrompt options)) STRUCTURED_SYSTEM_PROMPT in
  let options' :=
    set_field (OptTemperature (default 0.1%float (opt_temperature options)))
      (set_field (OptSystemPrompt systemPrompt) options) in
  match executePrompt env prompt options' ex w with
  | (Throw e, ex', w') => (Throw e, ex', w')
  | (Return r, ex', w') =>
      match parse_structured schema (content r) with
      | Return data => (Return (data, r), ex', w')
      | Throw e => (Throw e, ex', w')
      end
  end.

(** [getAIExecutor]: the module-level singleton, created on first use. *)
Definition getAIExecutor (env : Env) (globalExecutor : option AIExecutor)
  : outcome JSError AIExecutor :=
  match globalExecutor with
  | Some ex => Return ex
  | None => newAIExecutor env None
  end.

(** ** tool-chain-orchestrator.ts: data model *)

(** [McpAdrError]: the [code] identifies the cause; the data the message is
    rendered from is kept in structured form. *)
Inductive McpAdrError : Type :=
| PlanTooComplex (stepCount : nat) (maxSteps : Z)
| ExcludedToolsUsed (tools : list string)
| UnknownTools (tools : list string)
| InvalidDependency (stepId depId : string)
| LowConfidencePlan (confidence : float).

Definition error_code (e : McpAdrError) : string :=
  match e with
  | PlanTooComplex _ _ => "PLAN_TOO_COMPLEX"
  | ExcludedToolsUsed _ => "EXCLUDED_TOOLS_USED"
  | UnknownTools _ => "UNKNOWN_TOOLS"
  | InvalidDependency _ _ => "INVALID_DEPENDENCY"
  | LowConfidencePlan _ => "LOW_CONFIDENCE_PLAN"
  end.

(** [ToolChainStepSchema] ([parameters] is an opaque record the validator
    never reads, so it is left out). *)
Record ToolChainStep : Type := {
  toolName : string;
  description : string;
  dependsOn : option (list string);
  stepId : string;
  conditional : bool;
  retryable : bool
}.

(** [ToolChainPlanSchema]. *)
Record ToolChainPlan : Type := {
  planId : string;
  userIntent : string;
  confidence : float;
  estimatedDuration : string;
  steps : list ToolChainStep;
  fallbackSteps : option (list ToolChainStep);
  prerequisites : option (list string);
  expectedOutputs : list string
}.

(** [ToolChainOrchestratorArgs['constraints']] after schema parsing:
    [maxSteps] and [prioritizeSpeed] carry defaults, so they are always
    present when the record is. *)
Record Constraints : Type := {
  maxSteps : Z;
  timeLimit : option string;
  excludeTools : option (list string);
  prioritizeSpeed : bool
}.

(** The closed tool vocabulary. *)
Definition AVAILABLE_TOOLS : list string := [
  "analyze_project_ecosystem";
  "generate_adrs_from_prd";
  "suggest_adrs";
  "analyze_content_security";
  "generate_rules";
  "generate_adr_todo";
  "compare_adr_progress";
  "manage_todo";
  "generate_deployment_guidance";
  "smart_score";
  "troubleshoot_guided_workflow";
  "smart_git_push";
  "generate_research_questions";
  "validate_rules";
  "analyze_code_patterns";
  "suggest_improvements";
  "generate_test_scenarios";
  "create_documentation";
  "security_audit";
  "performance_analysis";
  "dependency_analysis";
  "refactoring_suggestions";
  "api_documentation";
  "deployment_checklist";
  "release_notes"
].

(** ** validatePlanSafety *)

(** The two nested [for] loops over [plan.steps] and [step.dependsOn]: the
    first dependency, in iteration order, that is not a step id. *)
Definition first_missing_dep (stepIds : gset string) (step : ToolChainStep)
  : option McpAdrError :=
  match dependsOn step with
  | Some deps =>
      match List.find (fun depId => negb (bool_decide (depId ∈ stepIds))) deps with
      | Some depId => Some (InvalidDependency (stepId step) depId)
      | None => None
      end
  | None => None
  end.

Fixpoint check_dependencies (stepIds : gset string) (l : list ToolChainStep)
  : option McpAdrError :=
  match l with
  | step :: rest =>
      match first_missing_dep stepIds step with
      | Some e => Some e
      | None => check_dependencies stepIds rest
      end
  | [] => None
  end.

Definition validatePlanSafety (plan : ToolChainPlan) (constraints : option Constraints)
  : outcome McpAdrError unit :=
  (* Check step count *)
  if match constraints with
     | Some c => JS.truthy_Z (maxSteps c) && (maxSteps c <? Z.of_nat (length (steps plan)))
     | None => false
     end
  then Throw (PlanTooComplex (length (steps plan))
                (match constraints with Some c => maxSteps c | None => 0 end))
  else
  (* Check for excluded tools *)
  let usedExcludedTools :=
    match constraints with
    | Some {| excludeTools := Some ex |} =>
        List.filter (fun step => JS.includes ex (toolName step)) (steps plan)
    | _ => []
    end in
  if (0 <? length usedExcludedTools)%nat
  then Throw (ExcludedToolsUsed (List.map toolName usedExcludedTools))
  else
  (* Validate tool names *)
  let invalidTools :=
    List.filter (fun step => negb (JS.includes AVAILABLE_TOOLS (toolName step)))
      (steps plan) in
  if (0 <? length invalidTools)%nat
  then Throw (UnknownTools (List.map toolName invalidTools))
  else
  (* Check for circular dependencies *)
  let stepIds : gset string := list_to_set (List.map stepId (steps plan)) in
  match check_dependencies stepIds (steps plan) with
  | Some e => Throw e
  | None =>
      (* Validate confidence threshold *)
      if PrimFloat.ltb (confidence plan) 0.6%float
      then Throw (LowConfidencePlan (confidence plan))
      else Return tt
  end.

(** ** fallbackIntentAnalysis and analyzeUserIntent *)

Inductive Complexity : Type := simple | moderate | complex.

Module Intent.
Record IntentAnalysis : Type := {
  intent : string;
  category : string;
  complexity : Complexity;
  suggestedTools : list string;
  confidence : float
}.
End Intent.

(** [keywordMap], in the order [Object.entries] enumerates it. *)
Definition keywordMap : list (string * list string) := [
  ("analyze", ["analyze_project_ecosystem"; "analyze_content_security"]);
  ("generate", ["generate_adrs_from_prd"; "generate_adr_todo"; "generate_deployment_guidance"]);
  ("todo", ["manage_todo"; "generate_adr_todo"]);
  ("adr", ["suggest_adrs"; "generate_adrs_from_prd"; "compare_adr_progress"]);
  ("deploy", ["generate_deployment_guidance"; "smart_git_push"]);
  ("score", ["smart_score"]);
  ("troubleshoot", ["troubleshoot_guided_workflow"]);
  ("security", ["analyze_content_security"; "security_audit"])
].

(** [[...new Set(l)]]: the first occurrence of every element, in order. *)
Definition array_of_set (l : list string) : list string :=
  fold_left (fun acc x => if JS.includes acc x then acc else (acc ++ [x])%list) l [].

(** The tools pushed by the loop over [keywordMap]. *)
Definition matchedTools (request : string) : list string :=
  flat_map (fun kt : string * list string =>
              if JS.str_includes request (fst kt) then snd kt else []) keywordMap.

Definition fallbackIntentAnalysis (userRequest : string) : Intent.IntentAnalysis :=
  let request := JS.toLowerCase userRequest in
  let suggestedTools := matchedTools request in
  (* Determine category and complexity *)
  let (category, complexity) :=
    if JS.str_includes request "generate" || JS.str_includes request "create"
    then ("generation", moderate)
    else if JS.str_includes request "troubleshoot" || JS.str_includes request "debug"
    then ("troubleshooting", complex)
    else if JS.str_includes request "deploy" || JS.str_includes request "release"
    then ("deployment", complex)
    else ("analysis", simple) in
  {| Intent.intent :=
       "User wants to "
       ++ (if JS.str_includes request "analyze" then "analyze"
           else if JS.str_includes request "generate" then "generate"
           else "manage")
       ++ " project elements";
     Intent.category := category;
     Intent.complexity := complexity;
     Intent.suggestedTools := firstn 5 (array_of_set suggestedTools);
     Intent.confidence := if (0 <? length suggestedTools)%nat then 0.7%float else 0.3%float |}.

Definition NL : string := String LF "".

Definition INTENT_SYSTEM_PROMPT : string :=
  "Analyze the user's intent and suggest relevant MCP tools." ++ NL ++ NL
  ++ "Available Tools: " ++ join ", " AVAILABLE_TOOLS ++ NL ++ NL
  ++ "Return JSON with:" ++ NL
  ++ "{" ++ NL
  ++ "  " ++ JS.dquote ++ "intent" ++ JS.dquote ++ ": " ++ JS.dquote
  ++ "clear description of what user wants to accomplish" ++ JS.dquote ++ "," ++ NL
  ++ "  " ++ JS.dquote ++ "category" ++ JS.dquote ++ ": " ++ JS.dquote
  ++ "analysis|generation|management|troubleshooting|deployment" ++ JS.dquote ++ "," ++ NL
  ++ "  " ++ JS.dquote ++ "complexity" ++ JS.dquote ++ ": " ++ JS.dquote
  ++ "simple|moderate|complex" ++ JS.dquote ++ "," ++ NL
  ++ "  " ++ JS.dquote ++ "suggestedTools" ++ JS.dquote ++ ": ["
  ++ JS.dquote ++ "tool1" ++ JS.dquote ++ ", " ++ JS.dquote ++ "tool2" ++ JS.dquote ++ "]," ++ NL
  ++ "  " ++ JS.dquote ++ "confidence" ++ JS.dquote ++ ": 0.85" ++ NL
  ++ "}".

(** The prompt and the options [analyzeUserIntent] passes to
    [executeStructuredPrompt]. *)
Definition intent_prompt (userRequest : string) : string :=
  "Analyze this request: " ++ JS.dquote ++ userRequest ++ JS.dquote.

Definition intent_options : Options :=
  [OptModel (getRecommendedModel "quick-analysis" true);   (* Use cost-effective model *)
   OptTemperature 0.1%float;
   OptMaxTokens 500;
   OptSystemPrompt INTENT_SYSTEM_PROMPT].

(** What [analyzeUserIntent] resolves to: the keyword fallback, or the
    provider's answer as [JSON.parse] returned it. *)
Inductive IntentResult : Type :=
| KeywordFallback (a : Intent.IntentAnalysis)
| ProviderAnswer (v : JS.JSONValue).

(** [analyzeUserIntent(args)] reads [args.userRequest] only.  The state is
    the module-level executor singleton and the world. *)
Definition analyzeUserIntent (env : Env) (userRequest : string)
    (globalExecutor : option AIExecutor) (w : World)
  : outcome JSError IntentResult * option AIExecutor * World :=
  match loadAIConfig env with
  | Throw msg => (Throw (PlainError msg), globalExecutor, w)
  | Return aiConfig =>
      if negb (isAIExecutionEnabled aiConfig) then
        (* Fallback to basic keyword analysis *)
        (Return (KeywordFallback (fallbackIntentAnalysis userRequest)), globalExecutor, w)
      else
        match getAIExecutor env globalExecutor with
        | Throw _ =>
            (Return (KeywordFallback (fallbackIntentAnalysis userRequest)), globalExecutor, w)
        | Return executor =>
            match executeStructuredPrompt env (intent_prompt userRequest) None
                    intent_options executor w with
            | (Return (_, raw), ex', w') =>
                match (if JS.truthy_string (content raw)
                       then JS.JSON_parse (content raw) else None) with
                | Some v => (Return (ProviderAnswer v), Some ex', w')
                | None =>
                    (Return (KeywordFallback (fallbackIntentAnalysis userRequest)),
                     Some ex', w')
                end
            | (Throw _, ex', w') =>
                (* Fall back to keyword analysis *)
                (Return (KeywordFallback (fallbackIntentAnalysis userRequest)), Some ex', w')
            end
        end
  end.

(** ** performRealityCheck *)

Record SessionContext : Type := {
  conversationLength : option Z;
  previousActions : option (list string);
  confusionIndicators : option (list string);
  lastSuccessfulAction : option string;
  stuckOnTask : option string
}.

Inductive Risk : Type := low | medium | high.

Module Reality.
Record RiskAssessment : Type := {
  hallucinationRisk : Risk;
  confusionIndicators : list string;
  recommendations : list string;
  suggestedActions : list string
}.
End Reality.

(** The value of a property of the [toolCounts] accumulator.  The
    accumulator starts as [{}], which inherits from [Object.prototype]:
    for an action named like an inherited property, [acc[tool] || 0] is the
    inherited function, and adding [1] to it gives a string that is not a
    number, which every further [+ 1] only lengthens. *)
Inductive CountValue : Type :=
| CountNumber (n : Z)
| CountText.

(** The property names every object inherits from [Object.prototype]. *)
Definition Object_prototype_keys : list string := [
  "constructor"; "__defineGetter__"; "__defineSetter__"; "hasOwnProperty";
  "__lookupGetter__"; "__lookupSetter__"; "isPrototypeOf";
  "propertyIsEnumerable"; "toString"; "valueOf"; "__proto__"; "toLocaleString"
].

(** The own properties of an object, in creation order. *)
Abbreviation Counts := (list (string * CountValue)).

Fixpoint own_property (acc : Counts) (key : string) : option CountValue :=
  match acc with
  | (k, v) :: rest => if String.eqb k key then Some v else own_property rest key
  | [] => None
  end.

(** [acc[key] = v] for an own or new data property. *)
Fixpoint assign (acc : Counts) (key : string) (v : CountValue) : Counts :=
  match acc with
  | (k, v') :: rest =>
      if String.eqb k key then (k, v) :: rest else (k, v') :: assign rest key v
  | [] => [(key, v)]
  end.

(** The reducer [acc[tool] = (acc[tool] || 0) + 1].  Assigning a primitive
    to [__proto__] goes to the inherited setter, which ignores it. *)
Definition count_tool (acc : Counts) (tool : string) : Counts :=
  let v :=
    match own_property acc tool with
    | Some (CountNumber n) => CountNumber ((if JS.truthy_Z n then n else 0) + 1)
    | Some CountText => CountText
    | None =>
        if JS.includes Object_prototype_keys tool then CountText else CountNumber 1
    end in
  if String.eqb tool "__proto__" then acc else assign acc tool v.

Definition toolCounts (previousActions : list string) : Counts :=
  fold_left count_tool previousActions [].

(** A canonical array index: such keys are enumerated first, in ascending
    order, by [Object.entries]. *)
Definition array_index (k : string) : option Z :=
  match JS.take_digits 10 k with
  | (d :: ds, EmptyString) =>
      let n := JS.digits_value 10 (d :: ds) in
      if (String.eqb k "0" || negb (d =? 0)%nat) && (n <? 4294967295)
      then Some n else None
  | _ => None
  end.

Fixpoint insert_index (e : Z * (string * CountValue)) (l : list (Z * (string * CountValue)))
  : list (Z * (string * CountValue)) :=
  match l with
  | [] => [e]
  | x :: rest => if fst x <? fst e then x :: insert_index e rest else e :: l
  end.

Definition Object_entries (acc : Counts) : Counts :=
  let indexed :=
    flat_map (fun kv : string * CountValue =>
                match array_index (fst kv) with
                | Some n => [(n, kv)]
                | None => []
                end) acc in
  let named :=
    List.filter (fun kv : string * CountValue =>
                   match array_index (fst kv) with
                   | Some _ => false
                   | None => true
                   end) acc in
  (List.map snd (fold_right insert_index [] indexed) ++ named)%list.

(** [count > 3]: a string that is not a number compares as [NaN]. *)
Definition count_gt_3 (v : CountValue) : bool :=
  match v with
  | CountNumber n => 3 <? n
  | CountText => false
  end.

Definition repeatedTools (previousActions : list string) : Counts :=
  List.filter (fun kv : string * CountValue => count_gt_3 (snd kv))
    (Object_entries (toolCounts previousActions)).

Definition render_count (kv : string * CountValue) : string :=
  fst kv ++ "(" ++ match snd kv with
                   | CountNumber n => JS.Z_to_string n
                   | CountText => "NaN"
                   end ++ "x)".

Definition confusionKeywords : list string := [
  "confused"; "not working"; "stuck"; "help"; "what should"; "don't know";
  "error"; "failed"
].

Definition foundKeywords (request : string) : list string :=
  List.filter (fun keyword => JS.str_includes request keyword) confusionKeywords.

(** The running state of the checks: [riskScore], [confusionIndicators]
    and [recommendations]. *)
Record Signals : Type := {
  riskScore : Z;
  indicators : list string;
  advice : list string
}.

Definition add_signal (points : Z) (indicator recommendation : string) (s : Signals)
  : Signals :=
  {| riskScore := riskScore s + points;
     indicators := (indicators s ++ [indicator])%list;
     advice := (advice s ++ [recommendation])%list |}.

Definition check_conversation (sessionCtx : option SessionContext) (s : Signals) : Signals :=
  match sessionCtx with
  | Some {| conversationLength := Some n |} =>
      if JS.truthy_Z n && (20 <? n)
      then add_signal 2 "Very long conversation - potential confusion accumulation"
             "Consider starting fresh with human override" s
      else s
  | _ => s
  end.

Definition check_repetition (sessionCtx : option SessionContext) (s : Signals) : Signals :=
  match sessionCtx with
  | Some {| previousActions := Some actions |} =>
      let repeated := repeatedTools actions in
      if (0 <? length repeated)%nat
      then add_signal (Z.of_nat (length repeated))
             ("Excessive repetition of tools: " ++ join ", " (List.map render_count repeated))
             "Break the repetition cycle with human override or different approach" s
      else s
  | _ => s
  end.

Definition check_keywords (request : string) (s : Signals) : Signals :=
  let found := foundKeywords request in
  if (0 <? length found)%nat
  then add_signal (Z.of_nat (length found))
         ("Confusion keywords detected: " ++ join ", " found)
         "LLM expressing uncertainty - human override recommended" s
  else s.

Definition check_stuck (sessionCtx : option SessionContext) (s : Signals) : Signals :=
  match sessionCtx with
  | Some {| stuckOnTask := Some task |} =>
      if JS.truthy_string task
      then add_signal 3 ("Stuck on task: " ++ task)
             "Use human override to force progress on stuck task" s
      else s
  | _ => s
  end.

(** The four checks in source order, from a zero score. *)
Definition realityCheckSignals (sessionCtx : option SessionContext) (userRequest : string)
  : Signals :=
  let request := JS.toLowerCase userRequest in
  check_stuck sessionCtx
    (check_keywords request
       (check_repetition sessionCtx
          (check_conversation sessionCtx
             {| riskScore := 0; indicators := []; advice := [] |}))).

Definition risk_of_score (riskScore : Z) : Risk :=
  if 5 <=? riskScore then high else if 2 <=? riskScore then medium else low.

Definition performRealityCheck (sessionCtx : option SessionContext) (userRequest : string)
  : Reality.RiskAssessment :=
  let s := realityCheckSignals sessionCtx userRequest in
  let hallucinationRisk := risk_of_score (riskScore s) in
  {| Reality.hallucinationRisk := hallucinationRisk;
     Reality.confusionIndicators := indicators s;
     Reality.recommendations := advice s;
     Reality.suggestedActions :=
       match hallucinationRisk with
       | high =>
           ["IMMEDIATE: Start fresh session with analyze_project_ecosystem to reload context";
            "Avoid further AI planning - use predefined task patterns";
            "Consider resetting the conversation context"]
       | medium =>
           ["Use predefined task patterns for critical tasks";
            "Limit AI planning to simple operations";
            "Monitor for increasing confusion indicators"]
       | low =>
           ["Continue with AI-assisted planning";
            "Monitor session for confusion indicators";
            "Keep human override available as backup"]
       end |}.

(** ** generateSessionGuidance *)

Inductive SessionStatus : Type := healthy | concerning | critical.

(** The pictographs that open some guidance lines.  They lie outside the
    code units a [string] holds here, so a line is kept as the pictograph
    (when it has one, followed by a space in the source) and its text. *)
Inductive Pictograph : Type :=
| Siren | WarningSign | CheckMark | Ruler | Target | Bullet.

Record GuidanceLine : Type := {
  pictograph : option Pictograph;
  line_text : string
}.

Definition plain_line (text : string) : GuidanceLine :=
  {| pictograph := None; line_text := text |}.

Definition marked_line (p : Pictograph) (text : string) : GuidanceLine :=
  {| pictograph := Some p; line_text := text |}.

Record SessionGuidance : Type := {
  sessionStatus : SessionStatus;
  guidance : list GuidanceLine;
  recommendedNextStep : string;
  humanInterventionNeeded : bool
}.

Definition generateSessionGuidance (sessionCtx : option SessionContext) (userRequest : string)
  : SessionGuidance :=
  let realityCheck := performRealityCheck sessionCtx userRequest in
  (* Assess session health *)
  let '(status, human, nextStep, assessment) :=
    match Reality.hallucinationRisk realityCheck with
    | high =>
        (critical, true, "Start fresh session with analyze_project_ecosystem",
         [marked_line Siren "CRITICAL: High hallucination risk detected";
          plain_line "LLM appears confused or stuck in loops";
          plain_line "Fresh session with context reload strongly recommended"])
    | medium =>
        (concerning, false, "Consider fresh session for critical tasks",
         [marked_line WarningSign "WARNING: Session showing signs of confusion";
          plain_line "Monitor closely and prepare to restart with fresh context"])
    | low =>
        (healthy, false, "Continue with current approach",
         [marked_line CheckMark "Session appears healthy";
          plain_line "AI planning can continue safely"])
    end in
  (* Add specific guidance based on context *)
  let longSession :=
    match sessionCtx with
    | Some {| conversationLength := Some n |} =>
        if JS.truthy_Z n && (15 <? n)
        then [marked_line Ruler
                ("Long session (" ++ JS.Z_to_string n
                 ++ " messages) - consider summarizing progress")]
        else []
    | _ => []
    end in
  let lastSuccess :=
    match sessionCtx with
    | Some {| lastSuccessfulAction := Some action |} =>
        if JS.truthy_string action
        then [marked_line CheckMark ("Last successful action: " ++ action);
              plain_line
                "Consider building on this success rather than trying new approaches"]
        else []
    | _ => []
    end in
  (* Add actionable next steps *)
  {| sessionStatus := status;
     guidance :=
       (assessment ++ longSession ++ lastSuccess
        ++ [plain_line ""; marked_line Target "Recommended Actions:"]
        ++ List.map (marked_line Bullet) (Reality.suggestedActions realityCheck))%list;
     recommendedNextStep := nextStep;
     humanInterventionNeeded := human |}.

(** ** generateToolChainPlan *)

(** The arguments of the orchestrator after schema parsing, as far as the
    functions embedded here read them ([operation] selects the function and
    is read by none of them).  [adrDirectory] and [todoPath] carry schema
    defaults, so they are always present. *)
Module Args.
Record ProjectContext : Type := {
  projectPath : string;
  adrDirectory : string;
  todoPath : string;
  hasADRs : option bool;
  hasTODO : option bool;
  projectType : option string
}.
Record t : Type := {
  userRequest : string;
  projectContext : ProjectContext;
  constraints : option Constraints;
  customInstructions : option string;
  sessionContext : option SessionContext
}.
End Args.

(** [TOOL_CAPABILITIES], in the order [Object.entries] enumerates it. *)
Definition TOOL_CAPABILITIES : list (string * string) := [
  ("analyze_project_ecosystem",
   "Analyze technology stack, dependencies, and architectural patterns");
  ("generate_adrs_from_prd",
   "Convert Product Requirements Documents to Architectural Decision Records");
  ("suggest_adrs",
   "Auto-suggest ADRs based on code analysis and project patterns");
  ("analyze_content_security",
   "Detect and mask sensitive information in project content");
  ("generate_rules",
   "Extract architectural rules and constraints from project analysis");
  ("generate_adr_todo",
   "Generate TODO.md from ADRs with comprehensive task breakdown");
  ("compare_adr_progress",
   "Validate TODO vs ADRs vs actual environment state");
  ("manage_todo",
   "Comprehensive TODO.md lifecycle management and progress tracking");
  ("generate_deployment_guidance",
   "AI-driven deployment procedures from architectural decisions");
  ("smart_score",
   "Project health scoring with cross-tool synchronization");
  ("troubleshoot_guided_workflow",
   "Systematic troubleshooting with ADR/TODO alignment");
  ("smart_git_push",
   "Intelligent release readiness analysis and git operations");
  ("generate_research_questions",
   "Generate targeted research questions for project analysis");
  ("validate_rules",
   "Validate architectural rule compliance across the project");
  ("analyze_code_patterns",
   "Identify code patterns and architectural consistency");
  ("suggest_improvements",
   "Provide targeted improvement recommendations");
  ("generate_test_scenarios",
   "Create comprehensive test scenarios and strategies");
  ("create_documentation",
   "Generate project documentation from code and ADRs");
  ("security_audit",
   "Comprehensive security analysis and vulnerability detection");
  ("performance_analysis",
   "Analyze performance bottlenecks and optimization opportunities");
  ("dependency_analysis",
   "Analyze project dependencies and potential issues");
  ("refactoring_suggestions",
   "Suggest code refactoring based on architectural principles");
  ("api_documentation",
   "Generate API documentation from code analysis");
  ("deployment_checklist",
   "Create deployment checklists based on ADRs and project state");
  ("release_notes",
   "Generate release notes from commits, ADRs, and TODO completion")
].

(** [`- ${tool}: ${desc}`] *)
Definition tool_line (td : string * string) : string :=
  "- " ++ fst td ++ ": " ++ snd td.

(** [b ? 'Yes' : 'No'], and the truthiness of an optional boolean. *)
Definition yes_no (b : bool) : string := if b then "Yes" else "No".

Definition truthy_flag (b : option bool) : bool := default false b.

(** The template literal [systemPrompt] of [generateToolChainPlan]. *)
Definition plan_system_prompt (args : Args.t) : string :=
  let pc := Args.projectContext args in
  "You are an expert software architect and MCP tool orchestrator. Your job is to analyze user requests and generate intelligent tool execution plans."
  ++ NL
  ++ NL
  ++ "Available MCP Tools:" ++ NL
  ++ (join NL (List.map tool_line TOOL_CAPABILITIES)) ++ NL
  ++ NL
  ++ "Project Context:" ++ NL
  ++ "- Project Path: " ++ (Args.projectPath pc) ++ NL
  ++ "- ADR Directory: " ++ (Args.adrDirectory pc) ++ NL
  ++ "- TODO Path: " ++ (Args.todoPath pc) ++ NL
  ++ "- Has ADRs: " ++ (yes_no (truthy_flag (Args.hasADRs pc))) ++ NL
  ++ "- Has TODO: " ++ (yes_no (truthy_flag (Args.hasTODO pc))) ++ NL
  ++ "- Project Type: " ++ (JS.or_string (default "" (Args.projectType pc)) "Unknown")
  ++ NL
  ++ NL
  ++ "Generate a structured tool execution plan that:" ++ NL
  ++ "1. Interprets the user's intent accurately" ++ NL
  ++ "2. Selects the optimal sequence of MCP tools" ++ NL
  ++ "3. Provides clear parameters for each tool" ++ NL
  ++ "4. Handles dependencies between steps" ++ NL
  ++ "5. Includes fallback options for robustness" ++ NL
  ++ NL
  ++ "Return a JSON object matching this schema:" ++ NL
  ++ "{" ++ NL
  ++ "  " ++ JS.dquote ++ "planId" ++ JS.dquote ++ ": " ++ JS.dquote ++ "unique-plan-id"
  ++ JS.dquote ++ "," ++ NL
  ++ "  " ++ JS.dquote ++ "userIntent" ++ JS.dquote ++ ": " ++ JS.dquote
  ++ "interpreted intent" ++ JS.dquote ++ "," ++ NL
  ++ "  " ++ JS.dquote ++ "confidence" ++ JS.dquote ++ ": 0.95," ++ NL
  ++ "  " ++ JS.dquote ++ "estimatedDuration" ++ JS.dquote ++ ": " ++ JS.dquote
  ++ "2-5 minutes" ++ JS.dquote ++ "," ++ NL
  ++ "  " ++ JS.dquote ++ "steps" ++ JS.dquote ++ ": [" ++ NL
  ++ "    {" ++ NL
  ++ "      " ++ JS.dquote ++ "stepId" ++ JS.dquote ++ ": " ++ JS.dquote ++ "step1"
  ++ JS.dquote ++ "," ++ NL
  ++ "      " ++ JS.dquote ++ "toolName" ++ JS.dquote ++ ": " ++ JS.dquote ++ "tool_name"
  ++ JS.dquote ++ "," ++ NL
  ++ "      " ++ JS.dquote ++ "parameters" ++ JS.dquote ++ ": { " ++ JS.dquote ++ "param"
  ++ JS.dquote ++ ": " ++ JS.dquote ++ "value" ++ JS.dquote ++ " }," ++ NL
  ++ "      " ++ JS.dquote ++ "description" ++ JS.dquote ++ ": " ++ JS.dquote
  ++ "what this accomplishes" ++ JS.dquote ++ "," ++ NL
  ++ "      " ++ JS.dquote ++ "dependsOn" ++ JS.dquote ++ ": []," ++ NL
  ++ "      " ++ JS.dquote ++ "conditional" ++ JS.dquote ++ ": false," ++ NL
  ++ "      " ++ JS.dquote ++ "retryable" ++ JS.dquote ++ ": true" ++ NL
  ++ "    }" ++ NL
  ++ "  ]," ++ NL
  ++ "  " ++ JS.dquote ++ "fallbackSteps" ++ JS.dquote ++ ": []," ++ NL
  ++ "  " ++ JS.dquote ++ "prerequisites" ++ JS.dquote ++ ": []," ++ NL
  ++ "  " ++ JS.dquote ++ "expectedOutputs" ++ JS.dquote ++ ": [" ++ JS.dquote ++ "output1"
  ++ JS.dquote ++ ", " ++ JS.dquote ++ "output2" ++ JS.dquote ++ "]" ++ NL
  ++ "}".

(** The template literal [userPrompt]. *)
Definition plan_user_prompt (args : Args.t) : string :=
  "User Request: " ++ JS.dquote ++ Args.userRequest args ++ JS.dquote ++ NL
  ++ NL
  ++ (match Args.customInstructions args with
      | Some instructions =>
          if JS.truthy_string instructions
          then "Additional Instructions: " ++ instructions else ""
      | None => ""
      end) ++ NL
  ++ NL
  ++ (match Args.constraints args with
      | Some c =>
          "Constraints:" ++ NL
          ++ "- Max Steps: " ++ JS.Z_to_string (maxSteps c) ++ NL
          ++ "- Time Limit: " ++ JS.or_string (default "" (timeLimit c)) "None" ++ NL
          ++ "- Exclude Tools: "
          ++ JS.or_string (match excludeTools c with
                           | Some tools => join ", " tools
                           | None => ""
                           end) "None" ++ NL
          ++ "- Prioritize Speed: " ++ yes_no (prioritizeSpeed c)
      | None => ""
      end) ++ NL
  ++ NL
  ++ "Generate the optimal tool execution plan.".

(** The options passed to [executeStructuredPrompt]. *)
Definition plan_options (aiConfig : AIConfig) (args : Args.t) : Options :=
  [OptModel (getRecommendedModel "analysis" false);
   OptTemperature 0.1%float;   (* Low temperature for consistent planning *)
   OptMaxTokens (maxTokens aiConfig);
   OptSystemPrompt (plan_system_prompt args)].

(** What the [try] block of [generateToolChainPlan] can fail with; the
    [catch] wraps each of them in an [McpAdrError] with the code
    [PLANNING_FAILED], keeping its message only. *)
Inductive PlanningFailure : Type :=
| ExecutorFailed (e : JSError)     (* getAIExecutor or executeStructuredPrompt threw *)
| NoPlanGenerated                  (* Error('No plan generated from AI response') *)
| PlanSyntaxError                  (* JSON.parse(planContent) threw *)
| PlanSchemaError                  (* ToolChainPlanSchema.parse(rawPlan) threw *)
| UnsafePlan (e : McpAdrError).    (* validatePlanSafety threw *)

(** What [generateToolChainPlan] throws: the plain error of [loadAIConfig],
    which is called outside the [try], or an [McpAdrError] with the code
    [AI_NOT_ENABLED] or [PLANNING_FAILED]. *)
Inductive PlanError : Type :=
| ConfigError (message : string)
| AINotEnabled
| PlanningFailed (cause : PlanningFailure).

(** [generateToolChainPlan(args)].  [ToolChainPlanSchema.parse] belongs to
    the schema library, which is not part of the sources: it is the
    parameter [schema_parse], [None] standing for its ZodError.  The state
    is the executor singleton and the world, as for [analyzeUserIntent]. *)
Definition generateToolChainPlan (schema_parse : JS.JSONValue -> option ToolChainPlan)
    (env : Env) (args : Args.t) (globalExecutor : option AIExecutor) (w : World)
  : outcome PlanError ToolChainPlan * option AIExecutor * World :=
  match loadAIConfig env with
  | Throw msg => (Throw (ConfigError msg), globalExecutor, w)
  | Return aiConfig =>
      if negb (isAIExecutionEnabled aiConfig) then (Throw AINotEnabled, globalExecutor, w)
      else
        match getAIExecutor env globalExecutor with
        | Throw e => (Throw (PlanningFailed (ExecutorFailed e)), globalExecutor, w)
        | Return executor =>
            match executeStructuredPrompt env (plan_user_prompt args) None
                    (plan_options aiConfig args) executor w with
            | (Throw e, ex', w') => (Throw (PlanningFailed (ExecutorFailed e)), Some ex', w')
            | (Return (_, raw), ex', w') =>
                let planContent := content raw in
                if negb (JS.truthy_string planContent)
                then (Throw (PlanningFailed NoPlanGenerated), Some ex', w')
                else
                  (* Parse and validate the AI-generated plan *)
                  match JS.JSON_parse planContent with
                  | None => (Throw (PlanningFailed PlanSyntaxError), Some ex', w')
                  | Some rawPlan =>
                      match schema_parse rawPlan with
                      | None => (Throw (PlanningFailed PlanSchemaError), Some ex', w')
                      | Some validatedPlan =>
                          (* Add safety checks *)
                          match validatePlanSafety validatedPlan (Args.constraints args) with
                          | Throw e => (Throw (PlanningFailed (UnsafePlan e)), Some ex', w')
                          | Return _ => (Return validatedPlan, Some ex', w')
                          end
                      end
                  end
            end
        end
  end.

(** * The properties the specification states *)

(** ** Plan validation: the rules in the specification's words *)

Inductive SafetyRule : Type :=
| MaxStepsRule | ExcludedToolsRule | UnknownToolsRule | DependencyRule | ConfidenceRule.

(** The fixed priority order. *)
Definition rule_priority : list SafetyRule :=
  [MaxStepsRule; ExcludedToolsRule; UnknownToolsRule; DependencyRule; ConfidenceRule].

Definition rule_code (r : SafetyRule) : string :=
  match r with
  | MaxStepsRule => "PLAN_TOO_COMPLEX"
  | ExcludedToolsRule => "EXCLUDED_TOOLS_USED"
  | UnknownToolsRule => "UNKNOWN_TOOLS"
  | DependencyRule => "INVALID_DEPENDENCY"
  | ConfidenceRule => "LOW_CONFIDENCE_PLAN"
  end.

(** Rules 2 to 5: some step names an excluded tool; some step names a tool
    outside the vocabulary; some [dependsOn] entry is no step's [stepId];
    the confidence is below 0.6. *)
Definition names_excluded_tool (plan : ToolChainPlan) (constraints : option Constraints) : bool :=
  match constraints with
  | Some {| excludeTools := Some ex |} =>
      existsb (fun step => JS.includes ex (toolName step)) (steps plan)
  | _ => false
  end.

Definition names_unknown_tool (plan : ToolChainPlan) : bool :=
  existsb (fun step => negb (JS.includes AVAILABLE_TOOLS (toolName step))) (steps plan).

Definition is_step_id (plan : ToolChainPlan) (depId : string) : bool :=
  existsb (fun step => String.eqb (stepId step) depId) (steps plan).

Definition has_dangling_dependency (plan : ToolChainPlan) : bool :=
  existsb (fun step =>
             match dependsOn step with
             | Some deps => existsb (fun depId => negb (is_step_id plan depId)) deps
             | None => false
             end) (steps plan).

(** The rules as the specification states them: rule 1 is violated when a
    [maxSteps] is supplied and the step count exceeds it. *)
Definition violated_as_stated (plan : ToolChainPlan) (constraints : option Constraints)
    (r : SafetyRule) : bool :=
  match r with
  | MaxStepsRule =>
      match constraints with
      | Some c => maxSteps c <? Z.of_nat (length (steps plan))
      | None => false
      end
  | ExcludedToolsRule => names_excluded_tool plan constraints
  | UnknownToolsRule => names_unknown_tool plan
  | DependencyRule => has_dangling_dependency plan
  | ConfidenceRule => PrimFloat.ltb (confidence plan) 0.6%float
  end.

(** The rules as the code applies them: rule 1 only counts for a
    [maxSteps] other than zero. *)
Definition violated (plan : ToolChainPlan) (constraints : option Constraints)
    (r : SafetyRule) : bool :=
  match r with
  | MaxStepsRule =>
      match constraints with
      | Some c => negb (maxSteps c =? 0) && (maxSteps c <? Z.of_nat (length (steps plan)))
      | None => false
      end
  | _ => violated_as_stated plan constraints r
  end.

(** The code of the error a call raised, if it raised one. *)
Definition raised_code (o : outcome McpAdrError unit) : option string :=
  match o with
  | Throw e => Some (error_code e)
  | Return _ => None
  end.

(** ** Provider configuration: required fields in the specification's words *)

Inductive ProviderKind : Type := Azure | OpenAI | OpenRouter.

(** The provider in force: anything but [azure] and [openai] is handled as
    [openrouter], in [loadAIConfig] and in [validateProviderConfig] alike. *)
Definition activeProvider (c : AIConfig) : ProviderKind :=
  if String.eqb (provider c) "azure" then Azure
  else if String.eqb (provider c) "openai" then OpenAI
  else OpenRouter.

Definition providerDisplayName (k : ProviderKind) : string :=
  match k with
  | Azure => "Azure AI Foundry"
  | OpenAI => "OpenAI"
  | OpenRouter => "OpenRouter"
  end.

(** The required fields of the active provider, each under the name of the
    environment variable it is read from, with whether it is non-empty. *)
Definition requiredFields (c : AIConfig) : list (string * bool) :=
  match activeProvider c with
  | Azure =>
      [("AZURE_OPENAI_ENDPOINT", JS.truthy_opt_string (azureEndpoint c));
       ("AZURE_OPENAI_API_KEY", JS.truthy_string (apiKey c));
       ("AZURE_OPENAI_DEPLOYMENT", JS.truthy_opt_string (azureDeployment c))]
  | OpenAI => [("OPENAI_API_KEY", JS.truthy_string (apiKey c))]
  | OpenRouter => [("OPENROUTER_API_KEY", JS.truthy_string (apiKey c))]
  end.

Definition missingRequiredFields (c : AIConfig) : list string :=
  List.map fst (List.filter (fun f : string * bool => negb (snd f)) (requiredFields c)).

(** ** Retries: the trace of a run in which every attempt fails *)

(** [retries] further attempts, the first of them being retry number [k]:
    before each one the executor waits [backoff_delay] of its number. *)
Fixpoint retry_trace (req : ChatRequest) (retries : nat) (k : Z) : list Event :=
  match retries with
  | O => []
  | S r => Sleep (backoff_delay k) :: Call req :: retry_trace req r (k + 1)
  end.

(** The first attempt followed by [maxRetries] retries. *)
Definition failing_trace (req : ChatRequest) (maxRetries : Z) : list Event :=
  Call req :: retry_trace req (Z.to_nat maxRetries) 1.

(** The delays before retries [k], [k+1], ..., [n] of them. *)
Fixpoint delays (n : nat) (k : Z) : list Z :=
  match n with
  | O => []
  | S m => backoff_delay k :: delays m (k + 1)
  end.

(** Every call to the provider fails, whatever the request. *)
Definition provider_always_fails (w : World) : Prop :=
  forall n req, exists e d, provider_reply w n req = (Failed e, d).

(** The model and the cache key [executePrompt] derives. *)
Definition derived_model (options : Options) (cfg : AIConfig) : string :=
  JS.or_string (default "" (opt_model options)) (defaultModel cfg).

Definition derived_key (prompt : string) (options : Options) (cfg : AIConfig) : string :=
  generateCacheKey prompt (derived_model options cfg) options.

(** The cache lookup [executePrompt] starts with, when caching is on. *)
Definition cache_check (prompt : string) (options : Options) (ex : AIExecutor) (w : World)
  : option AIExecutionResult * AIExecutor :=
  if cacheEnabled (config ex)
  then getCachedResult (derived_key prompt options (config ex)) (now w) ex
  else (None, ex).

(** ** Intent fallback *)

(** Some keyword of the table occurs in the lowercased request. *)
Definition keyword_matched (userRequest : string) : bool :=
  existsb (fun kt : string * list string =>
             JS.str_includes (JS.toLowerCase userRequest) (fst kt)) keywordMap.

(** A world whose provider is unreachable: every call fails at once. *)
Definition offline_world : World :=
  {| now := 1700000000000;
     provider_reply := fun n _ => (Failed (ProviderError "connection refused"), 0%N);
     events := [] |}.

(** An environment with an OpenRouter key, in the default full mode. *)
Definition keyed_env : Env := {[ "OPENROUTER_API_KEY" := "sk-or-test" ]}.

(** The same with six retries configured. *)
Definition six_retries_env : Env :=
  {[ "OPENROUTER_API_KEY" := "sk-or-test"; "AI_MAX_RETRIES" := "6" ]}.

(** The executor [new AIExecutor()] creates in that environment. *)
Definition six_retries_executor : AIExecutor :=
  initializeClient {| client := None; config := buildAIConfig six_retries_env; cache := ∅ |}.

(** An environment that selects the default provider in prompt-only mode
    and sets two numeric variables to zero. *)
Definition zeroed_env : Env :=
  {[ "EXECUTION_MODE" := "prompt-only";
     "AI_TEMPERATURE" := "0";
     "AI_MAX_RETRIES" := "0" ]}.

(** An azure configuration in full mode with nothing filled in. *)
Definition empty_azure_config : AIConfig :=
  {| provider := "azure"; apiKey := ""; baseURL := ""; defaultModel := "gpt-4";
     executionMode := "full"; siteUrl := None; siteName := None;
     timeout := 60000; maxRetries := 3; temperature := 0.1; maxTokens := 4000;
     cacheEnabled := true; cacheTTL := 3600;
     azureEndpoint := None; azureDeployment := None; azureApiVersion := None |}.

(** A one-step plan over the vocabulary, with a given confidence. *)
Definition one_step_plan (c : float) : ToolChainPlan :=
  {| planId := "plan-1";
     userIntent := "analyze the project";
     confidence := c;
     estimatedDuration := "2-5 minutes";
     steps := [ {| toolName := "analyze_project_ecosystem";
                   description := "analyze";
                   dependsOn := Some [];
                   stepId := "step1";
                   conditional := false;
                   retryable := true |} ];
     fallbackSteps := None;
     prerequisites := None;
     expectedOutputs := ["analysis"] |}.

(** Constraints that only set [maxSteps]. *)
Definition max_steps_only (n : Z) : Constraints :=
  {| maxSteps := n; timeLimit := None; excludeTools := None; prioritizeSpeed := false |}.

(** ** Cache hits *)

(** A world whose provider answers every request with the same text after
    a quarter of a second. *)
Definition echo_world : World :=
  {| now := 1700000000000;
     provider_reply := fun n req =>
       (Completed {| choice_content := Some "pong";
                     completion_model := req_model req;
                     completion_usage := None |}, 250%N);
     events := [] |}.

(** The executor [new AIExecutor()] creates with an OpenRouter key set. *)
Definition keyed_executor : AIExecutor :=
  initializeClient {| client := None; config := buildAIConfig keyed_env; cache := ∅ |}.

(** Time passing between two calls: the clock moves on by [d], nothing
    else happens. *)
Definition elapse (d : Z) (w : World) : World :=
  {| now := now w + d; provider_reply := provider_reply w; events := events w |}.

(** ** Cache pruning *)

(** What [setCachedResult] stores under the key at clock reading [t]. *)
Definition stored_entry (r : AIExecutionResult) (t : Z) (ex : AIExecutor) : CacheEntry :=
  {| result := r; expiry := t + cacheTTL (config ex) * 1000 |}.

(** A result to fill caches with. *)
Definition sample_result (text : string) : AIExecutionResult :=
  {| content := text; model := "anthropic/claude-3-sonnet"; usage := None;
     metadata := {| executionTime := 250; cached := false; retryCount := 0;
                    timestamp := 1000 |} |}.

(** An executor whose cache holds one hundred entries [k0] ... [k99], the
    entry [ki] expiring at clock reading [1000 + i]. *)
Definition full_executor : AIExecutor :=
  {| client := Some OpenRouterClient;
     config := buildAIConfig keyed_env;
     cache := list_to_map
                (List.map (fun i : nat =>
                             ("k" ++ JS.Z_to_string (Z.of_nat i),
                              {| result := sample_result "old";
                                 expiry := 1000 + Z.of_nat i |}))
                   (seq 0 100)) |}.

(** ** Cache key collisions *)

(** The first eleven characters of every serialized key: the opening
    brace, the quoted property name [prompt], the colon and the quote that
    opens the prompt. *)
Definition key_head : string :=
  "{" ++ JS.dquote ++ "prompt" ++ JS.dquote ++ ":" ++ JS.dquote.

(** Two prompts that agree on their first twenty characters. *)
Definition prompt_a : string := "Summarize this ADR: PostgreSQL for storage".
Definition prompt_b : string := "Summarize this ADR: Kafka for messaging".

(** A world whose provider answers with a text that depends on the prompt
    it was sent: the content of the last message of the request. *)
Definition answering_world : World :=
  {| now := 1700000000000;
     provider_reply := fun n req =>
       (Completed {| choice_content :=
                       Some ("Answer to: " ++ snd (List.last (req_messages req) ("", "")));
                     completion_model := req_model req;
                     completion_usage := None |}, 250%N);
     events := [] |}.

(** ** Structured extraction: the three forms of a response *)

Definition backtick : string := "`".

(** [s] wrapped in single backticks. *)
Definition inline_wrapped (s : string) : string := backtick ++ s ++ backtick.

(** [s] fenced in a json code block. *)
Definition fenced (s : string) : string := "```json" ++ NL ++ s ++ NL ++ "```".

Fixpoint contains_char (c : ascii) (s : string) : bool :=
  match s with
  | String x s' => Ascii.eqb c x || contains_char c s'
  | EmptyString => false
  end.

(** Somewhere in [s] the character [o] occurs with the character [c]
    somewhere after it. *)
Fixpoint span_from (o c : ascii) (s : string) : bool :=
  match s with
  | String x s' => (Ascii.eqb o x && contains_char c s') || span_from o c s'
  | EmptyString => false
  end.

(** The last character of a non-empty string is [c]. *)
Fixpoint ends_with (c : ascii) (s : string) : bool :=
  match s with
  | String x EmptyString => Ascii.eqb c x
  | String _ s' => ends_with c s'
  | EmptyString => false
  end.

(** The shape of a text that stands for a JSON object or array (it opens
    with a brace and closes with one, or opens with a bracket and closes
    with one), or that holds no brace pair and no bracket pair at all, as a
    number, a literal or a string without such pairs does. *)
Definition object_or_array_or_plain (t : string) : bool :=
  (JS.startsWith t "{" && ends_with "}" t)
  || (JS.startsWith t "[" && ends_with "]" t)
  || negb (span_from "{" "}" t || span_from "[" "]" t).

(** The JSON string whose content is a pair of braces: a quote, an opening
    brace, a closing brace, a quote. *)
Definition quoted_braces : string := JS.dquote ++ "{}" ++ JS.dquote.

(** What may stand after the capture of the code-block pattern: an
    optional line feed, the closing fence, and the end of the input. *)
Definition closing_fence : JS.regex :=
  JS.RSeq (JS.ROpt (JS.RChar LF)) (JS.RSeq (JS.RLit "```") JS.REnd).

(** The two alternatives of [jsonRegex]. *)
Definition brace_alt : JS.regex :=
  JS.RSeq (JS.RChar "{") (JS.RSeq (JS.RStar JS.any_char) (JS.RChar "}")).

Definition bracket_alt : JS.regex :=
  JS.RSeq (JS.RChar "[") (JS.RSeq (JS.RStar JS.any_char) (JS.RChar "]")).

(** ** Session health: the score in the specification's words *)

(** How often an action occurs among the previous actions. *)
Definition times_used (tool : string) (actions : list string) : nat :=
  length (List.filter (String.eqb tool) actions).

(** The distinct tools used more than three times. *)
Definition overused_tools (actions : list string) : list string :=
  List.filter (fun tool => (3 <? times_used tool actions)%nat) (array_of_set actions).

Definition long_conversation (ctx : option SessionContext) : bool :=
  match ctx with
  | Some {| conversationLength := Some n |} => 20 <? n
  | _ => false
  end.

(** [stuckOnTask] is set: it names a task, that is, it is a non-empty
    string. *)
Definition stuck (ctx : option SessionContext) : bool :=
  match ctx with
  | Some {| stuckOnTask := Some task |} => JS.truthy_string task
  | _ => false
  end.

Definition actions_of (ctx : option SessionContext) : list string :=
  match ctx with
  | Some {| previousActions := Some actions |} => actions
  | _ => []
  end.

(** The additive score as the specification states it. *)
Definition stated_riskScore (ctx : option SessionContext) (userRequest : string) : Z :=
  (if long_conversation ctx then 2 else 0)
  + Z.of_nat (length (overused_tools (actions_of ctx)))
  + Z.of_nat (length (foundKeywords (JS.toLowerCase userRequest)))
  + (if stuck ctx then 3 else 0).

(** No previous action is named like a property inherited from
    [Object.prototype]. *)
Definition plain_actions (ctx : option SessionContext) : Prop :=
  Forall (fun a => JS.includes Object_prototype_keys a = false) (actions_of ctx).

(** A session of 25 messages and nothing else, with or without a task it
    is stuck on. *)
Definition long_session (task : option string) : SessionContext :=
  {| conversationLength := Some 25;
     previousActions := None;
     confusionIndicators := None;
     lastSuccessfulAction := None;
     stuckOnTask := task |}.

(** A session that ran the action named [constructor] four times. *)
Definition looping_session : SessionContext :=
  {| conversationLength := None;
     previousActions := Some ["constructor"; "constructor"; "constructor"; "constructor"];
     confusionIndicators := None;
     lastSuccessfulAction := None;
     stuckOnTask := None |}.

(** * Further properties of the sources *)

(** ** Provider configuration *)

(** The use cases for which a cost-sensitive caller is given the cheapest
    model. *)
Definition economy_use_cases : list string :=
  ["quick-analysis"; "simple-tasks"; "cost-effective"].

(** An environment with an OpenRouter key and a token budget below the
    range [validateAIConfig] accepts. *)
Definition small_budget_env : Env :=
  {[ "OPENROUTER_API_KEY" := "sk-or-test"; "AI_MAX_TOKENS" := "50" ]}.

(** The executor [new AIExecutor()] creates in that environment. *)
Definition small_budget_executor : AIExecutor :=
  initializeClient {| client := None; config := buildAIConfig small_budget_env; cache := ∅ |}.

(** An environment that selects Azure in full mode; the endpoint is
    written with a trailing slash, and [AI_MODEL] is set as well. *)
Definition azure_env : Env :=
  {[ "AI_PROVIDER" := "azure";
     "AZURE_OPENAI_API_KEY" := "az-test";
     "AZURE_OPENAI_ENDPOINT" := "https://adr.openai.azure.com/";
     "AZURE_OPENAI_DEPLOYMENT" := "gpt-4-turbo";
     "AI_MODEL" := "gpt-4o" ]}.

(** ** The executor *)

(** [this.client !== null && isAIExecutionEnabled(this.config)]. *)
Definition available (ex : AIExecutor) : bool :=
  match client ex with Some _ => true | None => false end
  && isAIExecutionEnabled (config ex).

(** The options [executeStructuredPrompt] passes on to [executePrompt]. *)
Definition structured_options (options : Options) : Options :=
  set_field (OptTemperature (default 0.1%float (opt_temperature options)))
    (set_field (OptSystemPrompt
                  (JS.or_string (default "" (opt_systemPrompt options))
                     STRUCTURED_SYSTEM_PROMPT)) options).

(** An environment with an OpenRouter key and a negative retry count. *)
Definition negative_retries_env : Env :=
  {[ "OPENROUTER_API_KEY" := "sk-or-test"; "AI_MAX_RETRIES" := "-1" ]}.

Definition negative_retries_executor : AIExecutor :=
  initializeClient
    {| client := None; config := buildAIConfig negative_retries_env; cache := ∅ |}.

(** An environment with an OpenRouter key and caching switched off. *)
Definition uncached_env : Env :=
  {[ "OPENROUTER_API_KEY" := "sk-or-test"; "AI_CACHE_ENABLED" := "false" ]}.

Definition uncached_executor : AIExecutor :=
  initializeClient {| client := None; config := buildAIConfig uncached_env; cache := ∅ |}.

(** A world whose provider fails twice and then answers. *)
Definition flaky_world : World :=
  {| now := 1700000000000;
     provider_reply := fun n req =>
       if (n <? 2)%nat then (Failed (ProviderError "rate limited"), 100%N)
       else (Completed {| choice_content := Some "pong";
                          completion_model := req_model req;
                          completion_usage := None |}, 250%N);
     events := [] |}.

(** The executor and the world one second after a first execution of the
    prompt [ping] against the echoing provider. *)
Definition warm_executor : AIExecutor :=
  snd (fst (executePrompt keyed_env "ping" [] keyed_executor echo_world)).

Definition warm_world : World :=
  elapse 1000 (snd (executePrompt keyed_env "ping" [] keyed_executor echo_world)).

(** ** Plan validation *)

(** The plan in which every step depends on every step of the plan, itself
    included. *)
Definition with_all_dependencies (plan : ToolChainPlan) : ToolChainPlan :=
  {| planId := planId plan;
     userIntent := userIntent plan;
     confidence := confidence plan;
     estimatedDuration := estimatedDuration plan;
     steps :=
       List.map (fun step =>
                   {| toolName := toolName step;
                      description := description step;
                      dependsOn := Some (List.map stepId (steps plan));
                      stepId := stepId step;
                      conditional := conditional step;
                      retryable := retryable step |}) (steps plan);
     fallbackSteps := fallbackSteps plan;
     prerequisites := prerequisites plan;
     expectedOutputs := expectedOutputs plan |}.

(** The steps of a plan that name a tool outside the vocabulary, and those
    that name a tool of a given list. *)
Definition unknown_steps (plan : ToolChainPlan) : list ToolChainStep :=
  List.filter (fun step => negb (JS.includes AVAILABLE_TOOLS (toolName step))) (steps plan).

Definition excluded_steps (ex : list string) (plan : ToolChainPlan) : list ToolChainStep :=
  List.filter (fun step => JS.includes ex (toolName step)) (steps plan).

(** A plan of two steps over the vocabulary with the given tools, in which
    the second step depends on the first. *)
Definition two_step_plan (tool1 tool2 : string) : ToolChainPlan :=
  {| planId := "plan-2";
     userIntent := "analyze, then suggest";
     confidence := 0.9;
     estimatedDuration := "5 minutes";
     steps := [ {| toolName := tool1; description := "first";
                   dependsOn := None; stepId := "step1";
                   conditional := false; retryable := true |};
                {| toolName := tool2; description := "second";
                   dependsOn := Some ["step1"]; stepId := "step2";
                   conditional := false; retryable := true |} ];
     fallbackSteps := None;
     prerequisites := None;
     expectedOutputs := [] |}.

(** ** Session health *)

(** A session of the given length and nothing else. *)
Definition session_of_length (n : Z) : SessionContext :=
  {| conversationLength := Some n;
     previousActions := None;
     confusionIndicators := None;
     lastSuccessfulAction := None;
     stuckOnTask := None |}.

(** The signals explain the score: one recommendation per indicator, a
    score that is not negative, and no indicator exactly when the score is
    zero. *)
Definition well_explained (s : Signals) : Prop :=
  length (indicators s) = length (advice s)
  /\ 0 <= riskScore s
  /\ (indicators s = [] <-> riskScore s = 0).

(** ** Intent analysis *)

(** The one request [analyzeUserIntent] sends to the provider. *)
Definition intent_request (userRequest : string) : ChatRequest :=
  {| req_model := "openai/gpt-4o-mini";
     req_messages := [("system", INTENT_SYSTEM_PROMPT); ("user", intent_prompt userRequest)];
     req_temperature := 0.1;
     req_max_tokens := 500 |}.

(** The categories of the keyword fallback, each with its complexity. *)
Definition fallback_categories : list (string * Complexity) :=
  [("generation", moderate); ("troubleshooting", complex);
   ("deployment", complex); ("analysis", simple)].

(** A well-formed answer to an intent request. *)
Definition intent_answer : string :=
  "{" ++ JS.dquote ++ "intent" ++ JS.dquote ++ ": " ++ JS.dquote ++ "review" ++ JS.dquote ++ "}".

(** A world whose provider gives that answer fenced in a code block. *)
Definition fencing_world : World :=
  {| now := 1700000000000;
     provider_reply := fun n req =>
       (Completed {| choice_content := Some (fenced intent_answer);
                     completion_model := req_model req;
                     completion_usage := None |}, 250%N);
     events := [] |}.

(** A world whose provider gives that answer as it is. *)
Definition json_world : World :=
  {| now := 1700000000000;
     provider_reply := fun n req =>
       (Completed {| choice_content := Some intent_answer;
                     completion_model := req_model req;
                     completion_usage := None |}, 250%N);
     events := [] |}.

(** ** Plan generation *)

(** The one request [generateToolChainPlan] sends to the provider. *)
Definition plan_request (aiConfig : AIConfig) (args : Args.t) : ChatRequest :=
  {| req_model := "anthropic/claude-3-sonnet";
     req_messages := [("system", plan_system_prompt args); ("user", plan_user_prompt args)];
     req_temperature := 0.1;
     req_max_tokens := maxTokens aiConfig |}.

(** Arguments that only carry a request, for a project in the current
    directory. *)
Definition request_only (request : string) : Args.t :=
  {| Args.userRequest := request;
     Args.projectContext :=
       {| Args.projectPath := "."; Args.adrDirectory := "docs/adrs";
          Args.todoPath := "TODO.md"; Args.hasADRs := None; Args.hasTODO := None;
          Args.projectType := None |};
     Args.constraints := None;
     Args.customInstructions := None;
     Args.sessionContext := None |}.

(** A schema parser that accepts every value as the same two-step plan. *)
Definition accept_as_two_steps (v : JS.JSONValue) : option ToolChainPlan :=
  Some (two_step_plan "analyze_project_ecosystem" "suggest_adrs").

(** ** Edge cases *)

(** A world whose provider answers without any content. *)
Definition silent_world : World :=
  {| now := 1700000000000;
     provider_reply := fun n req =>
       (Completed {| choice_content := None;
                     completion_model := req_model req;
                     completion_usage := None |}, 250%N);
     events := [] |}.

(** A plan without steps. *)
Definition empty_plan (c : float) : ToolChainPlan :=
  {| planId := "plan-0"; userIntent := ""; confidence := c; estimatedDuration := "";
     steps := []; fallbackSteps := None; prerequisites := None; expectedOutputs := [] |}.

(** * Proofs *)

(** ** Plan validation *)

Section PlanSafety.

Variable plan : ToolChainPlan.
Variable constraints : option Constraints.

Lemma filter_nonempty {A : Type} (p : A -> bool) (l : list A) :
  (0 <? length (List.filter p l))%nat = existsb p l.
Proof.
  induction l as [|x l IH]; simpl; [reflexivity|].
  destruct (p x); simpl; [reflexivity | exact IH].
Qed.

Lemma step_id_set (depId : string) :
  bool_decide (depId ∈ (list_to_set (List.map stepId (steps plan)) : gset string))
  = is_step_id plan depId.
Proof.
  unfold is_step_id. generalize (steps plan) as l.
  induction l as [|x l IH]; simpl.
  - apply bool_decide_eq_false. set_solver.
  - destruct (String.eqb_spec (stepId x) depId) as [->|Hne]; simpl.
    + apply bool_decide_eq_true. set_solver.
    + rewrite <- IH. apply bool_decide_ext. set_solver.
Qed.

Lemma existsb_congr {A : Type} (p q : A -> bool) (l : list A) :
  (forall x, p x = q x) -> existsb p l = existsb q l.
Proof.
  intros H. induction l as [|x l IH]; simpl; [reflexivity|].
  now rewrite H, IH.
Qed.

Lemma find_none_existsb {A : Type} (p : A -> bool) (l : list A) :
  List.find p l = None -> existsb p l = false.
Proof.
  induction l as [|x l IH]; simpl; [reflexivity|].
  destruct (p x); [discriminate | exact IH].
Qed.

Lemma find_some_existsb {A : Type} (p : A -> bool) (l : list A) (x : A) :
  List.find p l = Some x -> existsb p l = true.
Proof.
  induction l as [|y l IH]; simpl; [discriminate|].
  destruct (p y); [reflexivity | exact IH].
Qed.

(** The dependency loops raise exactly when some dependency dangles, and
    what they raise is an [InvalidDependency]. *)
Lemma check_dependencies_spec (l : list ToolChainStep) :
  match check_dependencies (list_to_set (List.map stepId (steps plan))) l with
  | Some e => error_code e = "INVALID_DEPENDENCY"
              /\ existsb (fun step =>
                            match dependsOn step with
                            | Some deps => existsb (fun d => negb (is_step_id plan d)) deps
                            | None => false
                            end) l = true
  | None => existsb (fun step =>
                       match dependsOn step with
                       | Some deps => existsb (fun d => negb (is_step_id plan d)) deps
                       | None => false
                       end) l = false
  end.
Proof.
  induction l as [|x l IH]; simpl; [reflexivity|].
  unfold first_missing_dep.
  destruct (dependsOn x) as [deps|]; simpl.
  - destruct (List.find _ deps) as [d|] eqn:Hf.
    + split; [reflexivity|].
      apply find_some_existsb in Hf.
      rewrite (existsb_congr _ (fun d => negb (is_step_id plan d))) in Hf
        by (intros d'; now rewrite step_id_set).
      rewrite Hf. reflexivity.
    + apply find_none_existsb in Hf.
      rewrite (existsb_congr _ (fun d => negb (is_step_id plan d))) in Hf
        by (intros d'; now rewrite step_id_set).
      rewrite Hf. simpl. exact IH.
  - exact IH.
Qed.

(** The validator raises the code of the first rule, in priority order,
    that [violated] holds of, and returns when there is none. *)
Lemma first_violation_unfold (v : SafetyRule -> bool) :
  List.find v rule_priority
  = if v MaxStepsRule then Some MaxStepsRule
    else if v ExcludedToolsRule then Some ExcludedToolsRule
    else if v UnknownToolsRule then Some UnknownToolsRule
    else if v DependencyRule then Some DependencyRule
    else if v ConfidenceRule then Some ConfidenceRule
    else None.
Proof. reflexivity. Qed.

Lemma validatePlanSafety_first_violation :
  raised_code (validatePlanSafety plan constraints)
  = option_map rule_code (List.find (violated plan constraints) rule_priority).
Proof.
  rewrite first_violation_unfold. unfold validatePlanSafety.
  assert (H1 : match constraints with
               | Some c => JS.truthy_Z (maxSteps c)
                           && (maxSteps c <? Z.of_nat (length (steps plan)))
               | None => false
               end = violated plan constraints MaxStepsRule).
  { destruct constraints; reflexivity. }
  rewrite H1. destruct (violated plan constraints MaxStepsRule); [reflexivity|].
  assert (H2 : (0 <? length
                  match constraints with
                  | Some {| excludeTools := Some ex |} =>
                      List.filter (fun step => JS.includes ex (toolName step)) (steps plan)
                  | _ => []
                  end)%nat = violated plan constraints ExcludedToolsRule).
  { simpl. unfold names_excluded_tool.
    destruct constraints as [[ms tl [ex|] ps]|]; try reflexivity.
    apply filter_nonempty. }
  rewrite H2. destruct (violated plan constraints ExcludedToolsRule); [reflexivity|].
  rewrite filter_nonempty.
  change (existsb _ (steps plan)) with (violated plan constraints UnknownToolsRule).
  destruct (violated plan constraints UnknownToolsRule); [reflexivity|].
  pose proof (check_dependencies_spec (steps plan)) as Hd.
  change (existsb _ (steps plan)) with (violated plan constraints DependencyRule) in Hd.
  destruct (check_dependencies _ (steps plan)) as [e|].
  - destruct Hd as [Hc Hv]. rewrite Hv. simpl. now rewrite Hc.
  - rewrite Hd.
    change (PrimFloat.ltb (confidence plan) 0.6) with (violated plan constraints ConfidenceRule).
    destruct (violated plan constraints ConfidenceRule); reflexivity.
Qed.

Lemma validatePlanSafety_returns_iff :
  validatePlanSafety plan constraints = Return tt
  <-> forall r, violated plan constraints r = false.
Proof.
  pose proof validatePlanSafety_first_violation as H.
  split.
  - intros Hr. rewrite Hr, first_violation_unfold in H. cbn [raised_code] in H.
    intros r.
    destruct (violated plan constraints MaxStepsRule) eqn:E1; [discriminate|].
    destruct (violated plan constraints ExcludedToolsRule) eqn:E2; [discriminate|].
    destruct (violated plan constraints UnknownToolsRule) eqn:E3; [discriminate|].
    destruct (violated plan constraints DependencyRule) eqn:E4; [discriminate|].
    destruct (violated plan constraints ConfidenceRule) eqn:E5; [discriminate|].
    destruct r; assumption.
  - intros Hall. rewrite first_violation_unfold, !Hall in H.
    destruct (validatePlanSafety plan constraints) as [[]|e]; [reflexivity | discriminate].
Qed.

End PlanSafety.

Lemma rule_codes_distinct : NoDup (List.map rule_code rule_priority).
Proof.
  unfold rule_priority. simpl.
  repeat (apply NoDup_cons; split; [set_solver|]). apply NoDup_nil. constructor.
Qed.

(** C1, as stated, fails: with [maxSteps = 0] supplied, a one-step plan
    exceeds the maximum, so rule 1 is the first violated rule, yet
    [validatePlanSafety] returns normally. *)
Lemma validatePlanSafety_zero_maxSteps :
  List.find (violated_as_stated (one_step_plan 0.9) (Some (max_steps_only 0))) rule_priority
    = Some MaxStepsRule
  /\ validatePlanSafety (one_step_plan 0.9) (Some (max_steps_only 0)) = Return tt.
Proof. split; reflexivity. Qed.

(** C1 (amended): for every plan and optional constraints,
    [validatePlanSafety] raises the error code of the first rule violated in
    the fixed priority order (1) step count above a supplied non-zero
    [maxSteps], (2) a step naming an excluded tool, (3) a step naming a tool
    outside the 25-tool vocabulary, (4) a [dependsOn] entry that is no
    step's [stepId], (5) confidence below 0.6; it returns normally iff no
    rule is violated; the five codes are distinct; and a plan whose only
    potential violation is its confidence is rejected at 0.59 and accepted
    at 0.60. *)
Theorem validatePlanSafety_priority_order :
  forall (plan : ToolChainPlan) (constraints : option Constraints),
    raised_code (validatePlanSafety plan constraints)
      = option_map rule_code (List.find (violated plan constraints) rule_priority)
    /\ (validatePlanSafety plan constraints = Return tt
        <-> forall r, violated plan constraints r = false)
    /\ NoDup (List.map rule_code rule_priority)
    /\ length AVAILABLE_TOOLS = 25%nat
    /\ ((forall r, r <> ConfidenceRule -> violated plan constraints r = false) ->
        (confidence plan = 0.59%float ->
         raised_code (validatePlanSafety plan constraints) = Some "LOW_CONFIDENCE_PLAN")
        /\ (confidence plan = 0.6%float ->
            validatePlanSafety plan constraints = Return tt)).
Proof.
  intros plan constraints.
  split; [apply validatePlanSafety_first_violation|].
  split; [apply validatePlanSafety_returns_iff|].
  split; [apply rule_codes_distinct|].
  split; [reflexivity|].
  intros Hothers. split; intros Hc.
  - rewrite validatePlanSafety_first_violation, first_violation_unfold.
    rewrite !Hothers by discriminate.
    simpl. rewrite Hc. reflexivity.
  - apply validatePlanSafety_returns_iff. intros r.
    destruct r; try (apply Hothers; discriminate).
    simpl. rewrite Hc. reflexivity.
Qed.

Lemma validatePlanSafety_priority_order_witness :
  raised_code (validatePlanSafety (one_step_plan 0.59) None) = Some "LOW_CONFIDENCE_PLAN"
  /\ validatePlanSafety (one_step_plan 0.6) None = Return tt.
Proof.
  split.
  - refine (proj1 (proj2 (proj2 (proj2 (proj2
              (validatePlanSafety_priority_order (one_step_plan 0.59) None)))) _) eq_refl).
    intros r Hr. destruct r; first [reflexivity | now contradict Hr].
  - refine (proj2 (proj2 (proj2 (proj2 (proj2
              (validatePlanSafety_priority_order (one_step_plan 0.6) None)))) _) eq_refl).
    intros r Hr. destruct r; first [reflexivity | now contradict Hr].
Defined.

(** ** Provider configuration *)

Lemma validateProviderConfig_not_full (c : AIConfig) :
  executionMode c <> "full" -> validateProviderConfig c = Return tt.
Proof.
  intros H. unfold validateProviderConfig.
  destruct (String.eqb_spec (executionMode c) "full"); [contradiction | reflexivity].
Qed.

(** What the validator does, case by case on the six tests it makes. *)
Lemma validateProviderConfig_cases (c : AIConfig) :
  ((exists msg, validateProviderConfig c = Throw msg)
   <-> String.eqb (executionMode c) "full" = true /\ missingRequiredFields c <> [])
  /\ (forall msg, validateProviderConfig c = Throw msg ->
        Forall (fun f => JS.str_includes msg f = true) (missingRequiredFields c)
        /\ JS.str_includes msg (providerDisplayName (activeProvider c)) = true
        /\ JS.str_includes msg "to use a different provider" = true
        /\ JS.str_includes msg "EXECUTION_MODE=prompt-only" = true).
Proof.
  unfold validateProviderConfig, missingRequiredFields, requiredFields,
    activeProvider, missingAzureVars.
  destruct (String.eqb (executionMode c) "full");
    destruct (String.eqb (provider c) "azure");
    destruct (String.eqb (provider c) "openai");
    destruct (JS.truthy_opt_string (azureEndpoint c));
    destruct (JS.truthy_string (apiKey c));
    destruct (JS.truthy_opt_string (azureDeployment c));
    cbn [negb length app Nat.ltb Nat.leb List.filter List.map fst snd providerDisplayName];
    (split;
     [ split;
       [ intros [msg Hm]; first [discriminate Hm | split; [reflexivity | discriminate]]
       | intros [Hf Hne]; first [discriminate Hf | now contradict Hne | eexists; reflexivity] ]
     | intros msg Hm; first [discriminate Hm | injection Hm as <-];
       (split; [ repeat (constructor; [vm_compute; reflexivity|]); try constructor
               | split; [|split]; vm_compute; reflexivity ]) ]).
Qed.

(** C4: [validateProviderConfig] throws iff the execution mode is [full]
    and some required field of the active provider is empty; the one
    message it throws names every missing required field, names the
    provider, and suggests another provider or prompt-only mode; in
    prompt-only mode it never throws, whatever the credentials; and
    [loadAIConfig] throws exactly what the validator throws on the
    configuration it built. *)
Theorem validateProviderConfig_enumerates_missing :
  forall c : AIConfig,
    ((exists msg, validateProviderConfig c = Throw msg)
     <-> executionMode c = "full" /\ missingRequiredFields c <> [])
    /\ (forall msg, validateProviderConfig c = Throw msg ->
          Forall (fun f => JS.str_includes msg f = true) (missingRequiredFields c)
          /\ JS.str_includes msg (providerDisplayName (activeProvider c)) = true
          /\ JS.str_includes msg "to use a different provider" = true
          /\ JS.str_includes msg "EXECUTION_MODE=prompt-only" = true)
    /\ (executionMode c = "prompt-only" -> validateProviderConfig c = Return tt)
    /\ (forall env, c = buildAIConfig env ->
          (forall msg, loadAIConfig env = Throw msg <-> validateProviderConfig c = Throw msg)
          /\ (executionMode c = "prompt-only" -> loadAIConfig env = Return c)).
Proof.
  intros c. destruct (validateProviderConfig_cases c) as [Hiff Hmsg].
  split; [|split; [exact Hmsg|split]].
  - rewrite Hiff. now rewrite String.eqb_eq.
  - intros Hm. apply validateProviderConfig_not_full. rewrite Hm. discriminate.
  - intros env ->. unfold loadAIConfig. split.
    + intros msg. destruct (validateProviderConfig (buildAIConfig env)) as [[]|m].
      * split; discriminate.
      * split; intros H; injection H as ->; reflexivity.
    + intros Hm. rewrite validateProviderConfig_not_full; [reflexivity|].
      rewrite Hm. discriminate.
Qed.

Lemma validateProviderConfig_enumerates_missing_witness :
  (exists msg, validateProviderConfig empty_azure_config = Throw msg
               /\ Forall (fun f => JS.str_includes msg f = true)
                    ["AZURE_OPENAI_ENDPOINT"; "AZURE_OPENAI_API_KEY"; "AZURE_OPENAI_DEPLOYMENT"])
  /\ loadAIConfig zeroed_env = Return (buildAIConfig zeroed_env).
Proof.
  split.
  - destruct (proj2 (proj1 (validateProviderConfig_enumerates_missing empty_azure_config))
                (conj eq_refl (fun H => eq_ind (missingRequiredFields empty_azure_config)
                                          (fun l => match l with [] => False | _ => True end)
                                          I [] H))) as [msg Hmsg].
    exists msg. split; [exact Hmsg|].
    exact (proj1 (proj1 (proj2 (validateProviderConfig_enumerates_missing empty_azure_config))
                    msg Hmsg)).
  - exact (proj2 (proj2 (proj2 (proj2
             (validateProviderConfig_enumerates_missing (buildAIConfig zeroed_env))))
             zeroed_env eq_refl) eq_refl).
Defined.

(** ** Zero-valued numeric settings *)

(** [buildAIConfig] reads the environment through lookups only, so
    setting a numeric variable to the text [0] and removing the variable
    give the same configuration. *)
Lemma buildAIConfig_zero_temperature (env : Env) :
  buildAIConfig (<["AI_TEMPERATURE" := "0"]> env)
  = buildAIConfig (delete "AI_TEMPERATURE" env).
Proof.
  unfold buildAIConfig, env_int_or, env_float_or, env_or.
  rewrite !lookup_insert, !lookup_delete. reflexivity.
Qed.

Lemma buildAIConfig_zero_maxRetries (env : Env) :
  buildAIConfig (<["AI_MAX_RETRIES" := "0"]> env)
  = buildAIConfig (delete "AI_MAX_RETRIES" env).
Proof.
  unfold buildAIConfig, env_int_or, env_float_or, env_or.
  rewrite !lookup_insert, !lookup_delete. reflexivity.
Qed.

Lemma env_float_or_nonzero (env : Env) (name : string) (d : float) :
  PrimFloat.eqb d 0 = false -> PrimFloat.eqb (env_float_or env name d) 0 = false.
Proof.
  intros Hd. unfold env_float_or, JS.truthy_float.
  destruct (PrimFloat.eqb (JS.parseFloat (env_or env name "")) 0) eqn:E; simpl; auto.
  destruct (PrimFloat.is_nan _); simpl; auto.
Qed.

Lemma env_int_or_nonzero (env : Env) (name : string) (d : Z) :
  d <> 0 -> env_int_or env name d <> 0.
Proof.
  intros Hd. unfold env_int_or, JS.truthy_Z.
  destruct (JS.parseInt _) as [n|]; [|exact Hd].
  destruct (Z.eqb_spec n 0); simpl; auto.
Qed.

Lemma buildAIConfig_temperature (env : Env) :
  temperature (buildAIConfig env) = env_float_or env "AI_TEMPERATURE" 0.1%float.
Proof.
  unfold buildAIConfig.
  destruct (String.eqb _ "azure"); [|destruct (String.eqb _ "openai")]; reflexivity.
Qed.

Lemma buildAIConfig_maxRetries (env : Env) :
  maxRetries (buildAIConfig env) = env_int_or env "AI_MAX_RETRIES" 3.
Proof.
  unfold buildAIConfig.
  destruct (String.eqb _ "azure"); [|destruct (String.eqb _ "openai")]; reflexivity.
Qed.

(** C10: a numeric environment variable set to zero is indistinguishable
    from an unset one.  With [AI_TEMPERATURE] set to the text [0],
    [loadAIConfig] yields the default temperature 0.1, and with
    [AI_MAX_RETRIES] set to [0] it yields 3 retries; setting either
    variable to [0] loads exactly what removing it loads; and no
    environment gives a configuration with zero temperature or zero
    retries. *)
Theorem zero_valued_settings_take_defaults :
  forall env : Env,
    (env !! "AI_TEMPERATURE" = Some "0" ->
       temperature (buildAIConfig env) = 0.1%float)
    /\ (env !! "AI_MAX_RETRIES" = Some "0" -> maxRetries (buildAIConfig env) = 3)
    /\ loadAIConfig (<["AI_TEMPERATURE" := "0"]> env)
       = loadAIConfig (delete "AI_TEMPERATURE" env)
    /\ loadAIConfig (<["AI_MAX_RETRIES" := "0"]> env)
       = loadAIConfig (delete "AI_MAX_RETRIES" env)
    /\ (forall c, loadAIConfig env = Return c ->
          c = buildAIConfig env
          /\ PrimFloat.eqb (temperature c) 0 = false
          /\ maxRetries c <> 0).
Proof.
  intros env. repeat split.
  - intros H. rewrite buildAIConfig_temperature.
    unfold env_float_or, env_or. rewrite H. reflexivity.
  - intros H. rewrite buildAIConfig_maxRetries.
    unfold env_int_or, env_or. rewrite H. reflexivity.
  - unfold loadAIConfig. now rewrite buildAIConfig_zero_temperature.
  - unfold loadAIConfig. now rewrite buildAIConfig_zero_maxRetries.
  - unfold loadAIConfig in H.
    destruct (validateProviderConfig (buildAIConfig env)); congruence.
  - unfold loadAIConfig in H.
    destruct (validateProviderConfig (buildAIConfig env)); [|discriminate].
    injection H as <-. rewrite buildAIConfig_temperature.
    now apply env_float_or_nonzero.
  - unfold loadAIConfig in H.
    destruct (validateProviderConfig (buildAIConfig env)); [|discriminate].
    injection H as <-. rewrite buildAIConfig_maxRetries.
    now apply env_int_or_nonzero.
Qed.

Lemma zero_valued_settings_take_defaults_witness :
  loadAIConfig zeroed_env = Return (buildAIConfig zeroed_env)
  /\ temperature (buildAIConfig zeroed_env) = 0.1%float
  /\ maxRetries (buildAIConfig zeroed_env) = 3.
Proof.
  split; [reflexivity|]. split.
  - exact (proj1 (zero_valued_settings_take_defaults zeroed_env) eq_refl).
  - exact (proj1 (proj2 (zero_valued_settings_take_defaults zeroed_env)) eq_refl).
Defined.

(** ** Intent fallback *)

Lemma array_of_set_acc (l acc : list string) :
  NoDup acc ->
  NoDup (fold_left (fun a x => if JS.includes a x then a else (a ++ [x])%list) l acc).
Proof.
  revert acc. induction l as [|x l IH]; intros acc Hacc; simpl; [exact Hacc|].
  apply IH. destruct (JS.includes acc x) eqn:E; [exact Hacc|].
  apply NoDup_app. split; [exact Hacc|]. split.
  - intros y Hy Hx. apply list_elem_of_singleton in Hx. subst y.
    unfold JS.includes in E.
    assert (existsb (String.eqb x) acc = true) as Ht; [|congruence].
    apply existsb_exists. exists x. split; [now apply list_elem_of_In | apply String.eqb_refl].
  - apply NoDup_singleton.
Qed.

Lemma array_of_set_NoDup (l : list string) : NoDup (array_of_set l).
Proof. apply array_of_set_acc. constructor. Qed.

Lemma array_of_set_subset (l acc : list string) (x : string) :
  x ∈ fold_left (fun a y => if JS.includes a y then a else (a ++ [y])%list) l acc ->
  x ∈ acc \/ x ∈ l.
Proof.
  revert acc. induction l as [|y l IH]; intros acc H; simpl in H; [now left|].
  apply IH in H. destruct H as [H|H]; [|right; now right].
  destruct (JS.includes acc y); [now left|].
  apply elem_of_app in H. destruct H as [H|H]; [now left|].
  apply list_elem_of_singleton in H. subst. right. now left.
Qed.

Lemma matched_nonempty (request : string) (km : list (string * list string)) :
  Forall (fun kt => snd kt <> []) km ->
  (0 <? length (flat_map (fun kt : string * list string =>
                            if JS.str_includes request (fst kt) then snd kt else []) km))%nat
  = existsb (fun kt : string * list string => JS.str_includes request (fst kt)) km.
Proof.
  induction 1 as [|kt km Hne _ IH]; simpl; [reflexivity|].
  rewrite length_app. destruct (JS.str_includes request (fst kt)); simpl.
  - destruct (snd kt); [contradiction | reflexivity].
  - exact IH.
Qed.

Lemma keywordMap_nonempty : Forall (fun kt : string * list string => snd kt <> []) keywordMap.
Proof. unfold keywordMap. repeat constructor; discriminate. Qed.

Lemma fallback_suggestedTools (userRequest : string) :
  Intent.suggestedTools (fallbackIntentAnalysis userRequest)
  = firstn 5 (array_of_set (matchedTools (JS.toLowerCase userRequest))).
Proof.
  unfold fallbackIntentAnalysis.
  repeat match goal with |- context [if ?b then _ else _] => destruct b end; reflexivity.
Qed.

Lemma fallback_confidence (userRequest : string) :
  Intent.confidence (fallbackIntentAnalysis userRequest)
  = if keyword_matched userRequest then 0.7%float else 0.3%float.
Proof.
  unfold keyword_matched. rewrite <- (matched_nonempty _ _ keywordMap_nonempty).
  fold (matchedTools (JS.toLowerCase userRequest)).
  unfold fallbackIntentAnalysis.
  destruct (JS.str_includes _ "generate" || _);
    [|destruct (JS.str_includes _ "troubleshoot" || _);
      [|destruct (JS.str_includes _ "deploy" || _)]]; reflexivity.
Qed.

(** C8: when AI execution is disabled for the loaded configuration, or the
    executor cannot be obtained, or the structured prompt fails,
    [analyzeUserIntent] resolves to [fallbackIntentAnalysis] of the
    request.  The fallback's [suggestedTools] have no duplicates, are at
    most five, and all come from the matched keywords; its confidence is
    0.7 when some keyword matched and 0.3 otherwise.  For the request
    "analyze this project" the category is [analysis], the tools contain
    [analyze_project_ecosystem], and the confidence is 0.7. *)
Theorem analyzeUserIntent_keyword_fallback :
  forall (env : Env) (userRequest : string) (g : option AIExecutor) (w : World),
    let fb := fallbackIntentAnalysis userRequest in
    (forall cfg, loadAIConfig env = Return cfg -> isAIExecutionEnabled cfg = false ->
       analyzeUserIntent env userRequest g w = (Return (KeywordFallback fb), g, w))
    /\ (forall cfg e, loadAIConfig env = Return cfg -> isAIExecutionEnabled cfg = true ->
          getAIExecutor env g = Throw e ->
          analyzeUserIntent env userRequest g w = (Return (KeywordFallback fb), g, w))
    /\ (forall cfg ex e ex' w',
          loadAIConfig env = Return cfg -> isAIExecutionEnabled cfg = true ->
          getAIExecutor env g = Return ex ->
          executeStructuredPrompt env (intent_prompt userRequest) None intent_options ex w
            = (Throw e, ex', w') ->
          analyzeUserIntent env userRequest g w = (Return (KeywordFallback fb), Some ex', w'))
    /\ NoDup (Intent.suggestedTools fb)
    /\ (length (Intent.suggestedTools fb) <= 5)%nat
    /\ (forall t, t ∈ Intent.suggestedTools fb -> t ∈ matchedTools (JS.toLowerCase userRequest))
    /\ Intent.confidence fb = (if keyword_matched userRequest then 0.7%float else 0.3%float)
    /\ (userRequest = "analyze this project" ->
        Intent.category fb = "analysis"
        /\ "analyze_project_ecosystem" ∈ Intent.suggestedTools fb
        /\ Intent.confidence fb = 0.7%float).
Proof.
  intros env userRequest g w fb.
  split; [|split; [|split]].
  - intros cfg Hl Hd. unfold analyzeUserIntent. rewrite Hl, Hd. reflexivity.
  - intros cfg e Hl He Hg. unfold analyzeUserIntent. rewrite Hl, He, Hg. reflexivity.
  - intros cfg ex e ex' w' Hl He Hg Hx. unfold analyzeUserIntent.
    rewrite Hl, He, Hg, Hx. reflexivity.
  - subst fb. rewrite !fallback_suggestedTools, fallback_confidence.
    split; [|split; [|split; [|split]]].
    + eapply sublist_NoDup; [apply array_of_set_NoDup | apply sublist_take].
    + rewrite length_take. lia.
    + intros t Ht. apply elem_of_take in Ht as (i & Ht & _).
      apply list_elem_of_lookup_2 in Ht.
      apply array_of_set_subset in Ht. destruct Ht as [Ht|Ht]; [|exact Ht].
      now apply not_elem_of_nil in Ht.
    + reflexivity.
    + intros ->. vm_compute. split; [reflexivity|]. split; [|reflexivity].
      constructor.
Qed.

Lemma analyzeUserIntent_keyword_fallback_witness :
  analyzeUserIntent zeroed_env "analyze this project" None offline_world
    = (Return (KeywordFallback (fallbackIntentAnalysis "analyze this project")),
       None, offline_world)
  /\ (exists ex' w',
        analyzeUserIntent keyed_env "analyze this project" None offline_world
        = (Return (KeywordFallback (fallbackIntentAnalysis "analyze this project")),
           Some ex', w'))
  /\ Intent.category (fallbackIntentAnalysis "analyze this project") = "analysis"
  /\ "analyze_project_ecosystem"
       ∈ Intent.suggestedTools (fallbackIntentAnalysis "analyze this project")
  /\ Intent.confidence (fallbackIntentAnalysis "analyze this project") = 0.7%float.
Proof.
  split; [|split].
  - exact (proj1 (analyzeUserIntent_keyword_fallback zeroed_env "analyze this project"
                    None offline_world)
             (buildAIConfig zeroed_env) eq_refl eq_refl).
  - destruct (newAIExecutor keyed_env None) as [ex|e] eqn:Hex; [|discriminate Hex].
    destruct (executeStructuredPrompt keyed_env (intent_prompt "analyze this project")
                None intent_options ex offline_world) as [[[r|e] ex'] w'] eqn:Hx.
    + exfalso. revert Hx. injection Hex as <-. vm_compute. discriminate.
    + exists ex', w'.
      exact (proj1 (proj2 (proj2 (analyzeUserIntent_keyword_fallback keyed_env
                                    "analyze this project" None offline_world)))
               (buildAIConfig keyed_env) ex e ex' w' eq_refl eq_refl Hex Hx).
  - exact (proj2 (proj2 (proj2 (proj2 (proj2 (proj2 (proj2
             (analyzeUserIntent_keyword_fallback zeroed_env "analyze this project"
                None offline_world))))))) eq_refl).
Defined.

(** ** Retries and backoff *)

Lemma call_provider_events (req : ChatRequest) (w : World) :
  events (snd (call_provider req w)) = (events w ++ [Call req])%list
  /\ provider_reply (snd (call_provider req w)) = provider_reply w.
Proof.
  unfold call_provider. destruct (provider_reply w _ req). split; reflexivity.
Qed.

Lemma calls_app (w : World) (l : list Event) (evs : list Event) :
  events w = (evs ++ l)%list ->
  calls w = (flat_map (fun ev => match ev with Call r => [r] | Sleep _ => [] end) evs
             ++ flat_map (fun ev => match ev with Call r => [r] | Sleep _ => [] end) l)%list.
Proof. unfold calls. intros ->. apply flat_map_app. Qed.

Section RetryLoop.

Variables (startTime : Z) (prompt model cacheKey : string) (options : Options).

(** The fuel [executePrompt] passes is enough: the loop never runs dry. *)
Lemma retry_loop_fuel (fuel : nat) (rc : Z) (ex : AIExecutor) (w : World) :
  (Z.to_nat (maxRetries (config ex) + 1 - rc) <= fuel)%nat ->
  retry_loop fuel rc startTime prompt model cacheKey options ex w <> None.
Proof.
  revert rc w. induction fuel as [|fuel IH]; intros rc w Hf; simpl.
  - destruct (Z.leb_spec rc (maxRetries (config ex))); [lia | discriminate].
  - destruct (Z.leb_spec rc (maxRetries (config ex))); [|discriminate].
    destruct (call_provider _ w) as [[c|e] w1]; [discriminate|].
    destruct (Z.ltb_spec (maxRetries (config ex)) (rc + 1)); [discriminate|].
    apply IH. lia.
Qed.

(** With a provider that always fails the loop makes one attempt per
    remaining retry count, waits in between, and raises
    [AI_EXECUTION_FAILED] around the last failure. *)
Lemma retry_loop_exhausts (n : nat) (rc : Z) (ex : AIExecutor) (w : World) :
  provider_always_fails w ->
  maxRetries (config ex) = rc + Z.of_nat n ->
  let req := build_request prompt model options (config ex) in
  exists e d w',
    retry_loop (S n) rc startTime prompt model cacheKey options ex w
      = Some (Throw (AIExecutionError "AI_EXECUTION_FAILED" false (Some e)), ex, w')
    /\ events w' = (events w ++ Call req :: retry_trace req n (rc + 1))%list
    /\ provider_reply w' = provider_reply w
    /\ provider_reply w (length (calls w) + n)%nat req = (Failed e, d).
Proof.
  intros Hfail Hmax req. revert rc w Hfail Hmax.
  induction n as [|n IH]; intros rc w Hfail Hmax.
  - cbn [retry_loop]. fold req.
    destruct (Z.leb_spec rc (maxRetries (config ex))); [|lia].
    destruct (Hfail (length (calls w)) req) as (e & d & He).
    unfold call_provider. rewrite He.
    destruct (Z.ltb_spec (maxRetries (config ex)) (rc + 1)); [|lia].
    eexists e, d, _. split; [reflexivity|]. split; [reflexivity|]. split; [reflexivity|].
    now rewrite Nat.add_0_r.
  - cbn [retry_loop]. fold req.
    destruct (Z.leb_spec rc (maxRetries (config ex))); [|lia].
    destruct (Hfail (length (calls w)) req) as (e0 & d0 & He0).
    unfold call_provider at 1. rewrite He0.
    destruct (Z.ltb_spec (maxRetries (config ex)) (rc + 1)); [lia|].
    set (w2 := sleep _ _).
    destruct (IH (rc + 1) w2) as (e & d & w' & Hrun & Hev & Hpr & Hlast).
    + intros k r. apply Hfail.
    + lia.
    + exists e, d, w'. split; [exact Hrun|]. split; [|split].
      * rewrite Hev. subst w2. cbn [events sleep retry_trace].
        rewrite <- !app_assoc. reflexivity.
      * rewrite Hpr. reflexivity.
      * rewrite <- Hlast. subst w2. cbn [provider_reply sleep].
        f_equal. unfold calls. cbn [events sleep].
        rewrite !flat_map_app, !length_app. simpl. lia.
Qed.

End RetryLoop.

Lemma retry_trace_calls (req : ChatRequest) (n : nat) (k : Z) :
  flat_map (fun ev => match ev with Call r => [r] | Sleep _ => [] end) (retry_trace req n k)
  = repeat req n.
Proof.
  revert k. induction n as [|n IH]; intros k; simpl; [reflexivity|]. now rewrite IH.
Qed.

Lemma retry_trace_sleeps (req : ChatRequest) (n : nat) (k : Z) :
  flat_map (fun ev => match ev with Call _ => [] | Sleep d => [d] end) (retry_trace req n k)
  = delays n k.
Proof.
  revert k. induction n as [|n IH]; intros k; simpl; [reflexivity|]. now rewrite IH.
Qed.

(** The delay is 1000 * 2^(k-1) for the first four retries and capped at
    10000 from the fifth on. *)
Lemma backoff_delay_values (k : Z) :
  (1 <= k <= 4 -> backoff_delay k = 1000 * 2 ^ (k - 1))
  /\ (5 <= k -> backoff_delay k = 10000).
Proof.
  unfold backoff_delay. split; intros H.
  - assert (k = 1 \/ k = 2 \/ k = 3 \/ k = 4) as [-> | [-> | [-> | ->]]] by lia; reflexivity.
  - assert (2 ^ 4 <= 2 ^ (k - 1)) by (apply Z.pow_le_mono_r; lia).
    change (2 ^ 4) with 16 in *. lia.
Qed.

Lemma getCachedResult_config (key : string) (t : Z) (ex : AIExecutor) :
  config (snd (getCachedResult key t ex)) = config ex
  /\ client (snd (getCachedResult key t ex)) = client ex.
Proof.
  unfold getCachedResult. destruct (cache ex !! key) as [en|]; [|now split].
  destruct (expiry en <? t); now split.
Qed.

Lemma cache_check_config (prompt : string) (options : Options) (ex : AIExecutor) (w : World) :
  config (snd (cache_check prompt options ex w)) = config ex.
Proof.
  unfold cache_check. destruct (cacheEnabled (config ex)); [|reflexivity].
  apply getCachedResult_config.
Qed.

(** [executePrompt] past its availability check: the cache lookup, then
    the retry loop. *)
Lemma executePrompt_available (env : Env) (prompt : string) (options : Options)
    (ex ex1 ex2 : AIExecutor) (w : World) :
  reloadConfigIfNeeded env ex = Return ex1 ->
  isAvailable env ex1 = Return (true, ex2) ->
  executePrompt env prompt options ex w
  = match cache_check prompt options ex2 w with
    | (Some r, ex3) => (Return r, ex3, w)
    | (None, ex3) =>
        match retry_loop (Z.to_nat (maxRetries (config ex3) + 1)) 0 (now w) prompt
                (derived_model options (config ex2))
                (derived_key prompt options (config ex2)) options ex3 w with
        | Some res => res
        | None => (Throw (createError "AI_UNEXPECTED_ERROR" false None), ex3, w)
        end
    end.
Proof.
  intros Hr Ha. unfold executePrompt. rewrite Hr, Ha.
  unfold cache_check, derived_key, derived_model.
  destruct (cacheEnabled (config ex2)); [|reflexivity].
  destruct (getCachedResult _ (now w) ex2) as [[r|] ex3]; reflexivity.
Qed.

(** C3: for every [maxRetries >= 0], when the executor is available, the
    cache gives no hit and every provider call fails, [executePrompt] makes
    exactly [maxRetries + 1] attempts, one after the other, waiting
    [min(1000 * 2^(k-1), 10000)] milliseconds before the k-th retry (1s, 2s,
    4s, 8s, then 10s), and only then raises one non-retryable
    [AI_EXECUTION_FAILED] error that wraps the failure of the last
    attempt. *)
Theorem executePrompt_backoff_until_exhausted :
  forall (env : Env) (prompt : string) (options : Options)
         (ex ex1 ex2 ex3 : AIExecutor) (w : World),
    reloadConfigIfNeeded env ex = Return ex1 ->
    isAvailable env ex1 = Return (true, ex2) ->
    cache_check prompt options ex2 w = (None, ex3) ->
    0 <= maxRetries (config ex2) ->
    provider_always_fails w ->
    let req := build_request prompt (derived_model options (config ex2)) options (config ex2) in
    let n := Z.to_nat (maxRetries (config ex2)) in
    exists e d w',
      executePrompt env prompt options ex w
        = (Throw (AIExecutionError "AI_EXECUTION_FAILED" false (Some e)), ex3, w')
      /\ events w' = (events w ++ failing_trace req (maxRetries (config ex2)))%list
      /\ calls w' = (calls w ++ repeat req (S n))%list
      /\ sleeps w' = (sleeps w ++ delays n 1)%list
      /\ provider_reply w (length (calls w) + n)%nat req = (Failed e, d)
      /\ (forall k, 1 <= k <= 4 -> backoff_delay k = 1000 * 2 ^ (k - 1))
      /\ (forall k, 5 <= k -> backoff_delay k = 10000)
      /\ delays 6 1 = [1000; 2000; 4000; 8000; 10000; 10000].
Proof.
  intros env prompt options ex ex1 ex2 ex3 w Hr Ha Hc Hmax Hfail req n.
  rewrite (executePrompt_available _ _ _ _ _ _ _ Hr Ha), Hc.
  pose proof (cache_check_config prompt options ex2 w) as Hcfg.
  rewrite Hc in Hcfg. cbn [snd] in Hcfg.
  replace (Z.to_nat (maxRetries (config ex3) + 1)) with (S n)
    by (subst n; rewrite Hcfg; lia).
  destruct (retry_loop_exhausts (now w) prompt (derived_model options (config ex2))
              (derived_key prompt options (config ex2)) options n 0 ex3 w Hfail)
    as (e & d & w' & Hrun & Hev & _ & Hlast).
  { rewrite Hcfg. subst n. lia. }
  rewrite Hcfg in Hev, Hlast. fold req in Hev, Hlast.
  exists e, d, w'. rewrite Hrun.
  split; [reflexivity|]. split; [exact Hev|].
  split; [|split; [|split; [exact Hlast|]]].
  - unfold calls. rewrite Hev, flat_map_app. cbn [flat_map app].
    now rewrite retry_trace_calls.
  - unfold sleeps. rewrite Hev, flat_map_app. cbn [flat_map app].
    now rewrite retry_trace_sleeps.
  - split; [intros k; apply backoff_delay_values|].
    split; [intros k; apply backoff_delay_values | reflexivity].
Qed.

Lemma offline_world_always_fails : provider_always_fails offline_world.
Proof. intros n req. eexists _, _. reflexivity. Qed.

Lemma executePrompt_backoff_until_exhausted_witness :
  exists e w',
    executePrompt six_retries_env "ping" [] six_retries_executor offline_world
      = (Throw (AIExecutionError "AI_EXECUTION_FAILED" false (Some e)),
         six_retries_executor, w')
    /\ length (calls w') = 7%nat
    /\ sleeps w' = [1000; 2000; 4000; 8000; 10000; 10000].
Proof.
  destruct (executePrompt_backoff_until_exhausted six_retries_env "ping" []
              six_retries_executor six_retries_executor six_retries_executor
              six_retries_executor offline_world
              eq_refl eq_refl eq_refl ltac:(vm_compute; discriminate)
              offline_world_always_fails)
    as (e & d & w' & Hrun & _ & Hcalls & Hsleeps & _).
  exists e, w'. split; [exact Hrun|]. split.
  - rewrite Hcalls. reflexivity.
  - rewrite Hsleeps. reflexivity.
Defined.

(** ** The cache *)

Lemma backoff_delay_nonneg (k : Z) : 0 <= backoff_delay k.
Proof.
  unfold backoff_delay. apply Z.min_glb; [|lia].
  apply Z.mul_nonneg_nonneg; [lia|]. apply Z.pow_nonneg. lia.
Qed.

Lemma call_provider_now (req : ChatRequest) (w : World) :
  now w <= now (snd (call_provider req w)).
Proof.
  unfold call_provider. destruct (provider_reply w _ req) as [reply elapsed].
  simpl. lia.
Qed.

(** What a finished run of the retry loop leaves behind: the clock has not
    gone back; a result is fresh ([cached = false]) and, with caching on,
    has just been stored at the final clock reading; a failure leaves the
    executor as it was. *)
Lemma retry_loop_result (fuel : nat) (rc startTime : Z) (prompt model key : string)
    (options : Options) (ex : AIExecutor) (w : World)
    (out : outcome JSError AIExecutionResult) (ex' : AIExecutor) (w' : World) :
  retry_loop fuel rc startTime prompt model key options ex w = Some (out, ex', w') ->
  now w <= now w'
  /\ match out with
     | Return r =>
         cached (metadata r) = false
         /\ ex' = (if cacheEnabled (config ex)
                   then setCachedResult key r (now w') ex else ex)
     | Throw _ => ex' = ex
     end.
Proof.
  revert rc w. induction fuel as [|fuel IH]; intros rc w; cbn [retry_loop].
  - destruct (rc <=? maxRetries (config ex)); [discriminate|].
    intros H. injection H as <- <- <-. split; [lia | reflexivity].
  - destruct (rc <=? maxRetries (config ex)).
    + pose proof (call_provider_now (build_request prompt model options (config ex)) w) as Hn.
      destruct (call_provider _ w) as [[c|e] w1]; cbn [snd] in Hn.
      * intros H. injection H as <- <- <-. split; [exact Hn|]. split; reflexivity.
      * destruct (maxRetries (config ex) <? rc + 1).
        -- intros H. injection H as <- <- <-. split; [exact Hn | reflexivity].
        -- intros H. apply IH in H. destruct H as [Hn' H]. split; [|exact H].
           cbn [now sleep] in Hn'. pose proof (backoff_delay_nonneg (rc + 1)). lia.
    + intros H. injection H as <- <- <-. split; [lia | reflexivity].
Qed.

Lemma initializeClient_config (ex : AIExecutor) :
  config (initializeClient ex) = config ex.
Proof.
  unfold initializeClient. destruct (negb _); [reflexivity|].
  destruct (validateAIConfig _); reflexivity.
Qed.

Lemma initializeClient_cache (ex : AIExecutor) :
  cache (initializeClient ex) = cache ex.
Proof.
  unfold initializeClient. destruct (negb _); [reflexivity|].
  destruct (validateAIConfig _); reflexivity.
Qed.

(** Reloading leaves the cache alone, and once done it is stable: a
    second reload in the same environment changes nothing, for any
    executor holding the same configuration. *)
Lemma reloadConfigIfNeeded_cache (env : Env) (ex ex1 : AIExecutor) :
  reloadConfigIfNeeded env ex = Return ex1 -> cache ex1 = cache ex.
Proof.
  unfold reloadConfigIfNeeded. destruct (loadAIConfig env) as [cur|]; [|discriminate].
  destruct (_ || _); intros H; injection H as <-; [|reflexivity].
  now rewrite initializeClient_cache.
Qed.

Lemma reloadConfigIfNeeded_stable (env : Env) (ex ex1 b : AIExecutor) :
  reloadConfigIfNeeded env ex = Return ex1 ->
  config b = config ex1 ->
  reloadConfigIfNeeded env b = Return b.
Proof.
  unfold reloadConfigIfNeeded. destruct (loadAIConfig env) as [cur|]; [|discriminate].
  destruct (_ || _) eqn:Hch; intros H Hb; injection H as <-; rewrite Hb.
  - rewrite initializeClient_config. cbn [config]. now rewrite !String.eqb_refl.
  - now rewrite Hch.
Qed.

Lemma isAvailable_stable (env : Env) (ex1 ex2 b : AIExecutor) (a : bool) :
  isAvailable env ex1 = Return (a, ex2) ->
  config b = config ex2 -> client b = client ex2 ->
  isAvailable env b = Return (a, b).
Proof.
  unfold isAvailable. destruct (reloadConfigIfNeeded env ex1) as [x|] eqn:Hr; [|discriminate].
  intros H Hc Hcl. injection H as <- <-.
  rewrite (reloadConfigIfNeeded_stable env ex1 x b Hr Hc). now rewrite Hc, Hcl.
Qed.

Lemma isAvailable_cache (env : Env) (ex1 ex2 : AIExecutor) (a : bool) :
  isAvailable env ex1 = Return (a, ex2) -> cache ex2 = cache ex1.
Proof.
  unfold isAvailable. destruct (reloadConfigIfNeeded env ex1) as [x|] eqn:Hr; [|discriminate].
  intros H. injection H as _ <-. eapply reloadConfigIfNeeded_cache, Hr.
Qed.

(** A cache hit: with caching on and an unexpired entry under the derived
    key, [executePrompt] returns the stored result marked as cached and
    touches neither the executor nor the world. *)
Lemma executePrompt_hit (env : Env) (prompt : string) (options : Options)
    (ex ex1 ex2 : AIExecutor) (w : World) (entry : CacheEntry) :
  reloadConfigIfNeeded env ex = Return ex1 ->
  isAvailable env ex1 = Return (true, ex2) ->
  cacheEnabled (config ex2) = true ->
  cache ex2 !! derived_key prompt options (config ex2) = Some entry ->
  now w <= expiry entry ->
  executePrompt env prompt options ex w = (Return (mark_cached (result entry)), ex2, w).
Proof.
  intros Hr Ha Hen Hlk Hexp.
  rewrite (executePrompt_available _ _ _ _ _ _ _ Hr Ha).
  unfold cache_check, getCachedResult. rewrite Hen, Hlk.
  destruct (Z.ltb_spec (expiry entry) (now w)); [lia | reflexivity].
Qed.

Lemma cleanupCache_lookup (t : Z) (c : gmap string CacheEntry) (k : string) (e : CacheEntry) :
  cleanupCache t c !! k = Some e <-> c !! k = Some e /\ t <= expiry e.
Proof.
  unfold cleanupCache. rewrite map_lookup_filter_Some. cbn [snd].
  destruct (Z.ltb_spec (expiry e) t); simpl; intuition (try lia; try discriminate).
Qed.

Lemma setCachedResult_lookup (key : string) (r : AIExecutionResult) (t : Z)
    (ex : AIExecutor) (k : string) (e : CacheEntry) :
  cache (setCachedResult key r t ex) !! k = Some e
  <-> <[key := {| result := r; expiry := t + cacheTTL (config ex) * 1000 |}]> (cache ex) !! k
      = Some e
      /\ ((100 < size (<[key := {| result := r;
                                   expiry := t + cacheTTL (config ex) * 1000 |}]> (cache ex)))%nat
          -> t <= expiry e).
Proof.
  unfold setCachedResult. cbn [cache].
  set (c := <[key := _]> (cache ex)).
  destruct (Nat.ltb_spec 100 (size c)).
  - rewrite cleanupCache_lookup. intuition.
  - intuition lia.
Qed.

Lemma setCachedResult_fields (key : string) (r : AIExecutionResult) (t : Z) (ex : AIExecutor) :
  config (setCachedResult key r t ex) = config ex
  /\ client (setCachedResult key r t ex) = client ex.
Proof. split; reflexivity. Qed.

(** Taking a fresh result apart: the executor was available in a reloaded
    state [ex2], the lookup missed and left [ex3], and the result was then
    stored. *)
Lemma executePrompt_fresh (env : Env) (prompt : string) (options : Options)
    (ex ex' : AIExecutor) (w w1 : World) (r1 : AIExecutionResult) :
  executePrompt env prompt options ex w = (Return r1, ex', w1) ->
  cached (metadata r1) = false ->
  exists ex1 ex2 ex3,
    reloadConfigIfNeeded env ex = Return ex1
    /\ isAvailable env ex1 = Return (true, ex2)
    /\ cache_check prompt options ex2 w = (None, ex3)
    /\ now w <= now w1
    /\ ex' = (if cacheEnabled (config ex2)
              then setCachedResult (derived_key prompt options (config ex2)) r1 (now w1) ex3
              else ex3).
Proof.
  intros H Hfresh.
  destruct (reloadConfigIfNeeded env ex) as [ex1|e] eqn:Hr;
    [|unfold executePrompt in H; rewrite Hr in H; discriminate].
  destruct (isAvailable env ex1) as [[[] ex2]|e] eqn:Ha;
    try (unfold executePrompt in H; rewrite Hr, Ha in H; discriminate).
  rewrite (executePrompt_available _ _ _ _ _ _ _ Hr Ha) in H.
  exists ex1, ex2.
  pose proof (cache_check_config prompt options ex2 w) as Hcfg.
  destruct (cache_check prompt options ex2 w) as [[r|] ex3] eqn:Hc; cbn [snd] in Hcfg.
  - injection H as -> _ _. exfalso.
    unfold cache_check in Hc. destruct (cacheEnabled (config ex2)); [|discriminate].
    unfold getCachedResult in Hc. destruct (cache ex2 !! _); [|discriminate].
    destruct (_ <? _); [discriminate|].
    injection Hc as <- _. discriminate.
  - exists ex3. destruct (retry_loop _ _ _ _ _ _ _ _ _) as [[[o x] y]|] eqn:Hl; [|discriminate].
    injection H as -> -> ->.
    apply retry_loop_result in Hl. destruct Hl as (Hn & _ & Hx).
    rewrite Hcfg in Hx. repeat split; assumption.
Qed.

(** After a fresh result has been stored, any execution whose derived key
    equals the key of the first one finds that entry while it is unexpired:
    it returns the first result marked as cached and leaves the executor
    and the world as they are. *)
Lemma executePrompt_hit_after_fresh (env : Env) (prompt prompt2 : string)
    (options options2 : Options) (ex ex' : AIExecutor) (w w1 w2 : World)
    (r1 : AIExecutionResult) :
  executePrompt env prompt options ex w = (Return r1, ex', w1) ->
  cached (metadata r1) = false ->
  cacheEnabled (config ex') = true ->
  now w1 <= now w2 <= now w1 + cacheTTL (config ex') * 1000 ->
  derived_key prompt2 options2 (config ex') = derived_key prompt options (config ex') ->
  executePrompt env prompt2 options2 ex' w2 = (Return (mark_cached r1), ex', w2).
Proof.
  intros Hrun Hfresh Hen Ht Hkey.
  destruct (executePrompt_fresh _ _ _ _ _ _ _ _ Hrun Hfresh)
    as (ex1 & ex2 & ex3 & Hr & Ha & Hc & Hn & Hex').
  pose proof (cache_check_config prompt options ex2 w) as Hcfg3.
  rewrite Hc in Hcfg3. cbn [snd] in Hcfg3.
  assert (Hcl3 : client ex3 = client ex2).
  { unfold cache_check in Hc. destruct (cacheEnabled (config ex2)).
    - pose proof (getCachedResult_config (derived_key prompt options (config ex2)) (now w) ex2)
        as [_ Hcl]. rewrite Hc in Hcl. exact Hcl.
    - now injection Hc as <-. }
  assert (Hcfg : config ex' = config ex2).
  { rewrite Hex'. destruct (cacheEnabled (config ex2)); exact Hcfg3. }
  assert (Hcl : client ex' = client ex2).
  { rewrite Hex'. destruct (cacheEnabled (config ex2)); exact Hcl3. }
  rewrite Hcfg in Hen, Ht, Hkey. rewrite Hen in Hex'.
  assert (Hr2 : reloadConfigIfNeeded env ex1 = Return ex2).
  { unfold isAvailable in Ha. destruct (reloadConfigIfNeeded env ex1) as [x|]; [|discriminate].
    now injection Ha as _ <-. }
  rewrite (executePrompt_hit env prompt2 options2 ex' ex' ex' w2
             {| result := r1; expiry := now w1 + cacheTTL (config ex2) * 1000 |}).
  - reflexivity.
  - exact (reloadConfigIfNeeded_stable env ex1 ex2 ex' Hr2 Hcfg).
  - exact (isAvailable_stable env ex1 ex2 ex' true Ha Hcfg Hcl).
  - now rewrite Hcfg.
  - rewrite Hcfg, Hkey, Hex'. apply setCachedResult_lookup. rewrite Hcfg3. split.
    + apply lookup_insert_eq.
    + intros _. cbn [expiry]. lia.
  - cbn [expiry]. lia.
Qed.

(** C2: when a first execution returned a fresh result and caching is
    enabled, a second execution of the same prompt, model and options
    within the TTL returns before any provider call: the world is left
    exactly as it was (no request sent, no delay waited), the executor is
    unchanged, and the result is the first one marked [cached = true], with
    the same content and the same retry count.  More generally, whenever an
    unexpired entry sits under the derived key, [executePrompt] returns
    that entry's result marked as cached and touches nothing. *)
Theorem executePrompt_second_run_is_cached :
  forall (env : Env) (prompt : string) (options : Options)
         (ex ex' : AIExecutor) (w w1 w2 : World) (r1 : AIExecutionResult),
    executePrompt env prompt options ex w = (Return r1, ex', w1) ->
    cached (metadata r1) = false ->
    cacheEnabled (config ex') = true ->
    now w1 <= now w2 <= now w1 + cacheTTL (config ex') * 1000 ->
    exists r2,
      executePrompt env prompt options ex' w2 = (Return r2, ex', w2)
      /\ cached (metadata r2) = true
      /\ content r2 = content r1
      /\ retryCount (metadata r2) = retryCount (metadata r1)
      /\ r2 = mark_cached r1
      /\ (forall entry ea eb wa,
            reloadConfigIfNeeded env ex = Return ea ->
            isAvailable env ea = Return (true, eb) ->
            cacheEnabled (config eb) = true ->
            cache eb !! derived_key prompt options (config eb) = Some entry ->
            now wa <= expiry entry ->
            executePrompt env prompt options ex wa
            = (Return (mark_cached (result entry)), eb, wa)).
Proof.
  intros env prompt options ex ex' w w1 w2 r1 Hrun Hfresh Hen Ht.
  exists (mark_cached r1).
  split; [|split; [reflexivity|split; [reflexivity|split; [reflexivity|split; [reflexivity|]]]]].
  - exact (executePrompt_hit_after_fresh env prompt prompt options options ex ex' w w1 w2 r1
             Hrun Hfresh Hen Ht eq_refl).
  - intros entry ea eb wa. apply executePrompt_hit.
Qed.

Lemma executePrompt_second_run_is_cached_witness :
  exists r1 ex' w1,
    executePrompt keyed_env "ping" [] keyed_executor echo_world = (Return r1, ex', w1)
    /\ content r1 = "pong"
    /\ executePrompt keyed_env "ping" [] ex' (elapse 1000 w1)
       = (Return (mark_cached r1), ex', elapse 1000 w1)
    /\ length (calls (elapse 1000 w1)) = 1%nat.
Proof.
  destruct (executePrompt keyed_env "ping" [] keyed_executor echo_world)
    as [[[r1|e] ex'] w1] eqn:H1.
  - pose proof H1 as H1'. vm_compute in H1'. injection H1' as Er Eex Ew.
    assert (Hfresh : cached (metadata r1) = false) by (rewrite <- Er; reflexivity).
    assert (Hen : cacheEnabled (config ex') = true) by (rewrite <- Eex; reflexivity).
    assert (Httl : cacheTTL (config ex') = 3600) by (rewrite <- Eex; reflexivity).
    assert (Ht : now w1 <= now (elapse 1000 w1) <= now w1 + cacheTTL (config ex') * 1000)
      by (rewrite Httl; cbn [elapse now]; lia).
    destruct (executePrompt_second_run_is_cached keyed_env "ping" [] keyed_executor
                ex' echo_world w1 (elapse 1000 w1) r1 H1 Hfresh Hen Ht)
      as (r2 & Hrun & _ & _ & _ & -> & _).
    exists r1, ex', w1. split; [reflexivity|].
    split; [rewrite <- Er; reflexivity|].
    split; [exact Hrun|]. rewrite <- Ew. reflexivity.
  - exfalso. vm_compute in H1. discriminate.
Defined.

(** ** Cache pruning *)

(** A miss leaves every entry that is unexpired at the time of the lookup
    in place, and with caching on it leaves nothing under the key. *)
Lemma cache_check_miss (prompt : string) (options : Options) (ex2 ex3 : AIExecutor) (w : World) :
  cache_check prompt options ex2 w = (None, ex3) ->
  (cacheEnabled (config ex2) = true ->
   cache ex3 !! derived_key prompt options (config ex2) = None)
  /\ (forall k e, cache ex2 !! k = Some e -> now w <= expiry e -> cache ex3 !! k = Some e).
Proof.
  unfold cache_check, getCachedResult. destruct (cacheEnabled (config ex2)).
  - destruct (cache ex2 !! derived_key prompt options (config ex2)) as [en|] eqn:Hl.
    + destruct (Z.ltb_spec (expiry en) (now w)); [|discriminate].
      intros H'. injection H' as <-. cbn [cache]. split.
      * intros _. apply lookup_delete_eq.
      * intros k e Hk He. rewrite lookup_delete_ne; [exact Hk|].
        intros <-. rewrite Hl in Hk. injection Hk as ->. lia.
    + intros H'. injection H' as <-. split; [intros _; exact Hl | auto].
  - intros H'. injection H' as <-. split; [discriminate | auto].
Qed.

Lemma cache_check_hit (prompt : string) (options : Options) (ex2 ex3 : AIExecutor)
    (w : World) (r : AIExecutionResult) :
  cache_check prompt options ex2 w = (Some r, ex3) -> ex3 = ex2.
Proof.
  unfold cache_check, getCachedResult. destruct (cacheEnabled (config ex2)); [|discriminate].
  destruct (cache ex2 !! _); [|discriminate].
  destruct (_ <? _); [discriminate|]. now intros H; injection H as _ <-.
Qed.

(** No run of [executePrompt] removes an entry that is still unexpired
    when the run ends. *)
Lemma executePrompt_keeps_unexpired (env : Env) (prompt : string) (options : Options)
    (ex ex' : AIExecutor) (w w' : World) (o : outcome JSError AIExecutionResult)
    (k : string) (e : CacheEntry) :
  executePrompt env prompt options ex w = (o, ex', w') ->
  cache ex !! k = Some e -> now w' <= expiry e ->
  cache ex' !! k = Some e.
Proof.
  intros H Hk He.
  destruct (reloadConfigIfNeeded env ex) as [ex1|err] eqn:Hr;
    [|unfold executePrompt in H; rewrite Hr in H; injection H as _ <- _; exact Hk].
  pose proof (reloadConfigIfNeeded_cache _ _ _ Hr) as Hc1.
  destruct (isAvailable env ex1) as [[a ex2]|err] eqn:Ha;
    [|unfold executePrompt in H; rewrite Hr, Ha in H; injection H as _ <- _;
      now rewrite Hc1].
  pose proof (isAvailable_cache _ _ _ _ Ha) as Hc2.
  destruct a;
    [|unfold executePrompt in H; rewrite Hr, Ha in H; injection H as _ <- _;
      now rewrite Hc2, Hc1].
  rewrite (executePrompt_available _ _ _ _ _ _ _ Hr Ha) in H.
  pose proof (cache_check_config prompt options ex2 w) as Hcfg.
  destruct (cache_check prompt options ex2 w) as [[r|] ex3] eqn:Hc; cbn [snd] in Hcfg.
  - apply cache_check_hit in Hc. injection H as _ <- _. subst ex3. now rewrite Hc2, Hc1.
  - destruct (cache_check_miss _ _ _ _ _ Hc) as [Hnone Hkeep].
    destruct (retry_loop _ _ _ _ _ _ _ _ _) as [[[o1 x] y]|] eqn:Hl.
    + injection H as -> -> ->.
      apply retry_loop_result in Hl. destruct Hl as [Hn Hx].
      assert (Hk3 : cache ex3 !! k = Some e).
      { apply Hkeep; [now rewrite Hc2, Hc1 | lia]. }
      destruct o.
      * destruct Hx as [_ ->]. rewrite Hcfg.
        destruct (cacheEnabled (config ex2)) eqn:Hen; [|exact Hk3].
        apply setCachedResult_lookup. split; [|intros _; exact He].
        rewrite lookup_insert_ne; [exact Hk3|].
        intros <-. rewrite Hnone in Hk3 by reflexivity. discriminate.
      * now subst.
    + injection H as _ <- <-. apply Hkeep; [now rewrite Hc2, Hc1 | exact He].
Qed.

(** C9: storing a result inserts it and, exactly when the cache then holds
    more than 100 entries, runs the cleanup, which removes exactly the
    entries whose expiry has passed.  Every unexpired entry under another
    key is still there after the store and can still be retrieved until it
    expires; no run of [executePrompt] removes an entry that is unexpired
    when the run ends; an expired entry is deleted by the lookup that
    finds it; and the other operations (reloading, the availability check,
    [updateConfig]) leave the cache as it is, while [clearCache] empties
    it. *)
Theorem cache_pruning_keeps_unexpired :
  forall (key : string) (r : AIExecutionResult) (t : Z) (ex : AIExecutor),
    let c := <[key := stored_entry r t ex]> (cache ex) in
    cache (setCachedResult key r t ex)
      = (if (100 <? size c)%nat then cleanupCache t c else c)
    /\ (forall k e, cleanupCache t c !! k = Some e <-> c !! k = Some e /\ ~ expiry e < t)
    /\ (forall k e, k <> key -> cache ex !! k = Some e -> t <= expiry e ->
          cache (setCachedResult key r t ex) !! k = Some e
          /\ forall t', t' <= expiry e ->
               getCachedResult k t' (setCachedResult key r t ex)
               = (Some (mark_cached (result e)), setCachedResult key r t ex))
    /\ (forall env prompt options w o ex' w' k e,
          executePrompt env prompt options ex w = (o, ex', w') ->
          cache ex !! k = Some e -> now w' <= expiry e ->
          cache ex' !! k = Some e)
    /\ (forall k t' k' e, cache ex !! k' = Some e -> t' <= expiry e ->
          cache (snd (getCachedResult k t' ex)) !! k' = Some e)
    /\ (forall env ex1, reloadConfigIfNeeded env ex = Return ex1 -> cache ex1 = cache ex)
    /\ (forall env a ex1, isAvailable env ex = Return (a, ex1) -> cache ex1 = cache ex)
    /\ (forall cfg, cache (updateConfig cfg ex) = cache ex)
    /\ cache (clearCache ex) = ∅.
Proof.
  intros key r t ex c.
  split; [reflexivity|].
  split; [intros k e; rewrite cleanupCache_lookup; intuition lia|].
  split; [|split; [|split; [|split; [|split; [|split]]]]].
  - intros k e Hne Hk He.
    assert (Hin : cache (setCachedResult key r t ex) !! k = Some e).
    { apply setCachedResult_lookup. split; [|intros _; exact He].
      rewrite lookup_insert_ne; [exact Hk | congruence]. }
    split; [exact Hin|].
    intros t' Ht'. unfold getCachedResult. rewrite Hin.
    destruct (Z.ltb_spec (expiry e) t'); [lia | reflexivity].
  - intros env prompt options w o ex' w' k e. apply executePrompt_keeps_unexpired.
  - intros k t' k' e Hk He. unfold getCachedResult.
    destruct (cache ex !! k) as [en|] eqn:Hl; [|exact Hk].
    destruct (Z.ltb_spec (expiry en) t'); [|exact Hk].
    cbn [snd cache]. rewrite lookup_delete_ne; [exact Hk|].
    intros <-. rewrite Hl in Hk. injection Hk as ->. lia.
  - intros env ex1. apply reloadConfigIfNeeded_cache.
  - intros env a ex1. apply isAvailable_cache.
  - intros cfg. unfold updateConfig. now rewrite initializeClient_cache.
  - reflexivity.
Qed.

Lemma cache_pruning_keeps_unexpired_witness :
  size (cache full_executor) = 100%nat
  /\ size (cache (setCachedResult "fresh" (sample_result "new") 1050 full_executor)) = 51%nat
  /\ cache (setCachedResult "fresh" (sample_result "new") 1050 full_executor) !! "k49" = None
  /\ cache (setCachedResult "fresh" (sample_result "new") 1050 full_executor) !! "k50"
     = Some {| result := sample_result "old"; expiry := 1050 |}
  /\ getCachedResult "k50" 1050 (setCachedResult "fresh" (sample_result "new") 1050 full_executor)
     = (Some (mark_cached (sample_result "old")),
        setCachedResult "fresh" (sample_result "new") 1050 full_executor).
Proof.
  split; [vm_compute; reflexivity|].
  split; [vm_compute; reflexivity|].
  split; [vm_compute; reflexivity|].
  pose proof (proj1 (proj2 (proj2
                (cache_pruning_keeps_unexpired "fresh" (sample_result "new") 1050
                   full_executor)))
                "k50" {| result := sample_result "old"; expiry := 1050 |}
                ltac:(discriminate) ltac:(vm_compute; reflexivity) ltac:(cbn; lia)) as [H1 H2].
  split; [exact H1|]. apply (H2 1050). cbn. lia.
Defined.

(** ** Cache key collisions *)

Lemma string_app_assoc (a b c : string) : (a ++ b) ++ c = a ++ (b ++ c).
Proof.
  induction a as [|x a IH]; [reflexivity|].
  change (String x ((a ++ b) ++ c) = String x (a ++ (b ++ c))). now rewrite IH.
Qed.

Lemma quote_chars_app (a b : string) :
  JS.quote_chars (a ++ b) = JS.quote_chars a ++ JS.quote_chars b.
Proof.
  induction a as [|x a IH]; [reflexivity|].
  change (JS.quote_char x ++ JS.quote_chars (a ++ b)
          = (JS.quote_char x ++ JS.quote_chars a) ++ JS.quote_chars b).
  now rewrite IH, string_app_assoc.
Qed.

Lemma utf8_encode_app (a b : string) :
  JS.utf8_encode (a ++ b) = (JS.utf8_encode a ++ JS.utf8_encode b)%list.
Proof.
  induction a as [|x a IH]; [reflexivity|].
  change (String x a ++ b) with (String x (a ++ b)).
  cbn [JS.utf8_encode]. destruct (_ <? 128)%nat; cbn [app]; now rewrite IH.
Qed.

Lemma base64_encode_app (n : nat) (l r : list nat) :
  length l = (3 * n)%nat ->
  JS.base64_encode (l ++ r) = JS.base64_encode l ++ JS.base64_encode r.
Proof.
  revert l. induction n as [|n IH]; intros l Hl.
  - destruct l; [reflexivity | discriminate].
  - destruct l as [|a [|b [|c l]]]; try (simpl in Hl; lia).
    cbn [app JS.base64_encode]. rewrite IH by (simpl in Hl; lia). reflexivity.
Qed.

Lemma base64_encode_length (n : nat) (l : list nat) :
  length l = (3 * n)%nat -> String.length (JS.base64_encode l) = (4 * n)%nat.
Proof.
  revert l. induction n as [|n IH]; intros l Hl.
  - destruct l; [reflexivity | discriminate].
  - destruct l as [|a [|b [|c l]]]; try (simpl in Hl; lia).
    cbn [JS.base64_encode String.length]. rewrite IH by (simpl in Hl; lia). lia.
Qed.

Lemma slice0_prefix (a b : string) : JS.slice0 (String.length a) (a ++ b) = a.
Proof.
  unfold JS.slice0. induction a as [|x a IH].
  - destruct b; reflexivity.
  - change (String x a ++ b) with (String x (a ++ b)).
    cbn [String.length String.substring]. now rewrite IH.
Qed.

(** The key is a function of the first 24 bytes of the serialization:
    eleven of them are [key_head], so thirteen bytes of the escaped prompt
    decide it. *)
Lemma generateCacheKey_prefix (pre s model : string) (options : Options) :
  (13 <= length (JS.utf8_encode (JS.quote_chars pre)))%nat ->
  generateCacheKey (pre ++ s) model options
  = JS.base64_encode (JS.utf8_encode key_head
                      ++ firstn 13 (JS.utf8_encode (JS.quote_chars pre)))%list.
Proof.
  intros Hlen. unfold generateCacheKey, JS.JSON_stringify_string.
  set (tail := "," ++ _).
  replace ("{" ++ (JS.dquote ++ JS.quote_chars "prompt" ++ JS.dquote) ++ ":"
           ++ (JS.dquote ++ JS.quote_chars (pre ++ s) ++ JS.dquote) ++ tail)
    with (key_head ++ JS.quote_chars pre ++ (JS.quote_chars s ++ JS.dquote ++ tail)).
  2:{ rewrite quote_chars_app. unfold key_head.
      rewrite !string_app_assoc. reflexivity. }
  rewrite !utf8_encode_app.
  rewrite <- (firstn_skipn 13 (JS.utf8_encode (JS.quote_chars pre))) at 1.
  rewrite <- app_assoc, app_assoc.
  set (front := (JS.utf8_encode key_head ++ firstn 13 _)%list).
  assert (Hfront : length front = (3 * 8)%nat).
  { subst front. rewrite length_app, length_firstn. 
    change (length (JS.utf8_encode key_head)) with 11%nat. lia. }
  rewrite (base64_encode_app 8 front _ Hfront).
  rewrite <- (base64_encode_length 8 front Hfront) at 1.
  apply slice0_prefix.
Qed.

(** C5: the cache key is not injective.  It is the base64 text of the
    first 24 bytes of the serialization, so two prompts that agree on a
    prefix whose escaped form has at least 13 bytes get the same key,
    whatever follows the prefix and whatever the model and options are.
    With caching enabled, once one prompt has been executed, executing
    another prompt with the same key within the TTL returns, marked as a
    cache hit and without any provider call, the result produced for the
    first.  [prompt_a] and [prompt_b] are two such distinct prompts: the
    answer to [prompt_a] is returned for [prompt_b]. *)
Theorem generateCacheKey_collides :
  (forall pre s1 s2 model1 model2 options1 options2,
      (13 <= length (JS.utf8_encode (JS.quote_chars pre)))%nat ->
      generateCacheKey (pre ++ s1) model1 options1
      = generateCacheKey (pre ++ s2) model2 options2)
  /\ (forall env pre s1 s2 options1 options2 ex ex' w w1 w2 r1,
        (13 <= length (JS.utf8_encode (JS.quote_chars pre)))%nat ->
        executePrompt env (pre ++ s1) options1 ex w = (Return r1, ex', w1) ->
        cached (metadata r1) = false ->
        cacheEnabled (config ex') = true ->
        now w1 <= now w2 <= now w1 + cacheTTL (config ex') * 1000 ->
        executePrompt env (pre ++ s2) options2 ex' w2 = (Return (mark_cached r1), ex', w2))
  /\ prompt_a <> prompt_b
  /\ generateCacheKey prompt_a "anthropic/claude-3-sonnet" []
     = generateCacheKey prompt_b "anthropic/claude-3-sonnet" []
  /\ exists r1 r2 ex1 w1,
       executePrompt keyed_env prompt_a [] keyed_executor answering_world
         = (Return r1, ex1, w1)
       /\ content r1 = "Answer to: " ++ prompt_a
       /\ executePrompt keyed_env prompt_b [] ex1 (elapse 1000 w1)
          = (Return r2, ex1, elapse 1000 w1)
       /\ cached (metadata r2) = true
       /\ content r2 = "Answer to: " ++ prompt_a
       /\ length (calls (elapse 1000 w1)) = 1%nat.
Proof.
  assert (Hgen : forall env pre s1 s2 options1 options2 ex ex' w w1 w2 r1,
        (13 <= length (JS.utf8_encode (JS.quote_chars pre)))%nat ->
        executePrompt env (pre ++ s1) options1 ex w = (Return r1, ex', w1) ->
        cached (metadata r1) = false ->
        cacheEnabled (config ex') = true ->
        now w1 <= now w2 <= now w1 + cacheTTL (config ex') * 1000 ->
        executePrompt env (pre ++ s2) options2 ex' w2 = (Return (mark_cached r1), ex', w2)).
  { intros env pre s1 s2 o1 o2 ex ex' w w1 w2 r1 Hlen Hrun Hfresh Hen Ht.
    apply (executePrompt_hit_after_fresh env (pre ++ s1) (pre ++ s2) o1 o2 ex ex' w w1 w2 r1
             Hrun Hfresh Hen Ht).
    unfold derived_key. now rewrite !generateCacheKey_prefix. }
  split; [|split; [exact Hgen|split; [discriminate|split; [vm_compute; reflexivity|]]]].
  - intros pre s1 s2 m1 m2 o1 o2 Hlen.
    now rewrite !generateCacheKey_prefix.
  - destruct (executePrompt keyed_env prompt_a [] keyed_executor answering_world)
      as [[[r1|e] ex1] w1] eqn:H1; [|exfalso; vm_compute in H1; discriminate].
    pose proof H1 as H1'. vm_compute in H1'. injection H1' as Er Eex Ew.
    assert (Hfresh : cached (metadata r1) = false) by (rewrite <- Er; reflexivity).
    assert (Hen : cacheEnabled (config ex1) = true) by (rewrite <- Eex; reflexivity).
    assert (Httl : cacheTTL (config ex1) = 3600) by (rewrite <- Eex; reflexivity).
    assert (Ht : now w1 <= now (elapse 1000 w1) <= now w1 + cacheTTL (config ex1) * 1000)
      by (rewrite Httl; cbn [elapse now]; lia).
    exists r1, (mark_cached r1), ex1, w1.
    split; [reflexivity|].
    split; [rewrite <- Er; reflexivity|].
    split; [|split; [reflexivity|split; [rewrite <- Er; reflexivity
                                         |rewrite <- Ew; reflexivity]]].
    apply (Hgen keyed_env "Summarize this ADR: " "PostgreSQL for storage"
             "Kafka for messaging" [] [] keyed_executor ex1 answering_world w1
             (elapse 1000 w1) r1); try assumption.
    vm_compute. lia.
Qed.

Lemma generateCacheKey_collides_witness :
  generateCacheKey ("Summarize this ADR: " ++ "PostgreSQL for storage")
    "anthropic/claude-3-sonnet" []
  = generateCacheKey ("Summarize this ADR: " ++ "Kafka for messaging")
      "openai/gpt-4o" [OptTemperature 0.7%float].
Proof.
  refine (proj1 generateCacheKey_collides "Summarize this ADR: " _ _ _ _ _ _ _).
  vm_compute. lia.
Defined.

(** ** Structured extraction *)

Lemma append_cons (c : ascii) (a b : string) : String c a ++ b = String c (a ++ b).
Proof. reflexivity. Qed.

Lemma append_empty_r (a : string) : a ++ "" = a.
Proof. induction a as [|c a IH]; [reflexivity|]. now rewrite append_cons, IH. Qed.

Lemma length_append (a b : string) :
  String.length (a ++ b) = (String.length a + String.length b)%nat.
Proof. induction a as [|c a IH]; [reflexivity|]. rewrite append_cons. simpl. now rewrite IH. Qed.

Lemma substring_all (s : string) : String.substring 0 (String.length s) s = s.
Proof. induction s as [|c s IH]; [reflexivity|]. simpl. now rewrite IH. Qed.

Lemma consumed_prefix (a b : string) : JS.consumed (a ++ b) b = a.
Proof.
  unfold JS.consumed. rewrite length_append.
  replace (String.length a + String.length b - String.length b)%nat
    with (String.length a) by lia.
  apply slice0_prefix.
Qed.

(** *** Trimming *)

Lemma trimStart_nonspace (c : ascii) (s : string) :
  JS.is_space c = false -> JS.trimStart (String c s) = String c s.
Proof. intros H. simpl. now rewrite H. Qed.

Lemma trimStart_head (s : string) :
  JS.trimStart s = "" \/ exists c r, JS.trimStart s = String c r /\ JS.is_space c = false.
Proof.
  induction s as [|c s IH]; [now left|]. simpl.
  destruct (JS.is_space c) eqn:E; [exact IH|]. right. now exists c, s.
Qed.

Lemma trimStart_idem (s : string) : JS.trimStart (JS.trimStart s) = JS.trimStart s.
Proof.
  destruct (trimStart_head s) as [->|(c & r & -> & H)]; [reflexivity|].
  now apply trimStart_nonspace.
Qed.

Lemma trimEnd_cons_nonspace (c : ascii) (s : string) :
  JS.is_space c = false -> JS.trimEnd (String c s) = String c (JS.trimEnd s).
Proof. intros H. simpl. destruct (JS.trimEnd s); [now rewrite H | reflexivity]. Qed.

Lemma trimEnd_keep (x : string) (c : ascii) :
  JS.is_space c = false -> JS.trimEnd (x ++ String c "") = x ++ String c "".
Proof.
  intros H. induction x as [|a x IH].
  - simpl. now rewrite H.
  - rewrite append_cons. cbn [JS.trimEnd]. rewrite IH.
    destruct (x ++ String c "") eqn:E; [|reflexivity].
    destruct x; discriminate.
Qed.

Lemma trimEnd_step (c : ascii) (s : string) :
  JS.trimEnd (String c s)
  = match JS.trimEnd s with
    | EmptyString => if JS.is_space c then EmptyString else String c EmptyString
    | r => String c r
    end.
Proof. reflexivity. Qed.

Lemma trimEnd_idem (s : string) : JS.trimEnd (JS.trimEnd s) = JS.trimEnd s.
Proof.
  induction s as [|c s IH]; [reflexivity|]. rewrite trimEnd_step.
  destruct (JS.trimEnd s) as [|d r] eqn:E.
  - destruct (JS.is_space c) eqn:Hc; [reflexivity|]. simpl. now rewrite Hc.
  - rewrite trimEnd_step, IH. reflexivity.
Qed.

(** A non-empty trimmed text begins with a character that is not
    whitespace, and trimming it again changes nothing. *)
Lemma trim_head (s : string) :
  JS.trim s = "" \/ exists c r, JS.trim s = String c r /\ JS.is_space c = false.
Proof.
  unfold JS.trim. destruct (trimStart_head s) as [->|(c & r & -> & H)]; [now left|].
  right. rewrite (trimEnd_cons_nonspace c r H). now exists c, (JS.trimEnd r).
Qed.

Lemma trim_idem (s : string) : JS.trim (JS.trim s) = JS.trim s.
Proof.
  destruct (trim_head s) as [->|(c & r & E & H)]; [reflexivity|].
  unfold JS.trim at 1. rewrite E, (trimStart_nonspace c r H), <- E.
  unfold JS.trim. apply trimEnd_idem.
Qed.

Lemma trim_trimStart (s : string) : JS.trim (JS.trimStart s) = JS.trim s.
Proof. unfold JS.trim. now rewrite trimStart_idem. Qed.

(** *** The matcher on the three patterns *)

(** The greedy whitespace star hands the continuation what [trimStart]
    keeps, when the continuation accepts that. *)
Lemma star_greedy_space (s : string) (k : string -> option JS.captures) (r : JS.captures) :
  k (JS.trimStart s) = Some r -> JS.star_greedy JS.is_space s k = Some r.
Proof.
  induction s as [|c s IH]; intros H; [exact H|]. simpl in *.
  destruct (JS.is_space c); [now rewrite IH | exact H].
Qed.

Lemma star_lazy_step (c : ascii) (s : string) (k : string -> option JS.captures) :
  JS.star_lazy JS.any_char (String c s) k
  = match k (String c s) with
    | Some r => Some r
    | None => JS.star_lazy JS.any_char s k
    end.
Proof. reflexivity. Qed.

(** The lazy star skips every position at which the continuation fails. *)
Lemma star_lazy_skip (x tail : string) (k : string -> option JS.captures) :
  (forall y, y <> "" -> k (y ++ tail) = None) ->
  JS.star_lazy JS.any_char (x ++ tail) k = JS.star_lazy JS.any_char tail k.
Proof.
  intros Hk. induction x as [|c x IH]; [reflexivity|].
  rewrite append_cons, star_lazy_step, <- append_cons, Hk by discriminate.
  exact IH.
Qed.

Lemma star_greedy_step (c : ascii) (s : string) (k : string -> option JS.captures) :
  JS.star_greedy JS.any_char (String c s) k
  = match JS.star_greedy JS.any_char s k with
    | Some r => Some r
    | None => k (String c s)
    end.
Proof. reflexivity. Qed.

(** The greedy star takes the last position at which the continuation
    succeeds: a success further right wins. *)
Lemma star_greedy_later (x tail : string) (k : string -> option JS.captures) (r : JS.captures) :
  JS.star_greedy JS.any_char tail k = Some r ->
  JS.star_greedy JS.any_char (x ++ tail) k = Some r.
Proof.
  intros H. induction x as [|c x IH]; [exact H|].
  now rewrite append_cons, star_greedy_step, IH.
Qed.

Lemma inline_match (s : string) :
  JS.match_anchored inlineCodeRegex (inline_wrapped s) = Some (Some s).
Proof.
  unfold JS.match_anchored, inlineCodeRegex, inline_wrapped, backtick.
  rewrite append_cons. cbn [JS.rmatch].
  change ("" ++ s ++ "`") with (s ++ "`"). rewrite Ascii.eqb_refl.
  rewrite star_lazy_skip.
  - rewrite star_lazy_step. cbn. now rewrite consumed_prefix.
  - intros y Hy. destruct y as [|a y]; [contradiction|]. rewrite append_cons.
    destruct (Ascii.eqb "`" a); [|reflexivity]. destruct y; reflexivity.
Qed.

Lemma rmatch_lit (p s : string) (cap : JS.captures)
    (k : string -> JS.captures -> option JS.captures) :
  JS.rmatch (JS.RLit p) (p ++ s) cap k = k s cap.
Proof.
  revert k. induction p as [|c p IH]; intros k; [reflexivity|].
  rewrite append_cons. cbn [JS.RLit JS.rmatch]. rewrite Ascii.eqb_refl. apply IH.
Qed.

Lemma closing_fence_only (z : string) (cap : JS.captures)
    (k : string -> JS.captures -> option JS.captures) :
  JS.rmatch closing_fence z cap k <> None -> z = NL ++ "```" \/ z = "```".
Proof.
  unfold closing_fence, NL.
  destruct z as [|a [|b [|c [|d [|e z]]]]]; cbn [JS.rmatch JS.RLit];
    repeat match goal with
           | |- context [Ascii.eqb ?x ?y] =>
               destruct (Ascii.eqb_spec x y); subst; try discriminate
           end;
    cbn [JS.rmatch JS.RLit]; try tauto;
    try (intros _; now left); try (intros _; now right).
Qed.

Lemma closing_fence_accepts (cap : JS.captures)
    (k : string -> JS.captures -> option JS.captures) (r : JS.captures) :
  k "" cap = Some r -> JS.rmatch closing_fence (String LF "```") cap k = Some r.
Proof.
  intros H. unfold closing_fence. cbn [JS.rmatch JS.RLit].
  rewrite !Ascii.eqb_refl. cbn [JS.rmatch JS.RLit]. now rewrite H.
Qed.

Lemma trimStart_app (s t : string) :
  JS.trimStart s <> "" -> JS.trimStart (s ++ t) = JS.trimStart s ++ t.
Proof.
  induction s as [|c s IH]; intros H; [contradiction|].
  rewrite append_cons. simpl in *. destruct (JS.is_space c); [now apply IH | reflexivity].
Qed.

Lemma fenced_match (s : string) :
  JS.trimStart s <> "" ->
  JS.match_anchored codeBlockRegex (fenced s) = Some (Some (JS.trimStart s)).
Proof.
  intros Hne.
  destruct (trimStart_head s) as [E|(c0 & r0 & E & Hc0)]; [contradiction|].
  unfold JS.match_anchored, codeBlockRegex, fenced.
  change ("```json" ++ NL ++ s ++ NL ++ "```")
    with ("```" ++ "json" ++ NL ++ s ++ NL ++ "```").
  cbn [JS.rmatch]. rewrite rmatch_lit. rewrite rmatch_lit.
  set (tail := NL ++ "```").
  assert (Hin : JS.star_greedy JS.is_space (NL ++ s ++ tail)
                  (fun s' =>
                     match JS.rmatch (JS.RChar LF) s' None
                             (fun s'0 cap' =>
                                JS.star_lazy JS.any_char s'0
                                  (fun s'1 =>
                                     JS.rmatch closing_fence s'1 (Some (JS.consumed s'0 s'1))
                                       (fun _ cap => Some cap))) with
                     | Some x => Some x
                     | None =>
                         JS.star_lazy JS.any_char s'
                           (fun s'1 =>
                              JS.rmatch closing_fence s'1 (Some (JS.consumed s' s'1))
                                (fun _ cap => Some cap))
                     end)
                = Some (Some (JS.trimStart s))).
  { apply star_greedy_space.
    change (NL ++ s ++ tail) with (String LF (s ++ tail)).
    change (JS.trimStart (String LF (s ++ tail))) with (JS.trimStart (s ++ tail)).
    rewrite (trimStart_app s tail Hne), E, append_cons.
    cbn [JS.rmatch].
    destruct (Ascii.eqb_spec LF c0) as [<-|_]; [discriminate Hc0|].
    rewrite <- append_cons. rewrite star_lazy_skip.
    - subst tail. change (NL ++ "```") with (String LF "```").
      rewrite star_lazy_step.
      rewrite (closing_fence_accepts _ _ (Some (JS.consumed (String c0 r0 ++ String LF "```")
                                                      (String LF "```")))).
      + now rewrite consumed_prefix.
      + reflexivity.
    - intros y Hy.
      destruct (JS.rmatch closing_fence (y ++ tail) _ _) eqn:Hm; [|reflexivity].
      exfalso.
      assert (Hlen : (5 <= String.length (y ++ tail))%nat).
      { rewrite length_append. destruct y; [contradiction|]. subst tail. simpl. lia. }
      destruct (closing_fence_only (y ++ tail)
                  (Some (JS.consumed (String c0 r0 ++ tail) (y ++ tail)))
                  (fun _ cap => Some cap)) as [Hz|Hz];
        [rewrite Hm; discriminate | rewrite Hz in Hlen; simpl in Hlen; lia
         | rewrite Hz in Hlen; simpl in Hlen; lia]. }
  match goal with
  | |- match ?X with Some x => Some x | None => _ end = _ =>
      replace X with (Some (Some (JS.trimStart s))) by (symmetry; exact Hin)
  end.
  reflexivity.
Qed.

(** Neither anchored pattern matches a text that does not begin with a
    backtick, and the code-block pattern needs three. *)
Lemma anchored_need_backtick (c : ascii) (r : string) :
  c <> "`"%char ->
  JS.match_anchored codeBlockRegex (String c r) = None
  /\ JS.match_anchored inlineCodeRegex (String c r) = None
  /\ JS.match_anchored codeBlockRegex (String "`" (String c r)) = None.
Proof.
  intros Hc. unfold JS.match_anchored, codeBlockRegex, inlineCodeRegex.
  cbn [JS.rmatch JS.RLit]. rewrite Ascii.eqb_refl.
  destruct (Ascii.eqb_spec "`" c) as [<-|_]; [contradiction|]. now repeat split.
Qed.

(** The group of [jsonRegex] on a text that opens with [o] and closes with
    [c]: the greedy star runs to the last character, so the whole text is
    captured. *)
Lemma bracketed_match (o c : ascii) (m : string) (cap : JS.captures) :
  let t := String o (m ++ String c "") in
  JS.rmatch (JS.RSeq (JS.RChar o) (JS.RSeq (JS.RStar JS.any_char) (JS.RChar c))) t cap
    (fun s' _ => Some (Some (JS.consumed t s')))
  = Some (Some t).
Proof.
  intros t. subst t. cbn [JS.rmatch]. rewrite Ascii.eqb_refl.
  rewrite (star_greedy_later m (String c "") _
             (Some (JS.consumed (String o (m ++ String c "")) ""))).
  - unfold JS.consumed. cbn [String.length]. rewrite Nat.sub_0_r.
    change (S (String.length (m ++ String c "")))
      with (String.length (String o (m ++ String c ""))).
    now rewrite substring_all.
  - rewrite star_greedy_step. cbn [JS.star_greedy]. now rewrite Ascii.eqb_refl.
Qed.

Lemma ends_with_split (c : ascii) (s : string) :
  ends_with c s = true -> exists m, s = m ++ String c "".
Proof.
  induction s as [|x s IH]; [discriminate|].
  destruct s as [|y s].
  - simpl. intros H. apply Ascii.eqb_eq in H. subst. now exists "".
  - intros H. destruct (IH H) as [m Hm]. exists (String x m).
    now rewrite append_cons, <- Hm.
Qed.

Lemma startsWith_char (x c : ascii) (t : string) :
  JS.startsWith (String x t) (String c "") = Ascii.eqb c x.
Proof. cbn [JS.startsWith]. destruct t; destruct (Ascii.eqb c x); reflexivity. Qed.

Lemma rmatch_json (t : string) :
  JS.rmatch jsonRegex t None (fun _ cap => Some cap)
  = match JS.rmatch brace_alt t None (fun s' _ => Some (Some (JS.consumed t s'))) with
    | Some x => Some x
    | None => JS.rmatch bracket_alt t None (fun s' _ => Some (Some (JS.consumed t s')))
    end.
Proof. reflexivity. Qed.

Lemma match_search_step (r : JS.regex) (x : ascii) (t : string) :
  JS.match_search r (String x t)
  = match JS.rmatch r (String x t) None (fun _ cap => Some cap) with
    | Some y => Some y
    | None => JS.match_search r t
    end.
Proof. reflexivity. Qed.

Lemma search_object (t : string) :
  JS.startsWith t "{" = true -> ends_with "}" t = true ->
  JS.match_search jsonRegex t = Some (Some t).
Proof.
  intros Hs He. destruct (ends_with_split _ _ He) as [m Hm].
  destruct t as [|x t']; [discriminate|].
  rewrite startsWith_char in Hs. apply Ascii.eqb_eq in Hs. subst x.
  destruct m as [|x m]; [discriminate|]. rewrite append_cons in Hm.
  injection Hm as <- ->.
  rewrite match_search_step, rmatch_json. unfold brace_alt.
  now rewrite (bracketed_match "{" "}" m None).
Qed.

Lemma search_array (t : string) :
  JS.startsWith t "[" = true -> ends_with "]" t = true ->
  JS.match_search jsonRegex t = Some (Some t).
Proof.
  intros Hs He. destruct (ends_with_split _ _ He) as [m Hm].
  destruct t as [|x t']; [discriminate|].
  rewrite startsWith_char in Hs. apply Ascii.eqb_eq in Hs. subst x.
  destruct m as [|x m]; [discriminate|]. rewrite append_cons in Hm.
  injection Hm as <- ->.
  rewrite match_search_step, rmatch_json. unfold bracket_alt.
  rewrite (bracketed_match "[" "]" m None). reflexivity.
Qed.

(** Without the closing character the greedy star finds no place to
    stop. *)
Lemma star_greedy_no_close (c : ascii) (s : string) (k : string -> option JS.captures) :
  (forall z, k z <> None -> exists z', z = String c z') ->
  contains_char c s = false ->
  JS.star_greedy JS.any_char s k = None.
Proof.
  intros Hk. induction s as [|x s IH]; intros Hc.
  - simpl. destruct (k "") eqn:E; [|reflexivity].
    destruct (Hk "") as [z' Hz]; [rewrite E|]; discriminate.
  - simpl in Hc. apply orb_false_elim in Hc as [Hx Hs].
    rewrite star_greedy_step, IH by exact Hs.
    destruct (k (String x s)) eqn:E; [|reflexivity].
    destruct (Hk (String x s)) as [z' Hz]; [rewrite E; discriminate|].
    injection Hz as -> _. now rewrite Ascii.eqb_refl in Hx.
Qed.

Lemma close_only (c : ascii) (s0 : string) (z : string) :
  JS.rmatch (JS.RChar c) z None (fun s' _ => Some (Some (JS.consumed s0 s'))) <> None ->
  exists z', z = String c z'.
Proof.
  destruct z as [|c' z]; cbn [JS.rmatch]; [contradiction|].
  destruct (Ascii.eqb_spec c c'); [subst; eauto | contradiction].
Qed.

Lemma alt_plain (o c x : ascii) (t : string) :
  (Ascii.eqb o x && contains_char c t) = false ->
  JS.rmatch (JS.RSeq (JS.RChar o) (JS.RSeq (JS.RStar JS.any_char) (JS.RChar c)))
    (String x t) None (fun s' _ => Some (Some (JS.consumed (String x t) s')))
  = None.
Proof.
  intros H. cbn [JS.rmatch]. destruct (Ascii.eqb o x); [|reflexivity].
  simpl in H. apply star_greedy_no_close with (c := c); [|exact H].
  intros z. apply close_only.
Qed.

Lemma search_plain (t : string) :
  span_from "{" "}" t = false -> span_from "[" "]" t = false ->
  JS.match_search jsonRegex t = None.
Proof.
  induction t as [|x t IH]; intros H1 H2; [reflexivity|].
  simpl in H1, H2.
  apply orb_false_elim in H1 as [H1 H1']. apply orb_false_elim in H2 as [H2 H2'].
  rewrite match_search_step, rmatch_json. unfold brace_alt, bracket_alt.
  rewrite (alt_plain "{" "}" x t H1), (alt_plain "[" "]" x t H2).
  now apply IH.
Qed.

Lemma trim_inline_wrapped (s : string) : JS.trim (inline_wrapped s) = inline_wrapped s.
Proof.
  unfold JS.trim, inline_wrapped, backtick. rewrite append_cons.
  rewrite trimStart_nonspace by reflexivity.
  change (String "`" ("" ++ s ++ "`")) with (String "`" s ++ String "`" "").
  now apply trimEnd_keep.
Qed.

Lemma trim_fenced (s : string) : JS.trim (fenced s) = fenced s.
Proof.
  unfold JS.trim, fenced.
  change ("```json" ++ NL ++ s ++ NL ++ "```") with (String "`" ("``json" ++ NL ++ s ++ NL ++ "```")).
  rewrite trimStart_nonspace by reflexivity.
  replace (String "`" ("``json" ++ NL ++ s ++ NL ++ "```"))
    with (("```json" ++ NL ++ s ++ NL ++ "``") ++ String "`" "").
  - now apply trimEnd_keep.
  - rewrite !string_app_assoc. reflexivity.
Qed.

Lemma truthy_nonempty (s : string) : s <> "" -> JS.truthy_string s = true.
Proof. intros H. unfold JS.truthy_string. now destruct s. Qed.

Lemma trim_nonempty_trimStart (s : string) : JS.trim s <> "" -> JS.trimStart s <> "".
Proof. unfold JS.trim. intros H E. rewrite E in H. now apply H. Qed.

(** The unwrapped form. *)
Lemma extract_unwrapped (s : string) :
  JS.trim s <> "" ->
  JS.startsWith (JS.trim s) "`" = false ->
  object_or_array_or_plain (JS.trim s) = true ->
  extractJsonFromResponse s = JS.trim s.
Proof.
  intros Hne Hbt Hshape. unfold extractJsonFromResponse.
  pose proof (trim_idem s) as Hidem.
  destruct (JS.trim s) as [|c0 r] eqn:E; [contradiction|].
  rewrite startsWith_char in Hbt.
  assert (Hc0 : c0 <> "`"%char) by (intros ->; discriminate).
  destruct (anchored_need_backtick c0 r Hc0) as (-> & -> & _).
  cbn [truthy_capture]. unfold object_or_array_or_plain in Hshape.
  apply orb_true_iff in Hshape as [Hshape|Hplain];
    [apply orb_true_iff in Hshape as [Ho|Ha]|].
  - apply andb_true_iff in Ho as [Hs He]. rewrite (search_object _ Hs He).
    cbn [truthy_capture]. rewrite truthy_nonempty by discriminate. exact Hidem.
  - apply andb_true_iff in Ha as [Hs He]. rewrite (search_array _ Hs He).
    cbn [truthy_capture]. rewrite truthy_nonempty by discriminate. exact Hidem.
  - apply negb_true_iff, orb_false_elim in Hplain as [H1 H2].
    now rewrite (search_plain _ H1 H2).
Qed.

(** The form in single backticks. *)
Lemma extract_inline (s : string) :
  JS.trim s <> "" ->
  JS.startsWith (JS.trim s) "`" = false ->
  extractJsonFromResponse (inline_wrapped s) = JS.trim s.
Proof.
  intros Hne Hbt. unfold extractJsonFromResponse. rewrite trim_inline_wrapped.
  assert (Hs : exists a s', s = String a s' /\ a <> "`"%char).
  { destruct s as [|a s']; [now contradict Hne|]. exists a, s'. split; [reflexivity|].
    intros ->. unfold JS.trim in Hbt.
    rewrite trimStart_nonspace, trimEnd_cons_nonspace in Hbt by reflexivity.
    rewrite startsWith_char in Hbt. discriminate. }
  destruct Hs as (a & s' & -> & Ha).
  assert (Hcb : JS.match_anchored codeBlockRegex (inline_wrapped (String a s')) = None)
    by apply (anchored_need_backtick a (s' ++ "`") Ha).
  rewrite Hcb, inline_match. cbn [truthy_capture].
  now rewrite truthy_nonempty by discriminate.
Qed.

(** The fenced form. *)
Lemma extract_fenced (s : string) :
  JS.trim s <> "" -> extractJsonFromResponse (fenced s) = JS.trim s.
Proof.
  intros Hne. unfold extractJsonFromResponse. rewrite trim_fenced.
  pose proof (trim_nonempty_trimStart s Hne) as Hts.
  rewrite (fenced_match s Hts). cbn [truthy_capture].
  rewrite truthy_nonempty by exact Hts. apply trim_trimStart.
Qed.

(** C6, as stated, fails: the JSON string whose content is a pair of
    braces parses successfully, but unwrapped the extraction returns the
    braces alone, and the structured parse then yields an empty object,
    while in single backticks the extraction returns the text itself, which
    parses to a string. *)
Lemma extractJson_quoted_braces :
  JS.JSON_parse quoted_braces = Some (JS.JString [123%N; 125%N])
  /\ JS.trim quoted_braces = quoted_braces
  /\ extractJsonFromResponse quoted_braces = "{}"
  /\ extractJsonFromResponse (inline_wrapped quoted_braces) = quoted_braces
  /\ extractJsonFromResponse (fenced quoted_braces) = quoted_braces
  /\ parse_structured None quoted_braces = Return (JS.JObject [])
  /\ parse_structured None (inline_wrapped quoted_braces)
     = Return (JS.JString [123%N; 125%N]).
Proof. repeat split; vm_compute; reflexivity. Qed.

(** C6 (amended): for every text [s] whose trimmed form is not empty, does
    not begin with a backtick, and either opens with a brace and closes
    with one, or opens with a bracket and closes with one (as every JSON
    object or array does), or holds no brace pair and no bracket pair (as
    numbers, literals and strings without such pairs do),
    [extractJsonFromResponse] returns the trimmed [s] whether the response
    is [s] itself, [s] in single backticks, or [s] fenced in a json code
    block; so the structured parse of the three responses is the same. *)
Theorem extractJsonFromResponse_three_forms :
  forall (s : string) (schema : option (JS.JSONValue -> bool)),
    JS.trim s <> "" ->
    JS.startsWith (JS.trim s) "`" = false ->
    object_or_array_or_plain (JS.trim s) = true ->
    extractJsonFromResponse s = JS.trim s
    /\ extractJsonFromResponse (inline_wrapped s) = JS.trim s
    /\ extractJsonFromResponse (fenced s) = JS.trim s
    /\ parse_structured schema (inline_wrapped s) = parse_structured schema s
    /\ parse_structured schema (fenced s) = parse_structured schema s.
Proof.
  intros s schema Hne Hbt Hshape.
  pose proof (extract_unwrapped s Hne Hbt Hshape) as H1.
  pose proof (extract_inline s Hne Hbt) as H2.
  pose proof (extract_fenced s Hne) as H3.
  split; [exact H1|]. split; [exact H2|]. split; [exact H3|].
  unfold parse_structured. rewrite H1, H2, H3. split; reflexivity.
Qed.

Lemma extractJsonFromResponse_three_forms_witness :
  let s := "  {" ++ JS.dquote ++ "tools" ++ JS.dquote ++ ": [1, 2]} " in
  let t := "{" ++ JS.dquote ++ "tools" ++ JS.dquote ++ ": [1, 2]}" in
  extractJsonFromResponse s = t
  /\ extractJsonFromResponse (inline_wrapped s) = t
  /\ extractJsonFromResponse (fenced s) = t
  /\ JS.JSON_parse t
     = Some (JS.JObject [([116%N; 111%N; 111%N; 108%N; 115%N],
                          JS.JArray [JS.JNumber 1; JS.JNumber 2])]).
Proof.
  intros s t.
  destruct (extractJsonFromResponse_three_forms s None) as (H1 & H2 & H3 & _).
  - vm_compute. discriminate.
  - vm_compute. reflexivity.
  - vm_compute. reflexivity.
  - split; [exact H1|]. split; [exact H2|]. split; [exact H3|]. vm_compute. reflexivity.
Defined.

(** ** Session health *)

Lemma riskScore_check_conversation (ctx : option SessionContext) (s : Signals) :
  riskScore (check_conversation ctx s)
  = riskScore s + (if long_conversation ctx then 2 else 0).
Proof.
  unfold check_conversation, long_conversation.
  destruct ctx as [[[n|] pa ci la st]|]; try (simpl; lia).
  unfold JS.truthy_Z.
  destruct (Z.ltb_spec 20 n); destruct (Z.eqb_spec n 0); simpl; lia.
Qed.

Lemma riskScore_check_repetition (ctx : option SessionContext) (s : Signals) :
  riskScore (check_repetition ctx s)
  = riskScore s + Z.of_nat (length (repeatedTools (actions_of ctx))).
Proof.
  unfold check_repetition, actions_of.
  destruct ctx as [[cl [actions|] ci la st]|]; try (simpl; lia).
  destruct (repeatedTools actions); simpl; lia.
Qed.

Lemma riskScore_check_keywords (request : string) (s : Signals) :
  riskScore (check_keywords request s)
  = riskScore s + Z.of_nat (length (foundKeywords request)).
Proof.
  unfold check_keywords. destruct (foundKeywords request); simpl; lia.
Qed.

Lemma riskScore_check_stuck (ctx : option SessionContext) (s : Signals) :
  riskScore (check_stuck ctx s) = riskScore s + (if stuck ctx then 3 else 0).
Proof.
  unfold check_stuck, stuck.
  destruct ctx as [[cl pa ci la [task|]]|]; try (simpl; lia).
  destruct (JS.truthy_string task); simpl; lia.
Qed.

(** The score the code computes, contribution by contribution. *)
Lemma riskScore_sum (ctx : option SessionContext) (userRequest : string) :
  riskScore (realityCheckSignals ctx userRequest)
  = (if long_conversation ctx then 2 else 0)
    + Z.of_nat (length (repeatedTools (actions_of ctx)))
    + Z.of_nat (length (foundKeywords (JS.toLowerCase userRequest)))
    + (if stuck ctx then 3 else 0).
Proof.
  unfold realityCheckSignals.
  rewrite riskScore_check_stuck, riskScore_check_keywords,
    riskScore_check_repetition, riskScore_check_conversation.
  simpl. lia.
Qed.

Lemma includes_elem (l : list string) (x : string) :
  JS.includes l x = true <-> x ∈ l.
Proof.
  unfold JS.includes. rewrite existsb_exists. split.
  - intros (y & Hy & E). apply String.eqb_eq in E. subst y. now apply list_elem_of_In.
  - intros H. exists x. split; [now apply list_elem_of_In | apply String.eqb_refl].
Qed.

Lemma array_of_set_superset (l acc : list string) (x : string) :
  x ∈ acc \/ x ∈ l ->
  x ∈ fold_left (fun a y => if JS.includes a y then a else (a ++ [y])%list) l acc.
Proof.
  revert acc. induction l as [|y l IH]; intros acc H; simpl.
  - destruct H as [H|H]; [exact H | now apply not_elem_of_nil in H].
  - apply IH. destruct H as [H|H].
    + left. destruct (JS.includes acc y); [exact H|]. apply elem_of_app. now left.
    + apply elem_of_cons in H. destruct H as [->|H]; [|now right].
      left. destruct (JS.includes acc y) eqn:E; [now apply includes_elem|].
      apply elem_of_app. right. now constructor.
Qed.

Lemma array_of_set_elem (l : list string) (x : string) :
  x ∈ array_of_set l <-> x ∈ l.
Proof.
  split; intros H.
  - apply array_of_set_subset in H. destruct H as [H|H]; [|exact H].
    now apply not_elem_of_nil in H.
  - apply array_of_set_superset. now right.
Qed.

(** Counting the elements that pass a test does not depend on the order. *)
Lemma filter_length_Permutation {A : Type} (f : A -> bool) (l l' : list A) :
  l ≡ₚ l' -> length (List.filter f l) = length (List.filter f l').
Proof.
  induction 1 as [|x l l' _ IH|x y l|l l' l'' _ IH1 _ IH2]; simpl.
  - reflexivity.
  - destruct (f x); simpl; congruence.
  - destruct (f x), (f y); reflexivity.
  - congruence.
Qed.

Lemma filter_length_map {A B : Type} (f : A -> bool) (g : B -> bool) (h : A -> B)
  (l : list A) :
  (forall x, x ∈ l -> f x = g (h x)) ->
  length (List.filter f l) = length (List.filter g (List.map h l)).
Proof.
  induction l as [|x l IH]; intros H; simpl; [reflexivity|].
  rewrite <- (H x) by now left.
  destruct (f x); simpl; rewrite IH; auto; intros y Hy; apply H; now right.
Qed.

Lemma filter_length_insert_index (f : string * CountValue -> bool)
  (e : Z * (string * CountValue)) (l : list (Z * (string * CountValue))) :
  length (List.filter f (List.map snd (insert_index e l)))
  = length (List.filter f (List.map snd (e :: l))).
Proof.
  induction l as [|x l IH]; [reflexivity|].
  simpl insert_index. destruct (fst x <? fst e); [|reflexivity].
  simpl in *. destruct (f (snd x)), (f (snd e)); simpl in *; lia.
Qed.

Lemma filter_length_sorted (f : string * CountValue -> bool)
  (l : list (Z * (string * CountValue))) :
  length (List.filter f (List.map snd (fold_right insert_index [] l)))
  = length (List.filter f (List.map snd l)).
Proof.
  induction l as [|e l IH]; [reflexivity|].
  simpl fold_right. rewrite filter_length_insert_index.
  simpl. destruct (f (snd e)); simpl; now rewrite IH.
Qed.

(** [Object.entries] reorders the properties and loses none. *)
Lemma Object_entries_filter_length (f : string * CountValue -> bool) (acc : Counts) :
  length (List.filter f (Object_entries acc)) = length (List.filter f acc).
Proof.
  unfold Object_entries.
  rewrite List.filter_app, List.length_app, filter_length_sorted.
  induction acc as [|kv acc IH]; [reflexivity|].
  simpl. destruct (array_index (fst kv)); simpl; destruct (f kv); simpl; lia.
Qed.

Lemma own_property_assign (acc : Counts) (key k : string) (v : CountValue) :
  own_property (assign acc key v) k
  = if String.eqb key k then Some v else own_property acc k.
Proof.
  induction acc as [|[k' v'] acc IH]; [reflexivity|].
  simpl. destruct (String.eqb_spec k' key) as [->|Hne]; simpl.
  - destruct (String.eqb key k); reflexivity.
  - rewrite IH. destruct (String.eqb_spec k' k) as [->|]; [|reflexivity].
    destruct (String.eqb_spec key k); [congruence | reflexivity].
Qed.

Lemma assign_keys (acc : Counts) (key k : string) (v : CountValue) :
  k ∈ List.map fst (assign acc key v) <-> k = key \/ k ∈ List.map fst acc.
Proof.
  induction acc as [|[k' v'] acc IH]; simpl.
  - rewrite list_elem_of_singleton. split; [now left|].
    intros [H|H]; [exact H | now apply not_elem_of_nil in H].
  - destruct (String.eqb_spec k' key) as [->|Hne]; simpl.
    + rewrite elem_of_cons. tauto.
    + rewrite !elem_of_cons, IH. tauto.
Qed.

Lemma assign_NoDup (acc : Counts) (key : string) (v : CountValue) :
  NoDup (List.map fst acc) -> NoDup (List.map fst (assign acc key v)).
Proof.
  induction acc as [|[k' v'] acc IH]; simpl; intros H.
  - apply NoDup_singleton.
  - destruct (String.eqb_spec k' key) as [->|Hne]; simpl; [exact H|].
    apply NoDup_cons in H as [Hk H]. apply NoDup_cons. split; [|now apply IH].
    rewrite assign_keys. intros [E|E]; [congruence | contradiction].
Qed.

Lemma own_property_keys (acc : Counts) (k : string) :
  own_property acc k <> None <-> k ∈ List.map fst acc.
Proof.
  induction acc as [|[k' v'] acc IH]; simpl.
  - split; [congruence | intros H; now apply not_elem_of_nil in H].
  - rewrite elem_of_cons, <- IH.
    destruct (String.eqb_spec k' k) as [->|Hne]; [split; [now left | congruence]|].
    split; [now right | intros [E|E]; [congruence | exact E]].
Qed.

Lemma own_property_entry (acc : Counts) (k : string) (v : CountValue) :
  NoDup (List.map fst acc) -> (k, v) ∈ acc -> own_property acc k = Some v.
Proof.
  induction acc as [|[k' v'] acc IH]; simpl; intros Hnd H.
  - now apply not_elem_of_nil in H.
  - apply NoDup_cons in Hnd as [Hk Hnd].
    apply elem_of_cons in H. destruct H as [E|H].
    + injection E as <- <-. now rewrite String.eqb_refl.
    + destruct (String.eqb_spec k' k) as [->|Hne]; [|now apply IH].
      exfalso. apply Hk. apply (list_elem_of_fmap_2 fst) in H. exact H.
Qed.

Lemma times_used_snoc (k a : string) (l : list string) :
  times_used k (l ++ [a])%list
  = (times_used k l + (if String.eqb a k then 1 else 0))%nat.
Proof.
  unfold times_used. rewrite List.filter_app, List.length_app. simpl.
  rewrite (String.eqb_sym k a). destruct (String.eqb a k); reflexivity.
Qed.

Lemma times_used_pos (k : string) (l : list string) :
  (0 < times_used k l)%nat <-> k ∈ l.
Proof.
  unfold times_used. induction l as [|a l IH]; simpl.
  - split; [lia | intros H; now apply not_elem_of_nil in H].
  - rewrite elem_of_cons. destruct (String.eqb_spec k a) as [->|Hne]; simpl.
    + split; [now left | lia].
    + rewrite IH. split; [now right | intros [E|E]; [congruence | exact E]].
Qed.

Lemma toolCounts_snoc (l : list string) (a : string) :
  toolCounts (l ++ [a])%list = count_tool (toolCounts l) a.
Proof. unfold toolCounts. now rewrite fold_left_app. Qed.

Lemma plain_not_proto (a : string) :
  JS.includes Object_prototype_keys a = false -> String.eqb a "__proto__" = false.
Proof.
  intros H. destruct (String.eqb_spec a "__proto__") as [->|]; [|reflexivity].
  vm_compute in H. discriminate.
Qed.

(** For plainly named actions the accumulator holds, for every action
    used, the number of its uses, under one key each. *)
Lemma toolCounts_plain (l : list string) :
  Forall (fun a => JS.includes Object_prototype_keys a = false) l ->
  NoDup (List.map fst (toolCounts l))
  /\ forall k,
       own_property (toolCounts l) k
       = if (0 <? times_used k l)%nat
         then Some (CountNumber (Z.of_nat (times_used k l))) else None.
Proof.
  induction l as [|a l IH] using rev_ind; intros Hpl.
  - split; [constructor | reflexivity].
  - apply Forall_app in Hpl as [Hl Ha].
    apply Forall_cons in Ha as [Ha _].
    destruct (IH Hl) as [Hnd Hown]. clear IH.
    rewrite toolCounts_snoc. unfold count_tool.
    rewrite (plain_not_proto a Ha), Ha.
    split; [now apply assign_NoDup|].
    intros k. rewrite own_property_assign, times_used_snoc.
    destruct (String.eqb_spec a k) as [->|Hne].
    + rewrite Hown. destruct (Nat.ltb_spec 0 (times_used k l)) as [Hp|Hz].
      * unfold JS.truthy_Z.
        destruct (Z.eqb_spec (Z.of_nat (times_used k l)) 0); [lia|]. simpl.
        destruct (Nat.ltb_spec 0 (times_used k l + 1)); [|lia].
        do 2 f_equal. lia.
      * destruct (Nat.ltb_spec 0 (times_used k l + 1)); [|lia].
        do 2 f_equal. lia.
    + rewrite Hown, Nat.add_0_r. reflexivity.
Qed.

(** For plainly named actions the code counts the tools the specification
    counts. *)
Lemma repeatedTools_plain (l : list string) :
  Forall (fun a => JS.includes Object_prototype_keys a = false) l ->
  length (repeatedTools l) = length (overused_tools l).
Proof.
  intros Hpl. destruct (toolCounts_plain l Hpl) as [Hnd Hown].
  unfold repeatedTools, overused_tools.
  rewrite Object_entries_filter_length.
  rewrite (filter_length_map _ (fun tool => (3 <? times_used tool l)%nat) fst).
  - apply filter_length_Permutation. apply NoDup_Permutation.
    + exact Hnd.
    + apply array_of_set_NoDup.
    + intros k. rewrite array_of_set_elem, <- own_property_keys, Hown, <- times_used_pos.
      destruct (Nat.ltb_spec 0 (times_used k l)); split; try congruence; lia.
  - intros [k v] Hkv. simpl.
    apply (own_property_entry _ _ _ Hnd) in Hkv. rewrite Hown in Hkv.
    destruct (0 <? times_used k l)%nat; [|discriminate].
    injection Hkv as <-. simpl.
    destruct (Nat.ltb_spec 3 (times_used k l)), (Z.ltb_spec 3 (Z.of_nat (times_used k l)));
      try reflexivity; lia.
Qed.

(** On plainly named actions the code computes the stated score. *)
Lemma riskScore_plain (ctx : option SessionContext) (userRequest : string) :
  plain_actions ctx ->
  riskScore (realityCheckSignals ctx userRequest) = stated_riskScore ctx userRequest.
Proof.
  intros Hpl. rewrite riskScore_sum. unfold stated_riskScore.
  now rewrite (repeatedTools_plain _ Hpl).
Qed.

(** The buckets: high from 5, medium from 2, low below. *)
Lemma risk_of_score_buckets (score : Z) :
  (risk_of_score score = high <-> 5 <= score)
  /\ (risk_of_score score = medium <-> 2 <= score < 5)
  /\ (risk_of_score score = low <-> score < 2).
Proof.
  unfold risk_of_score.
  destruct (Z.leb_spec 5 score), (Z.leb_spec 2 score);
    repeat split; intros; try lia; try congruence.
Qed.

Lemma performRealityCheck_bucket (ctx : option SessionContext) (userRequest : string) :
  Reality.hallucinationRisk (performRealityCheck ctx userRequest)
  = risk_of_score (riskScore (realityCheckSignals ctx userRequest)).
Proof. reflexivity. Qed.

(** The two sessions of the specification: 25 messages alone give medium,
    and a task the session is stuck on lifts that to high. *)
Lemma long_session_risk (userRequest task : string) :
  foundKeywords (JS.toLowerCase userRequest) = [] ->
  task <> "" ->
  Reality.hallucinationRisk (performRealityCheck (Some (long_session None)) userRequest)
  = medium
  /\ Reality.hallucinationRisk
       (performRealityCheck (Some (long_session (Some task))) userRequest)
     = high.
Proof.
  intros Hkw Htask. rewrite !performRealityCheck_bucket, !riskScore_sum, Hkw.
  destruct task as [|c task]; [congruence|]. split; reflexivity.
Qed.

(** C7.  The score is not always the stated one: the action counts are
    kept as properties of a plain object, which inherits from
    [Object.prototype].  A session that ran the action named [constructor]
    four times and asks for help scores 1 (the keyword only) and is rated
    low, whereas the stated score counts the overused tool as well, 2, which
    is rated medium. *)
Theorem performRealityCheck_misses_inherited_name :
  repeatedTools ["constructor"; "constructor"; "constructor"; "constructor"] = []
  /\ riskScore (realityCheckSignals (Some looping_session) "please help") = 1
  /\ Reality.hallucinationRisk (performRealityCheck (Some looping_session) "please help")
     = low
  /\ overused_tools (actions_of (Some looping_session)) = ["constructor"]
  /\ stated_riskScore (Some looping_session) "please help" = 2
  /\ risk_of_score (stated_riskScore (Some looping_session) "please help") = medium.
Proof. repeat split; vm_compute; reflexivity. Qed.

(** * Further properties of the sources: proofs *)

(** ** Provider configuration *)

Lemma loadAIConfig_built (env : Env) (c : AIConfig) :
  loadAIConfig env = Return c ->
  c = buildAIConfig env /\ validateProviderConfig c = Return tt.
Proof.
  unfold loadAIConfig.
  destruct (validateProviderConfig (buildAIConfig env)) as [[]|msg] eqn:E; [|discriminate].
  intros H. injection H as <-. now split.
Qed.

Lemma validateProviderConfig_key (c : AIConfig) :
  validateProviderConfig c = Return tt -> executionMode c = "full" ->
  JS.truthy_string (apiKey c) = true.
Proof.
  unfold validateProviderConfig, missingAzureVars. intros H Hm. rewrite Hm in H.
  cbn [String.eqb Ascii.eqb Bool.eqb negb] in H.
  destruct (JS.truthy_string (apiKey c)); [reflexivity|].
  destruct (String.eqb (provider c) "azure").
  - destruct (JS.truthy_opt_string (azureEndpoint c));
      destruct (JS.truthy_opt_string (azureDeployment c)); discriminate.
  - destruct (String.eqb (provider c) "openai"); discriminate.
Qed.

(** X1.  A configuration that [loadAIConfig] returns has AI execution
    enabled exactly when its mode is [full]: in full mode the key of the
    active provider is never empty, so [isAIExecutionEnabled] can only be
    false because of the mode. *)
Theorem loadAIConfig_enabled_iff_full :
  forall (env : Env) (c : AIConfig),
    loadAIConfig env = Return c ->
    (isAIExecutionEnabled c = true <-> executionMode c = "full")
    /\ (executionMode c = "full" -> apiKey c <> "").
Proof.
  intros env c H. destruct (loadAIConfig_built env c H) as [_ Hv].
  assert (Hkey : executionMode c = "full" -> JS.truthy_string (apiKey c) = true)
    by apply (validateProviderConfig_key c Hv).
  unfold isAIExecutionEnabled. split.
  - rewrite andb_true_iff, String.eqb_eq. split; [tauto | auto].
  - intros Hm E. specialize (Hkey Hm). rewrite E in Hkey. discriminate.
Qed.

Lemma loadAIConfig_enabled_iff_full_witness :
  isAIExecutionEnabled (buildAIConfig keyed_env) = true
  /\ apiKey (buildAIConfig keyed_env) <> "".
Proof.
  pose proof (loadAIConfig_enabled_iff_full keyed_env (buildAIConfig keyed_env) eq_refl)
    as [Hiff Hkey].
  split; [apply Hiff; reflexivity | apply Hkey; reflexivity].
Defined.

(** X2.  [getRecommendedModel] only ever answers with one of two models:
    the cheapest one, [openai/gpt-4o-mini], for a cost-sensitive caller
    whose use case is [quick-analysis], [simple-tasks] or [cost-effective],
    and [anthropic/claude-3-sonnet] in every other case, whatever the use
    case is.  The answer is always the id of an entry of
    [AVAILABLE_MODELS]. *)
Theorem getRecommendedModel_choice :
  forall (useCase : string) (costSensitive : bool),
    getRecommendedModel useCase costSensitive
    = (if costSensitive && JS.includes economy_use_cases useCase
       then "openai/gpt-4o-mini" else "anthropic/claude-3-sonnet")
    /\ getRecommendedModel useCase costSensitive ∈ List.map (fun km => id (snd km)) AVAILABLE_MODELS.
Proof.
  intros useCase costSensitive.
  assert (H : getRecommendedModel useCase costSensitive
              = (if costSensitive && JS.includes economy_use_cases useCase
                 then "openai/gpt-4o-mini" else "anthropic/claude-3-sonnet")).
  { unfold getRecommendedModel, economy_use_cases, JS.includes, AVAILABLE_MODELS.
    cbn [List.map snd useCases existsb List.filter].
    change (String.eqb "analysis" "analysis") with true.
    change (String.eqb "analysis" "quick-analysis") with false.
    change (String.eqb "analysis" "simple-tasks") with false.
    change (String.eqb "analysis" "cost-effective") with false.
    cbn [orb]. rewrite !orb_true_r. cbn [orb]. rewrite !orb_false_r.
    destruct (String.eqb useCase "quick-analysis"),
      (String.eqb useCase "simple-tasks"),
      (String.eqb useCase "cost-effective"), costSensitive; reflexivity. }
  split; [exact H|]. rewrite H.
  destruct (costSensitive && _); cbn; set_solver.
Qed.

Lemma strip_trailing_slash_added (e : string) : strip_trailing_slash (e ++ "/") = e.
Proof.
  induction e as [|c e IH]; [reflexivity|].
  rewrite append_cons. destruct e as [|c' e]; [reflexivity|].
  rewrite append_cons in *. cbn [strip_trailing_slash] in *. now rewrite IH.
Qed.

Lemma strip_trailing_slash_none (e : string) :
  ends_with "/" e = false -> strip_trailing_slash e = e.
Proof.
  induction e as [|c e IH]; [reflexivity|].
  destruct e as [|c' e].
  - cbn [ends_with strip_trailing_slash]. intros H.
    rewrite Ascii.eqb_sym, H. reflexivity.
  - intros H. cbn [strip_trailing_slash]. f_equal. apply IH. exact H.
Qed.

Lemma env_or_truthy (env : Env) (name : string) :
  JS.truthy_string (env_or env name "") = true ->
  env !! name = Some (env_or env name "") /\ env_or env name "" <> "".
Proof.
  unfold env_or, JS.or_string.
  destruct (env !! name) as [x|]; cbn [default from_option]; unfold Datatypes.id.
  - destruct (JS.truthy_string x) eqn:E; [|intros H; vm_compute in H; discriminate].
    intros _. split; [reflexivity|]. intros Hx. rewrite Hx in E. discriminate.
  - intros H. vm_compute in H. discriminate.
Qed.

(** X3.  A configuration loaded for Azure in full mode: the endpoint and
    the deployment are the non-empty values of their variables; the base
    URL is the endpoint without one trailing slash, followed by
    [/openai/deployments/] and the deployment; and the default model is
    the deployment name, whatever [AI_MODEL] is set to.  Writing the
    endpoint with or without a trailing slash gives the same base URL. *)
Theorem loadAIConfig_azure :
  forall (env : Env) (c : AIConfig),
    loadAIConfig env = Return c ->
    provider c = "azure" -> executionMode c = "full" ->
    (exists e d,
        env !! "AZURE_OPENAI_ENDPOINT" = Some e /\ e <> ""
        /\ env !! "AZURE_OPENAI_DEPLOYMENT" = Some d /\ d <> ""
        /\ azureEndpoint c = Some e /\ azureDeployment c = Some d
        /\ baseURL c = strip_trailing_slash e ++ "/openai/deployments/" ++ d
        /\ defaultModel c = d)
    /\ (forall e, strip_trailing_slash (e ++ "/") = e)
    /\ (forall e, ends_with "/" e = false -> strip_trailing_slash e = e).
Proof.
  intros env c H Hp Hm.
  split; [|split; [apply strip_trailing_slash_added | apply strip_trailing_slash_none]].
  destruct (loadAIConfig_built env c H) as [-> Hv].
  unfold validateProviderConfig, missingAzureVars in Hv. rewrite Hm, Hp in Hv.
  cbn [String.eqb Ascii.eqb Bool.eqb negb] in Hv.
  revert Hp Hv. unfold buildAIConfig.
  destruct (String.eqb_spec (env_or env "AI_PROVIDER" "openrouter") "azure") as [Ep|Ep];
    [cbn [provider]; intros _
    |destruct (String.eqb _ "openai"); cbn [provider]; congruence].
  cbn [azureEndpoint azureDeployment apiKey baseURL defaultModel].
  unfold include_if_truthy. cbn [JS.truthy_opt_string].
  destruct (JS.truthy_string (env_or env "AZURE_OPENAI_ENDPOINT" "")) eqn:Ee;
    destruct (JS.truthy_string (env_or env "AZURE_OPENAI_DEPLOYMENT" "")) eqn:Ed;
    destruct (JS.truthy_string (env_or env "AZURE_OPENAI_API_KEY" "")) eqn:Ek;
    cbn [JS.truthy_opt_string]; rewrite ?Ee, ?Ed, ?Ek;
    cbn [app length Nat.ltb Nat.leb]; try discriminate.
  intros _.
  destruct (env_or_truthy env "AZURE_OPENAI_ENDPOINT" Ee) as [He1 He2].
  destruct (env_or_truthy env "AZURE_OPENAI_DEPLOYMENT" Ed) as [Hd1 Hd2].
  exists (env_or env "AZURE_OPENAI_ENDPOINT" ""), (env_or env "AZURE_OPENAI_DEPLOYMENT" "").
  repeat split; try assumption.
  unfold JS.or_string at 1. now rewrite Ed.
Qed.

Lemma loadAIConfig_azure_witness :
  baseURL (buildAIConfig azure_env)
    = "https://adr.openai.azure.com/openai/deployments/gpt-4-turbo"
  /\ defaultModel (buildAIConfig azure_env) = "gpt-4-turbo".
Proof.
  destruct (loadAIConfig_azure azure_env (buildAIConfig azure_env) eq_refl eq_refl eq_refl)
    as [(e & d & He & _ & Hd & _ & _ & _ & Hb & Hm) _].
  vm_compute in He. injection He as <-. vm_compute in Hd. injection Hd as <-.
  split; [rewrite Hb; reflexivity | exact Hm].
Defined.

(** An executor without a client, holding the configuration the
    environment gives, refuses every prompt. *)
Lemma executePrompt_no_client (env : Env) (prompt : string) (options : Options)
    (ex : AIExecutor) (w : World) :
  loadAIConfig env = Return (config ex) ->
  client ex = None ->
  executePrompt env prompt options ex w
  = (Throw (createError "AI_UNAVAILABLE" false None), ex, w).
Proof.
  intros Hl Hc.
  assert (Hr : reloadConfigIfNeeded env ex = Return ex).
  { unfold reloadConfigIfNeeded. rewrite Hl. now rewrite !String.eqb_refl. }
  unfold executePrompt, isAvailable. rewrite !Hr, Hc. reflexivity.
Qed.

(** X4.  Constructing an executor never throws on a setting that is out of
    range: [initializeClient] swallows the error of [validateAIConfig] and
    leaves the client unset.  Such an executor, and one built in a mode
    other than [full], then refuses every prompt with the non-retryable
    error [AI_UNAVAILABLE], without sending anything to the provider and
    without touching its own state. *)
Theorem executePrompt_refused_without_client :
  forall (env : Env) (ex : AIExecutor) (prompt : string) (options : Options) (w : World),
    newAIExecutor env None = Return ex ->
    (isAIExecutionEnabled (config ex) = false
     \/ exists msg, validateAIConfig (config ex) = Throw msg) ->
    client ex = None
    /\ executePrompt env prompt options ex w
       = (Throw (AIExecutionError "AI_UNAVAILABLE" false None), ex, w).
Proof.
  intros env ex prompt options w Hnew Hbad.
  unfold newAIExecutor in Hnew.
  destruct (loadAIConfig env) as [c|msg] eqn:Hl; [|discriminate].
  injection Hnew as <-.
  set (ex0 := {| client := None; config := c; cache := ∅ |}) in *.
  rewrite initializeClient_config in Hbad. cbn [config ex0] in Hbad.
  assert (Hc : client (initializeClient ex0) = None).
  { unfold initializeClient. cbn [config ex0].
    destruct Hbad as [Hd|[m Hv]].
    - now rewrite Hd.
    - rewrite Hv. now destruct (negb _). }
  split; [exact Hc|].
  apply executePrompt_no_client; [|exact Hc].
  now rewrite initializeClient_config.
Qed.

Lemma executePrompt_refused_without_client_witness :
  validateAIConfig (config small_budget_executor)
    = Throw "Max tokens must be between 100 and 8000"
  /\ executePrompt small_budget_env "ping" [] small_budget_executor echo_world
     = (Throw (AIExecutionError "AI_UNAVAILABLE" false None), small_budget_executor, echo_world).
Proof.
  split; [reflexivity|].
  exact (proj2 (executePrompt_refused_without_client small_budget_env small_budget_executor
                  "ping" [] echo_world eq_refl
                  (or_intror (ex_intro _ "Max tokens must be between 100 and 8000" eq_refl)))).
Defined.

(** ** Initialising the client *)



(** ** The executor: one run of [executePrompt], taken apart *)

Section RetryRuns.

Variables (startTime : Z) (prompt model cacheKey : string) (options : Options).

(** With the retry count already above the maximum the loop body never
    runs. *)
Lemma retry_loop_skipped (fuel : nat) (rc : Z) (ex : AIExecutor) (w : World) :
  maxRetries (config ex) < rc ->
  retry_loop fuel rc startTime prompt model cacheKey options ex w
  = Some (Throw (createError "AI_UNEXPECTED_ERROR" false None), ex, w).
Proof.
  intros H. destruct fuel; cbn [retry_loop];
    destruct (Z.leb_spec rc (maxRetries (config ex))); solve [lia | reflexivity].
Qed.

(** Every finished run of the loop body is a first attempt followed by
    [k] waits and retries, all with the same request; a result reports
    [k] as its retry count, and a failure means that the retries are used
    up. *)
Lemma retry_loop_trace (fuel : nat) (rc : Z) (ex : AIExecutor) (w : World)
    (out : outcome JSError AIExecutionResult) (ex' : AIExecutor) (w' : World) :
  retry_loop fuel rc startTime prompt model cacheKey options ex w = Some (out, ex', w') ->
  rc <= maxRetries (config ex) ->
  let req := build_request prompt model options (config ex) in
  exists k : nat,
    events w' = (events w ++ Call req :: retry_trace req k (rc + 1))%list
    /\ provider_reply w' = provider_reply w
    /\ rc + Z.of_nat k <= maxRetries (config ex)
    /\ match out with
       | Return r =>
           retryCount (metadata r) = rc + Z.of_nat k
           /\ executionTime (metadata r) = now w' - startTime
           /\ timestamp (metadata r) = now w'
       | Throw e =>
           rc + Z.of_nat k = maxRetries (config ex)
           /\ exists e0, e = AIExecutionError "AI_EXECUTION_FAILED" false (Some e0)
       end.
Proof.
  intros Hrun Hrc req. revert rc w Hrun Hrc.
  induction fuel as [|fuel IH]; intros rc w Hrun Hrc; cbn [retry_loop] in Hrun.
  - destruct (Z.leb_spec rc (maxRetries (config ex))); [discriminate | lia].
  - destruct (Z.leb_spec rc (maxRetries (config ex))); [|lia].
    fold req in Hrun.
    pose proof (call_provider_events req w) as [Hev Hpr].
    destruct (call_provider req w) as [[c|e] w1]; cbn [snd] in Hev, Hpr.
    + injection Hrun as <- <- <-. exists 0%nat. cbn [retry_trace].
      rewrite Z.add_0_r. repeat split; try assumption; reflexivity.
    + destruct (Z.ltb_spec (maxRetries (config ex)) (rc + 1)).
      * injection Hrun as <- <- <-. exists 0%nat. cbn [retry_trace].
        repeat split; try assumption; try lia. now exists e.
      * apply IH in Hrun; [|lia].
        destruct Hrun as (k & Hev' & Hpr' & Hk & Hout).
        exists (S k). cbn [retry_trace].
        split; [|split; [|split]].
        -- rewrite Hev'. cbn [events sleep]. rewrite Hev, <- !app_assoc. reflexivity.
        -- rewrite Hpr'. cbn [provider_reply sleep]. exact Hpr.
        -- lia.
        -- destruct out as [r|e'].
           ++ destruct Hout as (-> & H2 & H3). repeat split; try assumption. lia.
           ++ destruct Hout as [H1 H2]. split; [lia | exact H2].
Qed.

End RetryRuns.

Lemma reloadConfigIfNeeded_load (env : Env) (ex : AIExecutor) :
  match loadAIConfig env with
  | Throw msg => reloadConfigIfNeeded env ex = Throw (PlainError msg)
  | Return c =>
      exists ex1, reloadConfigIfNeeded env ex = Return ex1
                  /\ cache ex1 = cache ex
                  /\ apiKey (config ex1) = apiKey c
                  /\ executionMode (config ex1) = executionMode c
                  /\ defaultModel (config ex1) = defaultModel c
                  /\ (apiKey (config ex) = apiKey c ->
                      executionMode (config ex) = executionMode c ->
                      defaultModel (config ex) = defaultModel c -> ex1 = ex)
  end.
Proof.
  unfold reloadConfigIfNeeded. destruct (loadAIConfig env) as [c|msg]; [|reflexivity].
  destruct (String.eqb_spec (apiKey (config ex)) (apiKey c)) as [E1|E1];
    destruct (String.eqb_spec (executionMode (config ex)) (executionMode c)) as [E2|E2];
    destruct (String.eqb_spec (defaultModel (config ex)) (defaultModel c)) as [E3|E3];
    cbn [negb orb]; eexists; (split; [reflexivity|]);
    rewrite ?initializeClient_cache, ?initializeClient_config; cbn [cache config];
    repeat split; auto; intros; congruence.
Qed.

Lemma isAvailable_reloaded (env : Env) (ex ex1 : AIExecutor) :
  reloadConfigIfNeeded env ex = Return ex1 ->
  isAvailable env ex1 = Return (available ex1, ex1).
Proof.
  intros Hr. unfold isAvailable.
  now rewrite (reloadConfigIfNeeded_stable env ex ex1 ex1 Hr eq_refl).
Qed.

(** The paths through [executePrompt]. *)
Lemma executePrompt_cases (env : Env) (prompt : string) (options : Options)
    (ex ex' : AIExecutor) (w w' : World) (out : outcome JSError AIExecutionResult) :
  executePrompt env prompt options ex w = (out, ex', w') ->
  match loadAIConfig env with
  | Throw msg => out = Throw (PlainError msg) /\ ex' = ex /\ w' = w
  | Return _ =>
      exists ex1,
        reloadConfigIfNeeded env ex = Return ex1
        /\ config ex' = config ex1 /\ client ex' = client ex1
        /\ if available ex1 then
             match cache_check prompt options ex1 w with
             | (Some r, _) => out = Return r /\ ex' = ex1 /\ w' = w
             | (None, ex3) =>
                 retry_loop (Z.to_nat (maxRetries (config ex1) + 1)) 0 (now w) prompt
                   (derived_model options (config ex1))
                   (derived_key prompt options (config ex1)) options ex3 w
                 = Some (out, ex', w')
                 /\ config ex3 = config ex1
             end
           else out = Throw (createError "AI_UNAVAILABLE" false None)
                /\ ex' = ex1 /\ w' = w
  end.
Proof.
  intros H. pose proof (reloadConfigIfNeeded_load env ex) as Hl.
  destruct (loadAIConfig env) as [c|msg].
  - destruct Hl as (ex1 & Hr & _). exists ex1. split; [exact Hr|].
    pose proof (isAvailable_reloaded env ex ex1 Hr) as Ha.
    destruct (available ex1) eqn:Hav.
    + rewrite (executePrompt_available _ _ _ _ _ _ _ Hr Ha) in H.
      pose proof (cache_check_config prompt options ex1 w) as Hcfg.
      assert (Hcl : client (snd (cache_check prompt options ex1 w)) = client ex1).
      { unfold cache_check. destruct (cacheEnabled (config ex1)); [|reflexivity].
        apply getCachedResult_config. }
      destruct (cache_check prompt options ex1 w) as [[r|] ex3] eqn:Hc;
        cbn [snd] in Hcfg, Hcl.
      * apply cache_check_hit in Hc. subst ex3. injection H as <- <- <-. now repeat split.
      * rewrite Hcfg in H.
        destruct (retry_loop _ _ _ _ _ _ _ _ _) as [[[o x] y]|] eqn:Hloop.
        -- injection H as -> -> ->.
           pose proof (retry_loop_result _ _ _ _ _ _ _ _ _ _ _ _ Hloop) as [_ Hx].
           assert (config ex' = config ex3 /\ client ex' = client ex3) as [Hc1 Hc2].
           { destruct out.
             - destruct Hx as [_ ->]. destruct (cacheEnabled (config ex3)); now split.
             - subst. now split. }
           rewrite Hc1, Hc2, Hcfg, Hcl. now repeat split.
        -- exfalso. revert Hloop. apply retry_loop_fuel. rewrite Hcfg. lia.
    + unfold executePrompt in H. rewrite Hr, Ha in H. injection H as <- <- <-.
      now repeat split.
  - unfold executePrompt in H. rewrite Hl in H. injection H as <- <- <-. now repeat split.
Qed.

Lemma events_calls (w w' : World) (l : list Event) :
  events w' = (events w ++ l)%list ->
  calls w' = (calls w
              ++ flat_map (fun ev => match ev with Call r => [r] | Sleep _ => [] end) l)%list
  /\ sleeps w' = (sleeps w
                  ++ flat_map (fun ev => match ev with Call _ => [] | Sleep d => [d] end) l)%list.
Proof. unfold calls, sleeps. intros ->. now rewrite !flat_map_app. Qed.

Lemma delays_length (k : nat) (z : Z) : length (delays k z) = k.
Proof. revert z. induction k as [|k IH]; intros z; simpl; [reflexivity|]. now rewrite IH. Qed.

(** X6.  [executePrompt] throws one of four things: the plain error of
    [loadAIConfig], when the environment is not a valid configuration, and
    then nothing has changed; [AI_UNAVAILABLE], when the executor has no
    client or is not in full mode; [AI_UNEXPECTED_ERROR], only when the
    maximum number of retries is negative; or [AI_EXECUTION_FAILED] around
    the provider's last error, after exactly [maxRetries + 1] requests and
    [maxRetries] waits.  Only the last one has touched the world, and none
    of them is ever marked retryable. *)
Theorem executePrompt_error_kinds :
  forall (env : Env) (prompt : string) (options : Options)
         (ex ex' : AIExecutor) (w w' : World) (e : JSError),
    executePrompt env prompt options ex w = (Throw e, ex', w') ->
    (exists msg, e = PlainError msg /\ loadAIConfig env = Throw msg /\ ex' = ex /\ w' = w)
    \/ (e = AIExecutionError "AI_UNAVAILABLE" false None /\ available ex' = false /\ w' = w)
    \/ (e = AIExecutionError "AI_UNEXPECTED_ERROR" false None
        /\ maxRetries (config ex') < 0 /\ w' = w)
    \/ (exists e0, e = AIExecutionError "AI_EXECUTION_FAILED" false (Some e0)
        /\ 0 <= maxRetries (config ex')
        /\ length (calls w')
           = (length (calls w) + Z.to_nat (maxRetries (config ex') + 1))%nat
        /\ length (sleeps w')
           = (length (sleeps w) + Z.to_nat (maxRetries (config ex')))%nat).
Proof.
  intros env prompt options ex ex' w w' e H. apply executePrompt_cases in H.
  destruct (loadAIConfig env) as [c|msg].
  - right. destruct H as (ex1 & Hr & Hcfg & Hcl & H).
    destruct (available ex1) eqn:Hav.
    + right. destruct (cache_check prompt options ex1 w) as [[r|] ex3].
      * destruct H as [H _]. discriminate.
      * destruct H as [Hloop Hcfg3]. rewrite Hcfg.
        destruct (Z.ltb_spec (maxRetries (config ex1)) 0) as [Hneg|Hpos].
        -- left. rewrite retry_loop_skipped in Hloop by (rewrite Hcfg3; exact Hneg).
           injection Hloop as <- _ <-. now repeat split.
        -- right. apply retry_loop_trace in Hloop; [|rewrite Hcfg3; exact Hpos].
           destruct Hloop as (k & Hev & _ & _ & Hk & e0 & ->).
           rewrite Hcfg3 in Hk. exists e0. split; [reflexivity|]. split; [exact Hpos|].
           destruct (events_calls _ _ _ Hev) as [-> ->].
           cbn [flat_map app]. rewrite retry_trace_calls, retry_trace_sleeps.
           rewrite !length_app. cbn [length]. rewrite repeat_length.
           rewrite delays_length. lia.
    + left. destruct H as (He & -> & ->). injection He as ->. now repeat split.
  - left. destruct H as (He & -> & ->). injection He as ->. exists msg. now repeat split.
Qed.

Lemma executePrompt_error_kinds_witness :
  exists e0 w',
    executePrompt six_retries_env "ping" [] six_retries_executor offline_world
      = (Throw (AIExecutionError "AI_EXECUTION_FAILED" false (Some e0)),
         six_retries_executor, w')
    /\ length (calls w') = 7%nat /\ length (sleeps w') = 6%nat.
Proof.
  destruct (executePrompt six_retries_env "ping" [] six_retries_executor offline_world)
    as [[[r|e] ex'] w'] eqn:H; [exfalso; vm_compute in H; discriminate|].
  assert (Hex : ex' = six_retries_executor) by (vm_compute in H; now injection H).
  subst ex'.
  destruct (executePrompt_error_kinds _ _ _ _ _ _ _ _ H)
    as [(msg & _ & Hl & _)|[(_ & Ha & _)|[(_ & Hm & _)|(e0 & -> & _ & Hc & Hs)]]].
  - exfalso. vm_compute in Hl. discriminate.
  - exfalso. vm_compute in Ha. discriminate.
  - exfalso. vm_compute in Hm. discriminate.
  - exists e0, w'. split; [reflexivity|]. split; [rewrite Hc | rewrite Hs]; reflexivity.
Defined.

(** A returned result is either a cache hit, which has cost nothing, or a
    fresh result, whose metadata describes the run that produced it. *)
Lemma executePrompt_returns (env : Env) (prompt : string) (options : Options)
    (ex ex' : AIExecutor) (w w' : World) (r : AIExecutionResult) :
  executePrompt env prompt options ex w = (Return r, ex', w') ->
  let req := build_request prompt (derived_model options (config ex')) options (config ex') in
  (cached (metadata r) = true
   /\ w' = w /\ cache ex' = cache ex /\ cacheEnabled (config ex') = true
   /\ exists entry,
        cache ex !! derived_key prompt options (config ex') = Some entry
        /\ now w <= expiry entry
        /\ r = mark_cached (result entry))
  \/ (cached (metadata r) = false
      /\ exists n : nat,
           events w' = (events w ++ Call req :: retry_trace req n 1)%list
           /\ retryCount (metadata r) = Z.of_nat n
           /\ Z.of_nat n <= maxRetries (config ex')
           /\ executionTime (metadata r) = now w' - now w
           /\ timestamp (metadata r) = now w').
Proof.
  intros H req. apply executePrompt_cases in H.
  destruct (loadAIConfig env) as [c|msg]; [|destruct H as [H _]; discriminate].
  destruct H as (ex1 & Hr & Hcfg & Hcl & H).
  pose proof (reloadConfigIfNeeded_cache _ _ _ Hr) as Hcache.
  destruct (available ex1); [|destruct H as [H _]; discriminate].
  destruct (cache_check prompt options ex1 w) as [[r0|] ex3] eqn:Hck.
  - left. destruct H as (Hout & -> & ->). injection Hout as <-.
    unfold cache_check in Hck. destruct (cacheEnabled (config ex1)) eqn:Hen; [|discriminate].
    unfold getCachedResult in Hck. rewrite Hcache in Hck.
    destruct (cache ex !! derived_key prompt options (config ex1)) as [entry|] eqn:Hl;
      [|discriminate].
    destruct (Z.ltb_spec (expiry entry) (now w)); [discriminate|].
    injection Hck as <- _.
    split; [reflexivity|]. split; [reflexivity|]. split; [exact Hcache|].
    split; [reflexivity|]. exists entry. now repeat split.
  - right. destruct H as [Hloop Hcfg3].
    pose proof (retry_loop_result _ _ _ _ _ _ _ _ _ _ _ _ Hloop) as [_ [Hf _]].
    split; [exact Hf|].
    destruct (Z.ltb_spec (maxRetries (config ex1)) 0) as [Hneg|Hpos].
    { rewrite retry_loop_skipped in Hloop by (rewrite Hcfg3; exact Hneg). discriminate. }
    apply retry_loop_trace in Hloop; [|rewrite Hcfg3; exact Hpos].
    destruct Hloop as (n & Hev & _ & Hn & Hrc & Ht & Hts).
    rewrite Hcfg3, <- Hcfg in Hev, Hn. fold req in Hev.
    rewrite Z.add_0_l in Hrc, Hn. exists n. now repeat split.
Qed.

(** X7.  Whenever [executePrompt] returns a result that is not a cache
    hit, the retry count [k] it reports in the metadata lies between 0 and
    the configured maximum, and the run consisted of exactly [k + 1]
    identical requests to the provider with the [k] backoff delays
    1000, 2000, 4000, ... between them; the execution time reported is the
    time that passed on the clock, and the timestamp is the clock reading
    at the end. *)
Theorem executePrompt_fresh_result_trace :
  forall (env : Env) (prompt : string) (options : Options)
         (ex ex' : AIExecutor) (w w' : World) (r : AIExecutionResult),
    executePrompt env prompt options ex w = (Return r, ex', w') ->
    cached (metadata r) = false ->
    let req := build_request prompt (derived_model options (config ex')) options (config ex') in
    let k := Z.to_nat (retryCount (metadata r)) in
    0 <= retryCount (metadata r) <= maxRetries (config ex')
    /\ calls w' = (calls w ++ repeat req (S k))%list
    /\ sleeps w' = (sleeps w ++ delays k 1)%list
    /\ executionTime (metadata r) = now w' - now w
    /\ timestamp (metadata r) = now w'.
Proof.
  intros env prompt options ex ex' w w' r H Hfresh req k.
  destruct (executePrompt_returns _ _ _ _ _ _ _ _ H) as [[Hc _]|[_ Hrun]]; [congruence|].
  destruct Hrun as (n & Hev & Hrc & Hn & Ht & Hts). fold req in Hev.
  assert (Hk : k = n) by (subst k; rewrite Hrc; lia). rewrite Hk.
  destruct (events_calls _ _ _ Hev) as [Hcalls Hsleeps].
  cbn [flat_map app] in Hcalls, Hsleeps.
  rewrite retry_trace_calls in Hcalls. rewrite retry_trace_sleeps in Hsleeps.
  split; [lia|]. split; [exact Hcalls|]. split; [exact Hsleeps|]. now split.
Qed.

Lemma executePrompt_fresh_result_trace_witness :
  exists r ex' w',
    executePrompt keyed_env "ping" [] keyed_executor flaky_world = (Return r, ex', w')
    /\ retryCount (metadata r) = 2
    /\ length (calls w') = 3%nat
    /\ sleeps w' = [1000; 2000]
    /\ executionTime (metadata r) = 3450.
Proof.
  destruct (executePrompt keyed_env "ping" [] keyed_executor flaky_world)
    as [[[r|e] ex'] w'] eqn:H; [|exfalso; vm_compute in H; discriminate].
  pose proof H as H'. vm_compute in H'. injection H' as Er Eex Ew.
  assert (Hfresh : cached (metadata r) = false) by (rewrite <- Er; reflexivity).
  assert (Hrc : retryCount (metadata r) = 2) by (rewrite <- Er; reflexivity).
  destruct (executePrompt_fresh_result_trace _ _ _ _ _ _ _ _ H Hfresh)
    as (_ & Hcalls & Hsleeps & Ht & _).
  rewrite Hrc in Hcalls, Hsleeps.
  exists r, ex', w'. split; [reflexivity|]. split; [exact Hrc|].
  split; [rewrite Hcalls; reflexivity|]. split; [rewrite Hsleeps; reflexivity|].
  rewrite Ht, <- Ew. reflexivity.
Defined.



(** X9.  With caching switched off in the configuration the executor runs
    with, [executePrompt] neither reads nor writes the cache: the cache is
    left as it was, and every result returned is fresh and has cost at
    least one request to the provider. *)
Theorem executePrompt_without_cache :
  forall (env : Env) (prompt : string) (options : Options)
         (ex ex' : AIExecutor) (w w' : World) (out : outcome JSError AIExecutionResult),
    executePrompt env prompt options ex w = (out, ex', w') ->
    cacheEnabled (config ex') = false ->
    cache ex' = cache ex
    /\ forall r, out = Return r ->
         cached (metadata r) = false /\ (length (calls w) < length (calls w'))%nat.
Proof.
  intros env prompt options ex ex' w w' out H Hoff.
  assert (Hfresh : forall r, out = Return r ->
            cached (metadata r) = false /\ (length (calls w) < length (calls w'))%nat).
  { intros r ->.
    destruct (executePrompt_returns _ _ _ _ _ _ _ _ H)
      as [(_ & _ & _ & Hen & _)|(Hf & n & Hev & _)]; [congruence|].
    split; [exact Hf|]. destruct (events_calls _ _ _ Hev) as [-> _].
    rewrite length_app. cbn [flat_map app length]. lia. }
  split.
  - pose proof H as H0. apply executePrompt_cases in H0.
    destruct (loadAIConfig env) as [c|msg]; [|now destruct H0 as (_ & -> & _)].
    destruct H0 as (ex1 & Hr & Hcfg & Hcl & H0).
    pose proof (reloadConfigIfNeeded_cache _ _ _ Hr) as Hcache.
    rewrite Hcfg in Hoff.
    destruct (available ex1); [|now destruct H0 as (_ & -> & _)].
    unfold cache_check in H0. rewrite Hoff in H0. destruct H0 as [Hloop _].
    apply retry_loop_result in Hloop as [_ Hx]. rewrite Hoff in Hx.
    destruct out as [r|e]; [destruct Hx as [_ ->]|subst ex']; exact Hcache.
  - exact Hfresh.
Qed.

Lemma executePrompt_without_cache_witness :
  exists r ex' w',
    executePrompt uncached_env "ping" [] uncached_executor echo_world = (Return r, ex', w')
    /\ cache ex' = ∅
    /\ cached (metadata r) = false
    /\ (0 < length (calls w'))%nat.
Proof.
  destruct (executePrompt uncached_env "ping" [] uncached_executor echo_world)
    as [[[r|e] ex'] w'] eqn:H; [|exfalso; vm_compute in H; discriminate].
  pose proof H as H'. vm_compute in H'. injection H' as Er Eex Ew.
  assert (Hoff : cacheEnabled (config ex') = false) by (rewrite <- Eex; reflexivity).
  destruct (executePrompt_without_cache _ _ _ _ _ _ _ _ H Hoff) as [Hcache Hres].
  destruct (Hres r eq_refl) as [Hf Hcalls].
  exists r, ex', w'. split; [reflexivity|]. split; [|split; [exact Hf | exact Hcalls]].
  rewrite Hcache. reflexivity.
Defined.

(** X10.  A negative maximum number of retries switches the provider off:
    the loop [while (retryCount <= maxRetries)] is never entered, so no run
    contacts the provider or waits.  A run can then only return what is in
    the cache; when the executor is available and nothing is stored under
    the key, it throws [AI_UNEXPECTED_ERROR].  ([AI_MAX_RETRIES=-1] is
    such a setting: [parseInt] reads it, and [validateAIConfig] does not
    look at it.) *)
Theorem executePrompt_negative_maxRetries :
  forall (env : Env) (prompt : string) (options : Options)
         (ex ex' : AIExecutor) (w w' : World) (out : outcome JSError AIExecutionResult),
    executePrompt env prompt options ex w = (out, ex', w') ->
    maxRetries (config ex') < 0 ->
    w' = w
    /\ (forall r, out = Return r -> cached (metadata r) = true)
    /\ (forall c, loadAIConfig env = Return c ->
          available ex' = true ->
          cache ex !! derived_key prompt options (config ex') = None ->
          out = Throw (AIExecutionError "AI_UNEXPECTED_ERROR" false None)).
Proof.
  intros env prompt options ex ex' w w' out H Hneg. apply executePrompt_cases in H.
  destruct (loadAIConfig env) as [c|msg].
  - destruct H as (ex1 & Hr & Hcfg & Hcl & H).
    pose proof (reloadConfigIfNeeded_cache _ _ _ Hr) as Hcache.
    assert (Hav : available ex' = available ex1) by (unfold available; now rewrite Hcfg, Hcl).
    rewrite Hav, Hcfg. rewrite Hcfg in Hneg.
    destruct (available ex1).
    + destruct (cache_check prompt options ex1 w) as [[r0|] ex3] eqn:Hck.
      * destruct H as (-> & -> & ->). split; [reflexivity|]. split.
        -- intros r Er. injection Er as <-.
           unfold cache_check in Hck. destruct (cacheEnabled (config ex1)); [|discriminate].
           unfold getCachedResult in Hck. destruct (cache ex1 !! _); [|discriminate].
           destruct (_ <? _); [discriminate|]. now injection Hck as <- _.
        -- intros c0 _ _ Hmiss. exfalso. rewrite <- Hcache in Hmiss.
           unfold cache_check in Hck. destruct (cacheEnabled (config ex1)); [|discriminate].
           unfold getCachedResult in Hck. rewrite Hmiss in Hck. discriminate.
      * destruct H as [Hloop Hcfg3].
        rewrite retry_loop_skipped in Hloop by (rewrite Hcfg3; exact Hneg).
        injection Hloop as <- _ <-. split; [reflexivity|]. split; [discriminate|]. reflexivity.
    + destruct H as (-> & _ & ->). split; [reflexivity|]. split; discriminate.
  - destruct H as (-> & _ & ->). split; [reflexivity|]. split; discriminate.
Qed.

Lemma executePrompt_negative_maxRetries_witness :
  maxRetries (config negative_retries_executor) = -1
  /\ executePrompt negative_retries_env "ping" [] negative_retries_executor echo_world
     = (Throw (AIExecutionError "AI_UNEXPECTED_ERROR" false None),
        negative_retries_executor, echo_world).
Proof.
  split; [reflexivity|].
  destruct (executePrompt negative_retries_env "ping" [] negative_retries_executor echo_world)
    as [[out ex'] w'] eqn:H.
  assert (Hex : ex' = negative_retries_executor).
  { pose proof H as H'. vm_compute in H'. injection H' as _ <- _. vm_compute. reflexivity. }
  subst ex'.
  destruct (executePrompt_negative_maxRetries _ _ _ _ _ _ _ _ H ltac:(vm_compute; reflexivity))
    as (-> & _ & Hthrow).
  rewrite (Hthrow (buildAIConfig negative_retries_env) eq_refl
             ltac:(vm_compute; reflexivity) ltac:(vm_compute; reflexivity)).
  reflexivity.
Defined.

(** X11.  After a run of [executePrompt] in an environment that loads, the
    executor's API key, execution mode and default model are those of the
    environment.  These three are all that is compared: when they already
    agree, the executor keeps its configuration and its client as they
    are, so a change to any other setting (retries, timeout, temperature,
    token budget, cache switches, even the provider) is not picked up.
    The configuration after the run is always the old one or the loaded
    one. *)
Theorem executePrompt_config_sync :
  forall (env : Env) (c : AIConfig) (prompt : string) (options : Options)
         (ex ex' : AIExecutor) (w w' : World) (out : outcome JSError AIExecutionResult),
    loadAIConfig env = Return c ->
    executePrompt env prompt options ex w = (out, ex', w') ->
    apiKey (config ex') = apiKey c
    /\ executionMode (config ex') = executionMode c
    /\ defaultModel (config ex') = defaultModel c
    /\ (apiKey (config ex) = apiKey c ->
        executionMode (config ex) = executionMode c ->
        defaultModel (config ex) = defaultModel c ->
        config ex' = config ex /\ client ex' = client ex)
    /\ (config ex' = config ex \/ config ex' = c).
Proof.
  intros env c prompt options ex ex' w w' out Hl H. apply executePrompt_cases in H.
  pose proof (reloadConfigIfNeeded_load env ex) as Hload. rewrite Hl in H, Hload.
  destruct H as (ex1 & Hr & Hcfg & Hcl & _).
  destruct Hload as (x & Hr' & _ & H1 & H2 & H3 & Hsame).
  rewrite Hr in Hr'. injection Hr' as <-. rewrite Hcfg, Hcl.
  split; [exact H1|]. split; [exact H2|]. split; [exact H3|]. split.
  - intros E1 E2 E3. now rewrite (Hsame E1 E2 E3).
  - unfold reloadConfigIfNeeded in Hr. rewrite Hl in Hr.
    destruct (_ || _); injection Hr as <-; [right | now left].
    now rewrite initializeClient_config.
Qed.

Lemma executePrompt_config_sync_witness :
  exists out ex' w',
    executePrompt six_retries_env "ping" [] keyed_executor echo_world = (out, ex', w')
    /\ maxRetries (buildAIConfig six_retries_env) = 6
    /\ maxRetries (config ex') = 3.
Proof.
  destruct (executePrompt six_retries_env "ping" [] keyed_executor echo_world)
    as [[out ex'] w'] eqn:H.
  destruct (executePrompt_config_sync six_retries_env (buildAIConfig six_retries_env)
              _ _ _ _ _ _ _ eq_refl H) as (_ & _ & _ & Hsame & _).
  destruct (Hsame eq_refl eq_refl eq_refl) as [Hcfg _].
  exists out, ex', w'. split; [reflexivity|]. split; [reflexivity|]. now rewrite Hcfg.
Defined.

(** Once [executePrompt] has run in an environment that loads, the
    executor agrees with the environment: reloading changes nothing. *)
Lemma executePrompt_settled (env : Env) (prompt : string) (options : Options)
    (ex ex' : AIExecutor) (w w' : World) (out : outcome JSError AIExecutionResult)
    (c : AIConfig) :
  loadAIConfig env = Return c ->
  executePrompt env prompt options ex w = (out, ex', w') ->
  reloadConfigIfNeeded env ex' = Return ex'.
Proof.
  intros Hl H. apply executePrompt_cases in H. rewrite Hl in H.
  destruct H as (ex1 & Hr & Hcfg & _).
  exact (reloadConfigIfNeeded_stable env ex ex1 ex' Hr Hcfg).
Qed.

(** X12.  An expired entry is never served.  After a fresh result has
    been returned (and stored, when caching is on), a later execution of
    the same prompt with the same options at a time beyond the TTL,
    counted in seconds from the end of the first run, never answers from
    the cache: whatever it returns is fresh and has cost at least one
    request to the provider. *)
Theorem executePrompt_never_serves_expired :
  forall (env : Env) (prompt : string) (options : Options)
         (ex ex' ex'' : AIExecutor) (w w1 w2 w3 : World)
         (r1 r2 : AIExecutionResult),
    executePrompt env prompt options ex w = (Return r1, ex', w1) ->
    cached (metadata r1) = false ->
    now w1 + cacheTTL (config ex') * 1000 < now w2 ->
    executePrompt env prompt options ex' w2 = (Return r2, ex'', w3) ->
    cached (metadata r2) = false /\ (length (calls w2) < length (calls w3))%nat.
Proof.
  intros env prompt options ex ex' ex'' w w1 w2 w3 r1 r2 H1 Hfresh Hlate H2.
  destruct (executePrompt_returns _ _ _ _ _ _ _ _ H2)
    as [(_ & _ & _ & Hen & entry & Hl & Hexp & _)|(Hf & n & Hev & _)].
  - exfalso.
    assert (Hload : exists c, loadAIConfig env = Return c).
    { pose proof (executePrompt_cases _ _ _ _ _ _ _ _ H1) as Hc.
      destruct (loadAIConfig env) as [c|msg]; [now exists c|].
      destruct Hc as [Hc _]. discriminate. }
    destruct Hload as [c Hload].
    pose proof (executePrompt_settled _ _ _ _ _ _ _ _ c Hload H1) as Hr'.
    pose proof (executePrompt_cases _ _ _ _ _ _ _ _ H2) as Hc2. rewrite Hload in Hc2.
    destruct Hc2 as (x & Hx & Hcfg'' & _). rewrite Hr' in Hx. injection Hx as <-.
    rewrite Hcfg'' in Hen, Hl.
    destruct (executePrompt_fresh _ _ _ _ _ _ _ _ H1 Hfresh)
      as (ex1 & ex2 & ex3 & Hr & Ha & Hck & Hn & Hex').
    pose proof (cache_check_config prompt options ex2 w) as Hcfg3.
    rewrite Hck in Hcfg3. cbn [snd] in Hcfg3.
    assert (Hcfg : config ex' = config ex2).
    { rewrite Hex'. destruct (cacheEnabled (config ex2)); exact Hcfg3. }
    rewrite Hcfg in Hen, Hl, Hlate. rewrite Hen in Hex'. subst ex'.
    apply setCachedResult_lookup in Hl as [Hl _].
    rewrite lookup_insert_eq in Hl. injection Hl as <-.
    cbn [expiry] in Hexp. rewrite Hcfg3 in Hexp. lia.
  - split; [exact Hf|]. destruct (events_calls _ _ _ Hev) as [-> _].
    rewrite length_app. cbn [flat_map app length]. lia.
Qed.

Lemma executePrompt_never_serves_expired_witness :
  exists r2 ex'' w3,
    executePrompt keyed_env "ping" [] warm_executor (elapse 3600000 warm_world)
      = (Return r2, ex'', w3)
    /\ cached (metadata r2) = false
    /\ length (calls w3) = 2%nat.
Proof.
  destruct (executePrompt keyed_env "ping" [] keyed_executor echo_world)
    as [[[r1|e] ex'] w1] eqn:H1; [|exfalso; vm_compute in H1; discriminate].
  pose proof H1 as H1'. vm_compute in H1'. injection H1' as Er Eex Ew.
  assert (Hex : warm_executor = ex') by (unfold warm_executor; now rewrite H1).
  assert (Hw : warm_world = elapse 1000 w1) by (unfold warm_world; now rewrite H1).
  destruct (executePrompt keyed_env "ping" [] warm_executor (elapse 3600000 warm_world))
    as [[[r2|e] ex''] w3] eqn:H2; [|exfalso; vm_compute in H2; discriminate].
  assert (Hfresh : cached (metadata r1) = false) by (rewrite <- Er; reflexivity).
  assert (Hlate : now w1 + cacheTTL (config ex') * 1000 < now (elapse 3600000 warm_world)).
  { rewrite Hw, <- Eex, <- Ew. vm_compute. reflexivity. }
  rewrite Hex in H2.
  destruct (executePrompt_never_serves_expired _ _ _ _ _ _ _ _ _ _ _ _ H1 Hfresh Hlate H2)
    as [Hf _].
  exists r2, ex'', w3. split; [reflexivity|]. split; [exact Hf|].
  rewrite <- Hex in H2. vm_compute in H2. injection H2 as _ _ <-. reflexivity.
Defined.

(** ** Structured prompts *)

Lemma executeStructuredPrompt_unfold (env : Env) (prompt : string)
    (schema : option (JS.JSONValue -> bool)) (options : Options)
    (ex : AIExecutor) (w : World) :
  executeStructuredPrompt env prompt schema options ex w
  = match executePrompt env prompt (structured_options options) ex w with
    | (Throw e, ex', w') => (Throw e, ex', w')
    | (Return r, ex', w') =>
        match parse_structured schema (content r) with
        | Return data => (Return (data, r), ex', w')
        | Throw e => (Throw e, ex', w')
        end
    end.
Proof. reflexivity. Qed.

Lemma parse_structured_throws (schema : option (JS.JSONValue -> bool)) (raw : string)
    (e : JSError) :
  parse_structured schema raw = Throw e ->
  exists cause, e = AIExecutionError "AI_JSON_PARSE_ERROR" false (Some cause).
Proof.
  unfold parse_structured. destruct (JS.JSON_parse _) as [data|].
  - destruct schema as [accepts|]; [|discriminate].
    destruct (accepts data); [discriminate|]. intros H. injection H as <-. now eexists.
  - intros H. injection H as <-. now eexists.
Qed.

(** X13.  An answer that cannot be used is cached all the same.  When
    [executeStructuredPrompt] received a fresh answer from the provider and
    then failed to extract, parse or validate it, the answer is already in
    the cache: with caching enabled, repeating the call within the TTL
    fails again with the same [AI_JSON_PARSE_ERROR], without asking the
    provider again. *)
Theorem executeStructuredPrompt_failure_is_cached :
  forall (env : Env) (prompt : string) (schema : option (JS.JSONValue -> bool))
         (options : Options) (ex ex' : AIExecutor) (w w1 w2 : World)
         (r : AIExecutionResult) (e : JSError),
    executePrompt env prompt (structured_options options) ex w = (Return r, ex', w1) ->
    cached (metadata r) = false ->
    parse_structured schema (content r) = Throw e ->
    cacheEnabled (config ex') = true ->
    now w1 <= now w2 <= now w1 + cacheTTL (config ex') * 1000 ->
    executeStructuredPrompt env prompt schema options ex w = (Throw e, ex', w1)
    /\ executeStructuredPrompt env prompt schema options ex' w2 = (Throw e, ex', w2)
    /\ exists cause, e = AIExecutionError "AI_JSON_PARSE_ERROR" false (Some cause).
Proof.
  intros env prompt schema options ex ex' w w1 w2 r e Hrun Hfresh Hparse Hen Ht.
  rewrite !executeStructuredPrompt_unfold, Hrun, Hparse.
  rewrite (executePrompt_hit_after_fresh env prompt prompt _ _ ex ex' w w1 w2 r
             Hrun Hfresh Hen Ht eq_refl).
  cbn [content mark_cached]. rewrite Hparse.
  split; [reflexivity|]. split; [reflexivity|]. exact (parse_structured_throws _ _ _ Hparse).
Qed.

Lemma executeStructuredPrompt_failure_is_cached_witness :
  exists e ex' w1,
    executeStructuredPrompt keyed_env "ping" None [] keyed_executor echo_world
      = (Throw e, ex', w1)
    /\ executeStructuredPrompt keyed_env "ping" None [] ex' (elapse 1000 w1)
       = (Throw e, ex', elapse 1000 w1)
    /\ length (calls (elapse 1000 w1)) = 1%nat.
Proof.
  destruct (executePrompt keyed_env "ping" (structured_options []) keyed_executor echo_world)
    as [[[r|e0] ex'] w1] eqn:H; [|exfalso; vm_compute in H; discriminate].
  pose proof H as H'. vm_compute in H'. injection H' as Er Eex Ew.
  assert (Hfresh : cached (metadata r) = false) by (rewrite <- Er; reflexivity).
  assert (Hen : cacheEnabled (config ex') = true) by (rewrite <- Eex; reflexivity).
  assert (Httl : cacheTTL (config ex') = 3600) by (rewrite <- Eex; reflexivity).
  assert (Hp : parse_structured None (content r)
               = Throw (AIExecutionError "AI_JSON_PARSE_ERROR" false (Some SyntaxError)))
    by (rewrite <- Er; vm_compute; reflexivity).
  assert (Ht : now w1 <= now (elapse 1000 w1) <= now w1 + cacheTTL (config ex') * 1000)
    by (rewrite Httl; cbn [elapse now]; lia).
  destruct (executeStructuredPrompt_failure_is_cached keyed_env "ping" None [] keyed_executor
              ex' echo_world w1 (elapse 1000 w1) r _ H Hfresh Hp Hen Ht) as (H1 & H2 & _).
  eexists _, ex', w1. split; [exact H1|]. split; [exact H2|]. rewrite <- Ew. reflexivity.
Defined.

Lemma set_field_temperature (v : float) (o : Options) :
  opt_temperature (set_field (OptTemperature v) o) = Some v
  /\ opt_model (set_field (OptTemperature v) o) = opt_model o
  /\ opt_maxTokens (set_field (OptTemperature v) o) = opt_maxTokens o
  /\ opt_systemPrompt (set_field (OptTemperature v) o) = opt_systemPrompt o.
Proof.
  induction o as [|g o (H1 & H2 & H3 & H4)]; [now repeat split|].
  destruct g; cbn [set_field same_key opt_temperature opt_model opt_maxTokens opt_systemPrompt];
    now repeat split.
Qed.

Lemma set_field_systemPrompt (v : string) (o : Options) :
  opt_systemPrompt (set_field (OptSystemPrompt v) o) = Some v
  /\ opt_model (set_field (OptSystemPrompt v) o) = opt_model o
  /\ opt_maxTokens (set_field (OptSystemPrompt v) o) = opt_maxTokens o
  /\ opt_temperature (set_field (OptSystemPrompt v) o) = opt_temperature o.
Proof.
  induction o as [|g o (H1 & H2 & H3 & H4)]; [now repeat split|].
  destruct g; cbn [set_field same_key opt_temperature opt_model opt_maxTokens opt_systemPrompt];
    now repeat split.
Qed.

Lemma or_string_truthy (a b : string) :
  b <> "" -> JS.truthy_string (JS.or_string a b) = true.
Proof.
  intros Hb. unfold JS.or_string. destruct (JS.truthy_string a) eqn:E; [exact E|].
  now apply truthy_nonempty.
Qed.

(** Every request of one run of [executePrompt] is the same request. *)
Lemma executePrompt_calls (env : Env) (prompt : string) (options : Options)
    (ex ex' : AIExecutor) (w w' : World) (out : outcome JSError AIExecutionResult) :
  executePrompt env prompt options ex w = (out, ex', w') ->
  exists n : nat,
    calls w' = (calls w ++ repeat (build_request prompt (derived_model options (config ex'))
                                     options (config ex')) n)%list.
Proof.
  intros H. apply executePrompt_cases in H.
  destruct (loadAIConfig env) as [c|msg];
    [|destruct H as (_ & _ & ->); exists 0%nat; now rewrite app_nil_r].
  destruct H as (ex1 & Hr & Hcfg & Hcl & H).
  destruct (available ex1);
    [|destruct H as (_ & _ & ->); exists 0%nat; now rewrite app_nil_r].
  destruct (cache_check prompt options ex1 w) as [[r0|] ex3].
  - destruct H as (_ & _ & ->). exists 0%nat. now rewrite app_nil_r.
  - destruct H as [Hloop Hcfg3].
    destruct (Z.ltb_spec (maxRetries (config ex1)) 0) as [Hneg|Hpos].
    + rewrite retry_loop_skipped in Hloop by (rewrite Hcfg3; exact Hneg).
      injection Hloop as _ _ <-. exists 0%nat. now rewrite app_nil_r.
    + apply retry_loop_trace in Hloop; [|rewrite Hcfg3; exact Hpos].
      destruct Hloop as (n & Hev & _). rewrite Hcfg3, <- Hcfg in Hev.
      destruct (events_calls _ _ _ Hev) as [-> _]. exists (S n).
      cbn [flat_map app]. now rewrite retry_trace_calls.
Qed.

(** X14.  Every request [executeStructuredPrompt] sends to the provider
    opens with a system message, the caller's when it is not empty and the
    built-in JSON instruction otherwise, followed by the prompt as the one
    user message; its temperature is the caller's or else 0.1, never the
    configured temperature; the model and the token limit are chosen as
    [executePrompt] chooses them.  All requests of one call are equal. *)
Theorem executeStructuredPrompt_requests :
  forall (env : Env) (prompt : string) (schema : option (JS.JSONValue -> bool))
         (options : Options) (ex ex' : AIExecutor) (w w' : World)
         (out : outcome JSError (JS.JSONValue * AIExecutionResult)),
    executeStructuredPrompt env prompt schema options ex w = (out, ex', w') ->
    let systemPrompt :=
      JS.or_string (default "" (opt_systemPrompt options)) STRUCTURED_SYSTEM_PROMPT in
    let req :=
      {| req_model := derived_model options (config ex');
         req_messages := [("system", systemPrompt); ("user", prompt)];
         req_temperature := default 0.1%float (opt_temperature options);
         req_max_tokens := default (maxTokens (config ex')) (opt_maxTokens options) |} in
    systemPrompt <> ""
    /\ exists n : nat, calls w' = (calls w ++ repeat req n)%list.
Proof.
  intros env prompt schema options ex ex' w w' out H systemPrompt req.
  assert (Hsp : JS.truthy_string systemPrompt = true)
    by (apply or_string_truthy; discriminate).
  split; [intros E; rewrite E in Hsp; discriminate|].
  rewrite executeStructuredPrompt_unfold in H.
  destruct (executePrompt env prompt (structured_options options) ex w)
    as [[o x] y] eqn:Hrun.
  assert (x = ex' /\ y = w') as [-> ->].
  { destruct o as [r|e]; [destruct (parse_structured schema (content r))|];
      injection H as _ <- <-; now split. }
  destruct (executePrompt_calls _ _ _ _ _ _ _ _ Hrun) as [n Hn]. exists n.
  rewrite Hn. do 2 f_equal. unfold build_request, derived_model, structured_options.
  fold systemPrompt.
  destruct (set_field_temperature (default 0.1%float (opt_temperature options))
              (set_field (OptSystemPrompt systemPrompt) options)) as (-> & -> & -> & ->).
  destruct (set_field_systemPrompt systemPrompt options) as (-> & -> & -> & _).
  rewrite Hsp. reflexivity.
Qed.

Lemma executeStructuredPrompt_requests_witness :
  exists out ex' w',
    executeStructuredPrompt keyed_env "ping" None [OptTemperature 0.7%float]
      keyed_executor echo_world = (out, ex', w')
    /\ exists n, List.map req_messages (calls w')
                 = repeat [("system", STRUCTURED_SYSTEM_PROMPT); ("user", "ping")] n
                 /\ List.map req_temperature (calls w') = repeat 0.7%float n.
Proof.
  destruct (executeStructuredPrompt keyed_env "ping" None [OptTemperature 0.7%float]
              keyed_executor echo_world) as [[out ex'] w'] eqn:H.
  destruct (executeStructuredPrompt_requests _ _ _ _ _ _ _ _ _ H) as [_ [n Hn]].
  exists out, ex', w'. split; [reflexivity|]. exists n.
  rewrite Hn. cbn [calls echo_world events flat_map app].
  rewrite !map_repeat. split; reflexivity.
Defined.

(** ** Extraction from surrounding text *)

(** The search passes over characters that open neither an object nor an
    array. *)
Lemma search_skip (pre rest : string) :
  contains_char "{" pre = false -> contains_char "[" pre = false ->
  JS.match_search jsonRegex (pre ++ rest) = JS.match_search jsonRegex rest.
Proof.
  induction pre as [|x pre IH]; intros H1 H2; [reflexivity|].
  cbn [contains_char] in H1, H2.
  apply orb_false_elim in H1 as [H1 H1']. apply orb_false_elim in H2 as [H2 H2'].
  rewrite append_cons, match_search_step, rmatch_json. unfold brace_alt, bracket_alt.
  rewrite (alt_plain "{" "}" x (pre ++ rest)) by (now rewrite H1).
  rewrite (alt_plain "[" "]" x (pre ++ rest)) by (now rewrite H2).
  now apply IH.
Qed.

(** From an opening character the greedy star runs to the last closing
    character. *)
Lemma bracketed_span (o c : ascii) (m post : string) (cap : JS.captures) :
  contains_char c post = false ->
  let t := String o (m ++ String c post) in
  JS.rmatch (JS.RSeq (JS.RChar o) (JS.RSeq (JS.RStar JS.any_char) (JS.RChar c))) t cap
    (fun s' _ => Some (Some (JS.consumed t s')))
  = Some (Some (String o (m ++ String c ""))).
Proof.
  intros Hpost t. subst t. cbn [JS.rmatch]. rewrite Ascii.eqb_refl.
  set (t := String o (m ++ String c post)).
  rewrite (star_greedy_later m (String c post) _ (Some (JS.consumed t post))).
  - f_equal. f_equal. subst t.
    replace (String o (m ++ String c post)) with (String o (m ++ String c "") ++ post).
    + apply consumed_prefix.
    + rewrite append_cons, string_app_assoc. reflexivity.
  - rewrite star_greedy_step.
    rewrite (star_greedy_no_close c post); [|intros z; apply close_only | exact Hpost].
    cbn [JS.rmatch]. now rewrite Ascii.eqb_refl.
Qed.

(** X15.  JSON embedded in prose.  When the trimmed response neither
    starts with a backtick nor contains a brace or bracket before its
    first opening brace (or bracket), [extractJsonFromResponse] returns
    the text from that opening character to the last matching closing
    character of the response, and drops what stands before and after. *)
Theorem extractJsonFromResponse_embedded :
  forall (s pre m post : string) (o c : ascii),
    (o = "{"%char /\ c = "}"%char) \/ (o = "["%char /\ c = "]"%char) ->
    JS.trim s = pre ++ String o (m ++ String c post) ->
    JS.startsWith pre "`" = false ->
    contains_char "{" pre = false -> contains_char "[" pre = false ->
    contains_char c post = false ->
    extractJsonFromResponse s = String o (m ++ String c "").
Proof.
  intros s pre m post o c Hoc Ht Hbt Hb1 Hb2 Hpost.
  assert (Hsp : JS.is_space o = false /\ JS.is_space c = false /\ o <> "`"%char).
  { destruct Hoc as [[-> ->]|[-> ->]]; repeat split; discriminate. }
  destruct Hsp as (Ho & Hc & Hobt).
  unfold extractJsonFromResponse. rewrite Ht.
  assert (Hhead : exists c0 r, pre ++ String o (m ++ String c post) = String c0 r
                               /\ c0 <> "`"%char).
  { destruct pre as [|c0 pre]; [now exists o, (m ++ String c post)|].
    exists c0, (pre ++ String o (m ++ String c post)). split; [apply append_cons|].
    intros ->. rewrite startsWith_char in Hbt. discriminate. }
  destruct Hhead as (c0 & r & Hr & Hc0).
  rewrite Hr. destruct (anchored_need_backtick c0 r Hc0) as (-> & -> & _).
  cbn [truthy_capture]. rewrite <- Hr. clear Hr.
  rewrite (search_skip pre _ Hb1 Hb2), match_search_step, rmatch_json.
  unfold brace_alt, bracket_alt.
  assert (Hm : match JS.rmatch (JS.RSeq (JS.RChar "{")
                                  (JS.RSeq (JS.RStar JS.any_char) (JS.RChar "}")))
                       (String o (m ++ String c post)) None
                       (fun s' _ => Some (Some (JS.consumed (String o (m ++ String c post)) s')))
               with
               | Some x => Some x
               | None =>
                   JS.rmatch (JS.RSeq (JS.RChar "[")
                                (JS.RSeq (JS.RStar JS.any_char) (JS.RChar "]")))
                     (String o (m ++ String c post)) None
                     (fun s' _ => Some (Some (JS.consumed (String o (m ++ String c post)) s')))
               end = Some (Some (String o (m ++ String c "")))).
  { destruct Hoc as [[-> ->]|[-> ->]].
    - now rewrite (bracketed_span "{" "}" m post None Hpost).
    - rewrite (alt_plain "{" "}" "[" (m ++ String "]" post)) by reflexivity.
      now rewrite (bracketed_span "[" "]" m post None Hpost). }
  rewrite Hm. cbn [truthy_capture]. rewrite truthy_nonempty by discriminate.
  unfold JS.trim. rewrite trimStart_nonspace by exact Ho.
  change (String o (m ++ String c "")) with (String o m ++ String c "").
  now apply trimEnd_keep.
Qed.

Lemma extractJsonFromResponse_embedded_witness :
  extractJsonFromResponse "Here is the plan: {}. Hope it helps!" = "{}".
Proof.
  apply (extractJsonFromResponse_embedded _ "Here is the plan: " "" ". Hope it helps!"
           "{"%char "}"%char); first [now left | reflexivity].
Defined.

(** ** Plan validation *)

Lemma existsb_map {A B : Type} (f : A -> B) (p : B -> bool) (l : list A) :
  existsb p (List.map f l) = existsb (fun x => p (f x)) l.
Proof. induction l as [|x l IH]; simpl; [reflexivity|]. now rewrite IH. Qed.

Lemma existsb_false {A : Type} (p : A -> bool) (l : list A) :
  (forall x, x ∈ l -> p x = false) -> existsb p l = false.
Proof.
  induction l as [|x l IH]; intros H; simpl; [reflexivity|].
  rewrite (H x) by now left. apply IH. intros y Hy. apply H. now right.
Qed.

Lemma is_step_id_elem (plan : ToolChainPlan) (d : string) :
  is_step_id plan d = true <-> d ∈ List.map stepId (steps plan).
Proof.
  unfold is_step_id. rewrite existsb_exists, list_elem_of_fmap. split.
  - intros (s & Hs & E). apply String.eqb_eq in E. exists s. split; [auto|].
    now apply list_elem_of_In.
  - intros (s & E & Hs). exists s. split; [now apply list_elem_of_In|].
    apply String.eqb_eq. auto.
Qed.

(** X16.  The dependency check only asks that every [dependsOn] entry is
    the id of some step: it never looks for cycles.  A plan that
    [validatePlanSafety] accepts is still accepted after every step has
    been made to depend on every step of the plan, itself included. *)
Theorem validatePlanSafety_accepts_cycles :
  forall (plan : ToolChainPlan) (constraints : option Constraints),
    validatePlanSafety plan constraints = Return tt ->
    validatePlanSafety (with_all_dependencies plan) constraints = Return tt
    /\ forall step, step ∈ steps (with_all_dependencies plan) ->
         exists deps, dependsOn step = Some deps /\ stepId step ∈ deps.
Proof.
  intros plan constraints H. split.
  - rewrite validatePlanSafety_returns_iff in H. apply validatePlanSafety_returns_iff.
    intros r. specialize (H r).
    assert (Hids : List.map stepId (steps (with_all_dependencies plan))
                   = List.map stepId (steps plan)).
    { cbn [with_all_dependencies steps]. rewrite List.map_map. reflexivity. }
    destruct r; cbn [violated violated_as_stated] in *.
    + destruct constraints as [c|]; [|reflexivity].
      cbn [with_all_dependencies steps]. now rewrite length_map.
    + unfold names_excluded_tool in *. destruct constraints as [[ms tl [ex|] ps]|]; try reflexivity.
      cbn [with_all_dependencies steps]. rewrite existsb_map. exact H.
    + unfold names_unknown_tool in *.
      cbn [with_all_dependencies steps]. rewrite existsb_map. exact H.
    + unfold has_dangling_dependency. apply existsb_false. intros step Hstep.
      cbn [with_all_dependencies steps] in Hstep.
      apply list_elem_of_fmap in Hstep as (s0 & -> & _). cbn [dependsOn].
      apply existsb_false. intros d Hd. apply negb_false_iff, is_step_id_elem.
      now rewrite Hids.
    + exact H.
  - intros step Hstep. cbn [with_all_dependencies steps] in Hstep.
    apply list_elem_of_fmap in Hstep as (s0 & -> & Hs0). cbn [dependsOn stepId].
    eexists. split; [reflexivity|]. apply list_elem_of_fmap. now exists s0.
Qed.

Lemma validatePlanSafety_accepts_cycles_witness :
  validatePlanSafety
    (with_all_dependencies (two_step_plan "analyze_project_ecosystem" "suggest_adrs")) None
  = Return tt.
Proof.
  exact (proj1 (validatePlanSafety_accepts_cycles
                  (two_step_plan "analyze_project_ecosystem" "suggest_adrs") None eq_refl)).
Defined.

Lemma filter_Forall {A : Type} (p : A -> bool) (l : list A) :
  Forall (fun x => p x = true) (List.filter p l).
Proof.
  induction l as [|x l IH]; simpl; [constructor|].
  destruct (p x) eqn:E; [constructor; assumption | exact IH].
Qed.

Lemma check_dependencies_offender (ids : gset string) (l : list ToolChainStep)
    (e : McpAdrError) :
  check_dependencies ids l = Some e ->
  exists step deps dep,
    e = InvalidDependency (stepId step) dep
    /\ step ∈ l /\ dependsOn step = Some deps /\ dep ∈ deps /\ dep ∉ ids.
Proof.
  induction l as [|x l IH]; cbn [check_dependencies]; [discriminate|].
  unfold first_missing_dep.
  destruct (dependsOn x) as [deps|] eqn:Hd.
  - destruct (List.find _ deps) as [d|] eqn:Hf.
    + intros H. injection H as <-. apply find_some in Hf as [Hin Hd'].
      exists x, deps, d. split; [reflexivity|]. split; [now left|]. split; [exact Hd|].
      split; [now apply list_elem_of_In|].
      apply negb_true_iff, bool_decide_eq_false in Hd'. exact Hd'.
    + intros H. destruct (IH H) as (s & ds & d & He & Hs & Hr).
      exists s, ds, d. split; [exact He|]. split; [now right | exact Hr].
  - intros H. destruct (IH H) as (s & ds & d & He & Hs & Hr).
    exists s, ds, d. split; [exact He|]. split; [now right | exact Hr].
Qed.

(** X17.  The error [validatePlanSafety] raises carries exactly the
    offending data.  [UNKNOWN_TOOLS] lists the tool names of all steps
    outside the vocabulary, in step order; [EXCLUDED_TOOLS_USED] lists the
    tool names of all steps whose tool is excluded; [INVALID_DEPENDENCY]
    names a step of the plan and one of its [dependsOn] entries that is no
    step id; [PLAN_TOO_COMPLEX] reports the step count and the non-zero
    maximum it exceeds; [LOW_CONFIDENCE_PLAN] reports the plan's
    confidence.  The lists are never empty. *)
Theorem validatePlanSafety_names_offenders :
  forall (plan : ToolChainPlan) (constraints : option Constraints),
    (forall tools, validatePlanSafety plan constraints = Throw (UnknownTools tools) ->
       tools = List.map toolName (unknown_steps plan) /\ tools <> []
       /\ Forall (fun t => JS.includes AVAILABLE_TOOLS t = false) tools)
    /\ (forall tools, validatePlanSafety plan constraints = Throw (ExcludedToolsUsed tools) ->
          exists c ex, constraints = Some c /\ excludeTools c = Some ex
                       /\ tools = List.map toolName (excluded_steps ex plan) /\ tools <> []
                       /\ Forall (fun t => JS.includes ex t = true) tools)
    /\ (forall sid dep, validatePlanSafety plan constraints = Throw (InvalidDependency sid dep) ->
          exists step deps, step ∈ steps plan /\ stepId step = sid
                            /\ dependsOn step = Some deps /\ dep ∈ deps
                            /\ dep ∉ List.map stepId (steps plan))
    /\ (forall n m, validatePlanSafety plan constraints = Throw (PlanTooComplex n m) ->
          exists c, constraints = Some c /\ m = maxSteps c /\ n = length (steps plan)
                    /\ m <> 0 /\ m < Z.of_nat n)
    /\ (forall x, validatePlanSafety plan constraints = Throw (LowConfidencePlan x) ->
          x = confidence plan /\ PrimFloat.ltb x 0.6%float = true).
Proof.
  intros plan constraints. unfold validatePlanSafety.
  set (tooMany := match constraints with
                  | Some c => JS.truthy_Z (maxSteps c)
                              && (maxSteps c <? Z.of_nat (length (steps plan)))
                  | None => false
                  end).
  set (used := match constraints with
               | Some {| excludeTools := Some ex |} =>
                   List.filter (fun step => JS.includes ex (toolName step)) (steps plan)
               | _ => []
               end).
  fold (unknown_steps plan).
  destruct tooMany eqn:E1.
  { split; [|split; [|split; [|split]]]; try (intros; discriminate).
    intros n m H. injection H as <- <-. subst tooMany.
    destruct constraints as [c|]; [|discriminate].
    apply andb_true_iff in E1 as [Ht Hlt]. exists c.
    unfold JS.truthy_Z in Ht. apply negb_true_iff, Z.eqb_neq in Ht.
    apply Z.ltb_lt in Hlt. now repeat split. }
  destruct (0 <? length used)%nat eqn:E2.
  { split; [|split; [|split; [|split]]]; try (intros; discriminate).
    intros tools H. injection H as <-. subst used.
    destruct constraints as [[ms tl [ex|] ps]|]; try discriminate.
    eexists _, ex. split; [reflexivity|]. split; [reflexivity|].
    fold (excluded_steps ex plan) in *. split; [reflexivity|]. split.
    - destruct (excluded_steps ex plan); discriminate.
    - apply Forall_map. apply (filter_Forall (fun step => JS.includes ex (toolName step))). }
  destruct (0 <? length (unknown_steps plan))%nat eqn:E3.
  { split; [|split; [|split; [|split]]]; try (intros; discriminate).
    intros tools H. injection H as <-. split; [reflexivity|]. split.
    - destruct (unknown_steps plan); discriminate.
    - apply Forall_map. unfold unknown_steps.
      eapply Forall_impl;
        [apply (filter_Forall (fun step => negb (JS.includes AVAILABLE_TOOLS (toolName step))))|].
      intros s Hs. now apply negb_true_iff in Hs. }
  destruct (check_dependencies _ (steps plan)) as [e|] eqn:E4.
  { apply check_dependencies_offender in E4 as (step & deps & dep & -> & Hs & Hd & Hin & Hnot).
    split; [|split; [|split; [|split]]]; try (intros; discriminate).
    intros sid d H. injection H as <- <-. exists step, deps.
    repeat split; try assumption. intros Habs. apply Hnot.
    apply elem_of_list_to_set. exact Habs. }
  destruct (PrimFloat.ltb (confidence plan) 0.6) eqn:E5.
  { split; [|split; [|split; [|split]]]; try (intros; discriminate).
    intros x H. injection H as <-. now split. }
  split; [|split; [|split; [|split]]]; intros; discriminate.
Qed.

(** ** Session health: what the checks add up to *)

Lemma check_steps (ctx : option SessionContext) (request : string) (s : Signals) :
  (check_conversation ctx s = s
   \/ exists p i a, 0 < p /\ check_conversation ctx s = add_signal p i a s)
  /\ (check_repetition ctx s = s
      \/ exists p i a, 0 < p /\ check_repetition ctx s = add_signal p i a s)
  /\ (check_keywords request s = s
      \/ exists p i a, 0 < p /\ check_keywords request s = add_signal p i a s)
  /\ (check_stuck ctx s = s
      \/ exists p i a, 0 < p /\ check_stuck ctx s = add_signal p i a s).
Proof.
  split; [|split; [|split]].
  - unfold check_conversation. destruct ctx as [[[n|] pa ci la st]|]; try now left.
    destruct (_ && _); [right | now left]. eexists 2, _, _. now split.
  - unfold check_repetition. destruct ctx as [[cl [actions|] ci la st]|]; try now left.
    destruct (repeatedTools actions) as [|x l] eqn:E; [now left|]. right.
    cbn [length Nat.ltb Nat.leb]. eexists _, _, _. split; [|reflexivity]. lia.
  - unfold check_keywords.
    destruct (foundKeywords request) as [|x l] eqn:E; [now left|]. right.
    cbn [length Nat.ltb Nat.leb]. eexists _, _, _. split; [|reflexivity]. lia.
  - unfold check_stuck. destruct ctx as [[cl pa ci la [task|]]|]; try now left.
    destruct (JS.truthy_string task); [right | now left]. eexists 3, _, _. now split.
Qed.

Lemma well_explained_step (s s' : Signals) :
  well_explained s ->
  (s' = s \/ exists p i a, 0 < p /\ s' = add_signal p i a s) ->
  well_explained s' /\ (length (indicators s') <= S (length (indicators s)))%nat.
Proof.
  intros (Hlen & Hpos & Hiff) [->|(p & i & a & Hp & ->)].
  - split; [exact (conj Hlen (conj Hpos Hiff)) | lia].
  - unfold well_explained, add_signal. cbn [indicators advice riskScore].
    rewrite !length_app, Hlen. cbn [length].
    split; [|lia]. split; [reflexivity|]. split; [lia|]. split.
    + intros E. now destruct (indicators s).
    + lia.
Qed.

Lemma realityCheckSignals_explained (ctx : option SessionContext) (userRequest : string) :
  well_explained (realityCheckSignals ctx userRequest)
  /\ (length (indicators (realityCheckSignals ctx userRequest)) <= 4)%nat.
Proof.
  unfold realityCheckSignals.
  set (s0 := {| riskScore := 0; indicators := []; advice := [] |}).
  assert (H0 : well_explained s0) by (unfold well_explained; now repeat split).
  set (s1 := check_conversation ctx s0).
  set (s2 := check_repetition ctx s1).
  set (s3 := check_keywords (JS.toLowerCase userRequest) s2).
  destruct (well_explained_step s0 s1 H0) as [H1 L1];
    [apply (check_steps ctx "" s0)|].
  destruct (well_explained_step s1 s2 H1) as [H2 L2];
    [apply (check_steps ctx "" s1)|].
  destruct (well_explained_step s2 s3 H2) as [H3 L3];
    [apply (check_steps ctx (JS.toLowerCase userRequest) s2)|].
  destruct (well_explained_step s3 (check_stuck ctx s3) H3) as [H4 L4];
    [apply (check_steps ctx "" s3)|].
  split; [exact H4|]. cbn [indicators s0 length] in L1. lia.
Qed.

(** X18.  The risk [performRealityCheck] reports is always explained:
    there is one recommendation per confusion indicator, at most four of
    each; there is no indicator exactly when the score is zero, so a
    medium or high risk never comes without an indicator; and three
    suggested actions are given at every risk level. *)
Theorem performRealityCheck_explains_risk :
  forall (ctx : option SessionContext) (userRequest : string),
    let res := performRealityCheck ctx userRequest in
    length (Reality.confusionIndicators res) = length (Reality.recommendations res)
    /\ (length (Reality.confusionIndicators res) <= 4)%nat
    /\ (Reality.confusionIndicators res = []
        <-> riskScore (realityCheckSignals ctx userRequest) = 0)
    /\ (Reality.hallucinationRisk res <> low -> Reality.confusionIndicators res <> [])
    /\ length (Reality.suggestedActions res) = 3%nat.
Proof.
  intros ctx userRequest res.
  destruct (realityCheckSignals_explained ctx userRequest) as [(Hlen & Hpos & Hiff) Hfour].
  subst res. unfold performRealityCheck.
  cbn [Reality.confusionIndicators Reality.recommendations Reality.suggestedActions
       Reality.hallucinationRisk].
  split; [exact Hlen|]. split; [exact Hfour|]. split; [exact Hiff|]. split.
  - intros Hrisk Hnil. apply Hiff in Hnil. rewrite Hnil in Hrisk. now apply Hrisk.
  - destruct (risk_of_score _); reflexivity.
Qed.

(** X19.  The contributions of the conversation length, of the confusion
    keywords and of the task the session is stuck on are never lost,
    whatever the previous actions are: the score is at least their sum.
    So a conversation of more than 20 messages, or a non-empty
    [stuckOnTask], always gives at least medium risk, and the two together
    always give high risk. *)
Theorem performRealityCheck_lower_bound :
  forall (ctx : option SessionContext) (userRequest : string),
    let res := performRealityCheck ctx userRequest in
    (if long_conversation ctx then 2 else 0)
    + Z.of_nat (length (foundKeywords (JS.toLowerCase userRequest)))
    + (if stuck ctx then 3 else 0)
    <= riskScore (realityCheckSignals ctx userRequest)
    /\ (long_conversation ctx = true -> Reality.hallucinationRisk res <> low)
    /\ (stuck ctx = true -> Reality.hallucinationRisk res <> low)
    /\ (long_conversation ctx = true -> stuck ctx = true ->
        Reality.hallucinationRisk res = high).
Proof.
  intros ctx userRequest res. subst res.
  rewrite !performRealityCheck_bucket, riskScore_sum.
  set (n := Z.of_nat (length (repeatedTools (actions_of ctx)))).
  set (k := Z.of_nat (length (foundKeywords (JS.toLowerCase userRequest)))).
  assert (0 <= n) by (subst n; lia). assert (0 <= k) by (subst k; lia).
  unfold risk_of_score.
  split; [lia|]. split; [|split].
  - intros ->. destruct (stuck ctx);
      repeat match goal with |- context [?a <=? ?b] => destruct (Z.leb_spec a b) end;
      first [discriminate | lia].
  - intros ->. destruct (long_conversation ctx);
      repeat match goal with |- context [?a <=? ?b] => destruct (Z.leb_spec a b) end;
      first [discriminate | lia].
  - intros -> ->. destruct (Z.leb_spec 5 (2 + n + k + 3)); [reflexivity | lia].
Qed.

(** ** Session guidance *)

Lemma generateSessionGuidance_by_risk (ctx : option SessionContext) (userRequest : string) :
  let g := generateSessionGuidance ctx userRequest in
  match Reality.hallucinationRisk (performRealityCheck ctx userRequest) with
  | high => sessionStatus g = critical /\ humanInterventionNeeded g = true
            /\ recommendedNextStep g = "Start fresh session with analyze_project_ecosystem"
  | medium => sessionStatus g = concerning /\ humanInterventionNeeded g = false
              /\ recommendedNextStep g = "Consider fresh session for critical tasks"
  | low => sessionStatus g = healthy /\ humanInterventionNeeded g = false
           /\ recommendedNextStep g = "Continue with current approach"
  end.
Proof.
  unfold generateSessionGuidance.
  destruct (Reality.hallucinationRisk (performRealityCheck ctx userRequest));
    now repeat split.
Qed.

(** X20.  [generateSessionGuidance] derives everything from the risk score
    of the reality check: the session is critical from a score of 5,
    concerning from 2 and healthy below; human intervention is asked for
    exactly when the session is critical, which a conversation of more
    than 20 messages that is stuck on a task always is; and the
    recommended next step is fixed by the status. *)
Theorem generateSessionGuidance_status :
  forall (ctx : option SessionContext) (userRequest : string),
    let g := generateSessionGuidance ctx userRequest in
    let score := riskScore (realityCheckSignals ctx userRequest) in
    (sessionStatus g = critical <-> 5 <= score)
    /\ (sessionStatus g = concerning <-> 2 <= score < 5)
    /\ (sessionStatus g = healthy <-> score < 2)
    /\ (humanInterventionNeeded g = true <-> sessionStatus g = critical)
    /\ (long_conversation ctx = true -> stuck ctx = true ->
        humanInterventionNeeded g = true)
    /\ recommendedNextStep g
       = match sessionStatus g with
         | critical => "Start fresh session with analyze_project_ecosystem"
         | concerning => "Consider fresh session for critical tasks"
         | healthy => "Continue with current approach"
         end.
Proof.
  intros ctx userRequest g score.
  pose proof (generateSessionGuidance_by_risk ctx userRequest) as H. fold g in H.
  rewrite performRealityCheck_bucket in H. fold score in H.
  destruct (risk_of_score_buckets score) as (Hh & Hm & Hl).
  assert (Hlong : long_conversation ctx = true -> stuck ctx = true -> 5 <= score).
  { intros E1 E2. subst score. rewrite riskScore_sum, E1, E2. lia. }
  destruct (risk_of_score score) eqn:E; destruct H as (-> & -> & ->).
  - assert (score < 2) by now apply Hl.
    repeat split; intros; try discriminate; try lia; try reflexivity.
    specialize (Hlong H0 H1). lia.
  - assert (2 <= score < 5) by now apply Hm.
    repeat split; intros; try discriminate; try lia; try reflexivity.
    specialize (Hlong H0 H1). lia.
  - assert (5 <= score) by now apply Hh.
    repeat split; intros; try discriminate; try lia; reflexivity.
Qed.

(** X21.  The guidance always closes with an empty line, the heading of
    the recommended actions, and the three suggested actions of the
    reality check as bullet points; it has between 7 and 11 lines.  The
    remark about a long session is made from 16 messages on, while the
    length only counts towards the risk from 21 on: a session of 16 to 20
    messages without any other sign is told that it is long and rated
    healthy. *)
Theorem generateSessionGuidance_layout :
  forall (ctx : option SessionContext) (userRequest : string),
    let g := generateSessionGuidance ctx userRequest in
    (exists body,
        guidance g
        = (body ++ [plain_line ""; marked_line Target "Recommended Actions:"]
           ++ List.map (marked_line Bullet)
                (Reality.suggestedActions (performRealityCheck ctx userRequest)))%list)
    /\ (7 <= length (guidance g) <= 11)%nat
    /\ (forall n, ctx = Some (session_of_length n) -> 15 < n <= 20 ->
          foundKeywords (JS.toLowerCase userRequest) = [] ->
          sessionStatus g = healthy
          /\ marked_line Ruler ("Long session (" ++ JS.Z_to_string n
                                ++ " messages) - consider summarizing progress")
             ∈ guidance g).
Proof.
  intros ctx userRequest g. split; [|split].
  - subst g. unfold generateSessionGuidance.
    destruct (Reality.hallucinationRisk (performRealityCheck ctx userRequest));
      cbn [guidance]; eexists; rewrite !app_assoc; reflexivity.
  - subst g. unfold generateSessionGuidance.
    assert (Ha : length (Reality.suggestedActions (performRealityCheck ctx userRequest))
                 = 3%nat).
    { unfold performRealityCheck. cbn [Reality.suggestedActions].
      destruct (risk_of_score _); reflexivity. }
    destruct (Reality.hallucinationRisk (performRealityCheck ctx userRequest));
      cbn [guidance]; rewrite !length_app, length_map, Ha;
      destruct ctx as [[[n|] pa ci [a|] st]|];
      repeat match goal with |- context [if ?b then _ else _] => destruct b end;
      cbn [length]; lia.
  - intros n -> Hn Hkw.
    pose proof (generateSessionGuidance_by_risk (Some (session_of_length n)) userRequest) as H.
    fold g in H. rewrite performRealityCheck_bucket, riskScore_sum, Hkw in H.
    cbn [long_conversation stuck actions_of session_of_length conversationLength
         previousActions stuckOnTask repeatedTools] in H.
    destruct (Z.ltb_spec 20 n) as [|_]; [lia|].
    change (risk_of_score _) with low in H. destruct H as (Hs & _).
    split; [exact Hs|].
    subst g. unfold generateSessionGuidance.
    rewrite performRealityCheck_bucket, riskScore_sum, Hkw.
    cbn [long_conversation stuck actions_of session_of_length conversationLength
         previousActions stuckOnTask lastSuccessfulAction].
    destruct (Z.ltb_spec 20 n) as [|_]; [lia|].
    change (risk_of_score _) with low. cbn [guidance].
    unfold JS.truthy_Z. destruct (Z.eqb_spec n 0); [lia|].
    destruct (Z.ltb_spec 15 n); [|lia]. cbn [negb andb].
    apply elem_of_app. right. apply elem_of_app. left. now constructor.
Qed.

Lemma generateSessionGuidance_layout_witness :
  sessionStatus (generateSessionGuidance (Some (session_of_length 18)) "continue") = healthy
  /\ marked_line Ruler "Long session (18 messages) - consider summarizing progress"
     ∈ guidance (generateSessionGuidance (Some (session_of_length 18)) "continue").
Proof.
  exact (proj2 (proj2 (generateSessionGuidance_layout (Some (session_of_length 18)) "continue"))
           18 eq_refl ltac:(lia) eq_refl).
Defined.

(** ** Intent analysis *)

Lemma keywordMap_vocabulary :
  Forall (fun kt : string * list string =>
            Forall (fun t => JS.includes AVAILABLE_TOOLS t = true) (snd kt)) keywordMap.
Proof. unfold keywordMap. repeat (constructor; [repeat constructor|]). constructor. Qed.

Lemma matchedTools_vocabulary (request t : string) :
  t ∈ matchedTools request -> JS.includes AVAILABLE_TOOLS t = true.
Proof.
  unfold matchedTools. intros H. apply list_elem_of_In, in_flat_map in H as (kt & Hkt & Ht).
  pose proof keywordMap_vocabulary as Hv. rewrite List.Forall_forall in Hv.
  specialize (Hv kt Hkt). destruct (JS.str_includes request (fst kt)); [|contradiction].
  rewrite List.Forall_forall in Hv. now apply Hv.
Qed.

Lemma fallback_category (userRequest : string) :
  (Intent.category (fallbackIntentAnalysis userRequest),
   Intent.complexity (fallbackIntentAnalysis userRequest)) ∈ fallback_categories.
Proof.
  unfold fallbackIntentAnalysis, fallback_categories.
  destruct (_ || _); [|destruct (_ || _); [|destruct (_ || _)]];
    cbn [Intent.category Intent.complexity]; set_solver.
Qed.

(** X22.  The keyword fallback stays inside the vocabulary: every tool it
    suggests is one of [AVAILABLE_TOOLS].  It suggests no tool exactly
    when no keyword of its table occurs in the request, which is exactly
    when its confidence is 0.3 rather than 0.7.  Its category is one of
    generation, troubleshooting, deployment and analysis, each with a
    fixed complexity (moderate, complex, complex, simple). *)
Theorem fallbackIntentAnalysis_vocabulary :
  forall userRequest : string,
    let fb := fallbackIntentAnalysis userRequest in
    Forall (fun t => JS.includes AVAILABLE_TOOLS t = true) (Intent.suggestedTools fb)
    /\ (Intent.suggestedTools fb = [] <-> keyword_matched userRequest = false)
    /\ (Intent.suggestedTools fb = [] <-> Intent.confidence fb = 0.3%float)
    /\ (Intent.category fb, Intent.complexity fb) ∈ fallback_categories.
Proof.
  intros userRequest fb. subst fb.
  rewrite fallback_suggestedTools, fallback_confidence.
  set (l := matchedTools (JS.toLowerCase userRequest)).
  assert (Hnil : firstn 5 (array_of_set l) = [] <-> l = []).
  { split.
    - intros E. destruct l as [|x l']; [reflexivity|]. exfalso.
      assert (Hx : x ∈ array_of_set (x :: l')) by (apply array_of_set_elem; now left).
      destruct (array_of_set (x :: l')); [now apply not_elem_of_nil in Hx | discriminate].
    - intros ->. reflexivity. }
  assert (Hkw : l = [] <-> keyword_matched userRequest = false).
  { unfold keyword_matched. rewrite <- (matched_nonempty _ _ keywordMap_nonempty).
    fold (matchedTools (JS.toLowerCase userRequest)). fold l.
    destruct l; cbn [length Nat.ltb Nat.leb]; split; first [reflexivity | discriminate]. }
  split; [|split; [|split]].
  - apply List.Forall_forall. intros t Ht. apply list_elem_of_In in Ht.
    apply elem_of_take in Ht as (i & Ht & _). apply list_elem_of_lookup_2 in Ht.
    apply (proj1 (array_of_set_elem _ _)) in Ht.
    now apply (matchedTools_vocabulary _ _ Ht).
  - now rewrite Hnil.
  - rewrite Hnil, Hkw. destruct (keyword_matched userRequest); split;
      first [reflexivity | discriminate | intros H; vm_compute in H; discriminate].
  - apply fallback_category.
Qed.

Lemma JSON_parse_backtick (s : string) : JS.JSON_parse (String "`" s) = None.
Proof. reflexivity. Qed.

(** X23.  [analyzeUserIntent] parses the provider's answer a second time,
    from the raw content and without the extraction that
    [executeStructuredPrompt] applied.  So an answer wrapped in a code
    fence or in backticks, which [executeStructuredPrompt] accepts, is
    thrown away: the result is the keyword fallback.  The provider's
    analysis is only returned when the raw content is itself JSON. *)
Theorem analyzeUserIntent_discards_wrapped_answer :
  forall (env : Env) (userRequest : string) (g : option AIExecutor) (w w' : World)
         (cfg : AIConfig) (ex ex' : AIExecutor) (data : JS.JSONValue)
         (raw : AIExecutionResult),
    loadAIConfig env = Return cfg -> isAIExecutionEnabled cfg = true ->
    getAIExecutor env g = Return ex ->
    executeStructuredPrompt env (intent_prompt userRequest) None intent_options ex w
      = (Return (data, raw), ex', w') ->
    ((exists s, content raw = fenced s \/ content raw = inline_wrapped s) ->
     analyzeUserIntent env userRequest g w
     = (Return (KeywordFallback (fallbackIntentAnalysis userRequest)), Some ex', w'))
    /\ (forall v out,
          analyzeUserIntent env userRequest g w = (Return (ProviderAnswer v), out, w') ->
          JS.JSON_parse (content raw) = Some v).
Proof.
  intros env userRequest g w w' cfg ex ex' data raw Hl He Hg Hx.
  unfold analyzeUserIntent. rewrite Hl, He, Hg, Hx. cbn [negb]. split.
  - intros (s & [E|E]); rewrite E.
    + change (fenced s) with (String "`" ("``json" ++ NL ++ s ++ NL ++ "```")).
      rewrite JSON_parse_backtick. now destruct (JS.truthy_string _).
    + unfold inline_wrapped, backtick. rewrite append_cons.
      rewrite JSON_parse_backtick. now destruct (JS.truthy_string _).
  - intros v out. destruct (JS.truthy_string (content raw)); [|discriminate].
    destruct (JS.JSON_parse (content raw)); [|discriminate].
    intros H. now injection H as ->.
Qed.

Lemma analyzeUserIntent_discards_wrapped_answer_witness :
  exists data raw ex' w',
    executeStructuredPrompt keyed_env (intent_prompt "review the ADRs") None intent_options
      keyed_executor fencing_world = (Return (data, raw), ex', w')
    /\ data = JS.JObject [([105; 110; 116; 101; 110; 116]%N,
                           JS.JString [114; 101; 118; 105; 101; 119]%N)]
    /\ analyzeUserIntent keyed_env "review the ADRs" (Some keyed_executor) fencing_world
       = (Return (KeywordFallback (fallbackIntentAnalysis "review the ADRs")), Some ex', w').
Proof.
  destruct (executeStructuredPrompt keyed_env (intent_prompt "review the ADRs") None
              intent_options keyed_executor fencing_world) as [[[[data raw]|e] ex'] w'] eqn:H;
    [|exfalso; vm_compute in H; discriminate].
  pose proof H as H'. vm_compute in H'. injection H' as Ed Er Eex Ew.
  exists data, raw, ex', w'. split; [reflexivity|]. split; [now rewrite <- Ed|].
  apply (proj1 (analyzeUserIntent_discards_wrapped_answer keyed_env "review the ADRs"
                  (Some keyed_executor) fencing_world w' (buildAIConfig keyed_env)
                  keyed_executor ex' data raw eq_refl eq_refl eq_refl H)).
  exists intent_answer. left. rewrite <- Er. reflexivity.
Defined.

(** X24.  Whatever provider and default model are configured, every
    request [analyzeUserIntent] sends asks for the model
    [openai/gpt-4o-mini] (the cost-sensitive recommendation for quick
    analysis), with temperature 0.1 and at most 500 tokens, and consists
    of the intent instructions as the system message and the quoted user
    request as the user message.  All requests of one call are equal. *)
Theorem analyzeUserIntent_requests :
  forall (env : Env) (userRequest : string) (g g' : option AIExecutor) (w w' : World)
         (out : outcome JSError IntentResult),
    analyzeUserIntent env userRequest g w = (out, g', w') ->
    exists n : nat, calls w' = (calls w ++ repeat (intent_request userRequest) n)%list.
Proof.
  intros env userRequest g g' w w' out H. unfold analyzeUserIntent in H.
  assert (Hnone : forall o x, (o, x, w) = (out, g', w') ->
            exists n : nat, calls w' = (calls w ++ repeat (intent_request userRequest) n)%list).
  { intros o x E. injection E as _ _ <-. exists 0%nat. now rewrite app_nil_r. }
  destruct (loadAIConfig env) as [cfg|msg]; [|now apply Hnone in H].
  destruct (negb (isAIExecutionEnabled cfg)); [now apply Hnone in H|].
  destruct (getAIExecutor env g) as [ex|e]; [|now apply Hnone in H].
  rewrite executeStructuredPrompt_unfold in H.
  destruct (executePrompt env (intent_prompt userRequest) (structured_options intent_options)
              ex w) as [[o x] y] eqn:Hrun.
  destruct (executePrompt_calls _ _ _ _ _ _ _ _ Hrun) as [n Hn].
  assert (Hreq : build_request (intent_prompt userRequest)
                   (derived_model (structured_options intent_options) (config x))
                   (structured_options intent_options) (config x)
                 = intent_request userRequest) by reflexivity.
  rewrite Hreq in Hn. exists n. rewrite <- Hn. f_equal.
  destruct o as [r|e].
  - destruct (parse_structured None (content r)).
    + destruct (if JS.truthy_string (content r) then _ else _); now injection H as _ _ <-.
    + now injection H as _ _ <-.
  - now injection H as _ _ <-.
Qed.

Lemma analyzeUserIntent_requests_witness :
  exists out g' w',
    analyzeUserIntent keyed_env "review the ADRs" (Some keyed_executor) echo_world
      = (out, g', w')
    /\ calls w' = [intent_request "review the ADRs"].
Proof.
  destruct (analyzeUserIntent keyed_env "review the ADRs" (Some keyed_executor) echo_world)
    as [[out g'] w'] eqn:H.
  destruct (analyzeUserIntent_requests _ _ _ _ _ _ _ H) as [n Hn].
  exists out, g', w'. split; [reflexivity|].
  assert (Hlen : length (calls w') = 1%nat).
  { pose proof H as H'. vm_compute in H'. injection H' as _ _ <-. reflexivity. }
  rewrite Hn in *. cbn [calls echo_world events flat_map app] in *.
  rewrite repeat_length in Hlen. now subst n.
Defined.

(** ** Plan generation *)

Lemma existsb_Forall_false {A : Type} (p : A -> bool) (l : list A) :
  existsb p l = false -> Forall (fun x => p x = false) l.
Proof.
  induction l as [|x l IH]; simpl; [constructor|].
  intros H. apply orb_false_elim in H as [H1 H2]. constructor; auto.
Qed.

(** What acceptance by [validatePlanSafety] means for the plan. *)
Lemma validatePlanSafety_accepted (plan : ToolChainPlan) (constraints : option Constraints) :
  validatePlanSafety plan constraints = Return tt ->
  Forall (fun step => JS.includes AVAILABLE_TOOLS (toolName step) = true) (steps plan)
  /\ (forall step deps d, step ∈ steps plan -> dependsOn step = Some deps -> d ∈ deps ->
        d ∈ List.map stepId (steps plan))
  /\ (forall c ex, constraints = Some c -> excludeTools c = Some ex ->
        Forall (fun step => JS.includes ex (toolName step) = false) (steps plan))
  /\ (forall c, constraints = Some c -> maxSteps c <> 0 ->
        Z.of_nat (length (steps plan)) <= maxSteps c)
  /\ PrimFloat.ltb (confidence plan) 0.6%float = false.
Proof.
  rewrite validatePlanSafety_returns_iff. intros H.
  pose proof (H MaxStepsRule) as H1. pose proof (H ExcludedToolsRule) as H2.
  pose proof (H UnknownToolsRule) as H3. pose proof (H DependencyRule) as H4.
  pose proof (H ConfidenceRule) as H5.
  cbn [violated violated_as_stated] in H1, H2, H3, H4, H5.
  split; [|split; [|split; [|split]]].
  - apply existsb_Forall_false in H3. eapply Forall_impl; [exact H3|].
    intros s Hs. now apply negb_false_iff in Hs.
  - intros step deps d Hs Hd Hin. apply is_step_id_elem.
    apply existsb_Forall_false in H4. rewrite List.Forall_forall in H4.
    specialize (H4 step (proj1 (list_elem_of_In _ _) Hs)). rewrite Hd in H4.
    apply existsb_Forall_false in H4. rewrite List.Forall_forall in H4.
    specialize (H4 d (proj1 (list_elem_of_In _ _) Hin)). now apply negb_false_iff in H4.
  - intros c ex -> Hex. unfold names_excluded_tool in H2. destruct c as [ms tl et ps].
    cbn [excludeTools] in Hex. subst et. now apply existsb_Forall_false.
  - intros c -> Hms. destruct (Z.eqb_spec (maxSteps c) 0); [contradiction|].
    cbn [negb andb] in H1. now apply Z.ltb_ge in H1.
  - exact H5.
Qed.

(** X25.  A plan that [generateToolChainPlan] returns has passed the
    schema and [validatePlanSafety] under the caller's constraints: every
    step names a tool of the vocabulary and none an excluded tool, every
    [dependsOn] entry is a step id, a non-zero [maxSteps] is respected, and
    the confidence is not below 0.6.  It has been parsed from the raw
    content of the provider's answer, not from what
    [executeStructuredPrompt] extracted: an answer wrapped in a code fence
    or in backticks, though accepted by [executeStructuredPrompt], always
    ends in [PLANNING_FAILED]. *)
Theorem generateToolChainPlan_returns_safe_plans :
  forall (schema_parse : JS.JSONValue -> option ToolChainPlan) (env : Env) (args : Args.t)
         (g g' : option AIExecutor) (w w' : World),
    (forall plan,
        generateToolChainPlan schema_parse env args g w = (Return plan, g', w') ->
        validatePlanSafety plan (Args.constraints args) = Return tt
        /\ Forall (fun step => JS.includes AVAILABLE_TOOLS (toolName step) = true) (steps plan)
        /\ (forall step deps d, step ∈ steps plan -> dependsOn step = Some deps -> d ∈ deps ->
              d ∈ List.map stepId (steps plan))
        /\ (forall c ex, Args.constraints args = Some c -> excludeTools c = Some ex ->
              Forall (fun step => JS.includes ex (toolName step) = false) (steps plan))
        /\ (forall c, Args.constraints args = Some c -> maxSteps c <> 0 ->
              Z.of_nat (length (steps plan)) <= maxSteps c)
        /\ PrimFloat.ltb (confidence plan) 0.6%float = false)
    /\ (forall cfg ex ex' data raw,
          loadAIConfig env = Return cfg -> isAIExecutionEnabled cfg = true ->
          getAIExecutor env g = Return ex ->
          executeStructuredPrompt env (plan_user_prompt args) None (plan_options cfg args) ex w
            = (Return (data, raw), ex', w') ->
          (exists s, content raw = fenced s \/ content raw = inline_wrapped s) ->
          generateToolChainPlan schema_parse env args g w
          = (Throw (PlanningFailed PlanSyntaxError), Some ex', w')).
Proof.
  intros schema_parse env args g g' w w'. split.
  - intros plan H.
    assert (Hv : validatePlanSafety plan (Args.constraints args) = Return tt).
    { unfold generateToolChainPlan in H.
      destruct (loadAIConfig env) as [cfg|msg]; [|discriminate].
      destruct (negb (isAIExecutionEnabled cfg)); [discriminate|].
      destruct (getAIExecutor env g) as [ex|e]; [|discriminate].
      destruct (executeStructuredPrompt _ _ _ _ _ _) as [[[[data raw]|e] ex'] w1];
        [|discriminate].
      cbv zeta in H. destruct (negb (JS.truthy_string (content raw))); [discriminate|].
      destruct (JS.JSON_parse (content raw)) as [rawPlan|]; [|discriminate].
      destruct (schema_parse rawPlan) as [validatedPlan|]; [|discriminate].
      destruct (validatePlanSafety validatedPlan (Args.constraints args)) as [[]|e] eqn:E;
        [|discriminate].
      injection H as <- _ _. exact E. }
    split; [exact Hv|]. now apply validatePlanSafety_accepted.
  - intros cfg ex ex' data raw Hl He Hg Hx (s & Hs).
    unfold generateToolChainPlan. rewrite Hl, He, Hg, Hx. cbv zeta. cbn [negb].
    assert (Hraw : exists r, content raw = String "`" r).
    { destruct Hs as [->| ->]; eexists.
      - change (fenced s) with (String "`" ("``json" ++ NL ++ s ++ NL ++ "```")). reflexivity.
      - unfold inline_wrapped, backtick. now rewrite append_cons. }
    destruct Hraw as [r ->]. rewrite JSON_parse_backtick. reflexivity.
Qed.

Lemma generateToolChainPlan_returns_safe_plans_witness :
  (exists plan g' w',
      generateToolChainPlan accept_as_two_steps keyed_env (request_only "review the ADRs")
        (Some keyed_executor) json_world = (Return plan, g', w')
      /\ validatePlanSafety plan None = Return tt)
  /\ exists ex' w',
       generateToolChainPlan accept_as_two_steps keyed_env (request_only "review the ADRs")
         (Some keyed_executor) fencing_world
       = (Throw (PlanningFailed PlanSyntaxError), Some ex', w').
Proof.
  split.
  - destruct (generateToolChainPlan accept_as_two_steps keyed_env
                (request_only "review the ADRs") (Some keyed_executor) json_world)
      as [[[plan|e] g'] w'] eqn:H; [|exfalso; vm_compute in H; discriminate].
    exists plan, g', w'. split; [reflexivity|].
    exact (proj1 (proj1 (generateToolChainPlan_returns_safe_plans accept_as_two_steps keyed_env
                           (request_only "review the ADRs") (Some keyed_executor) g'
                           json_world w') plan H)).
  - destruct (executeStructuredPrompt keyed_env
                (plan_user_prompt (request_only "review the ADRs")) None
                (plan_options (buildAIConfig keyed_env) (request_only "review the ADRs"))
                keyed_executor fencing_world) as [[[[data raw]|e] ex'] w'] eqn:H;
      [|exfalso; vm_compute in H; discriminate].
    exists ex', w'.
    apply (proj2 (generateToolChainPlan_returns_safe_plans accept_as_two_steps keyed_env
                    (request_only "review the ADRs") (Some keyed_executor) (Some ex')
                    fencing_world w')
             (buildAIConfig keyed_env) keyed_executor ex' data raw eq_refl eq_refl eq_refl H).
    exists intent_answer. left.
    pose proof H as H'. vm_compute in H'. injection H' as _ Er _ _. rewrite <- Er. reflexivity.
Defined.

(** X26.  Every request [generateToolChainPlan] sends asks for the model
    [anthropic/claude-3-sonnet], whatever provider and default model are
    configured, with temperature 0.1 and with the token limit of the
    configuration just loaded from the environment (not the one the
    executor holds); it consists of the planning instructions as the
    system message and the user prompt as the user message.  The tools the
    instructions describe are exactly the tools [validatePlanSafety]
    accepts, in the same order. *)
Theorem generateToolChainPlan_requests :
  forall (schema_parse : JS.JSONValue -> option ToolChainPlan) (env : Env) (args : Args.t)
         (g g' : option AIExecutor) (w w' : World) (out : outcome PlanError ToolChainPlan)
         (cfg : AIConfig),
    loadAIConfig env = Return cfg ->
    generateToolChainPlan schema_parse env args g w = (out, g', w') ->
    (exists n : nat, calls w' = (calls w ++ repeat (plan_request cfg args) n)%list)
    /\ List.map fst TOOL_CAPABILITIES = AVAILABLE_TOOLS.
Proof.
  intros schema_parse env args g g' w w' out cfg Hl H. split; [|reflexivity].
  unfold generateToolChainPlan in H. rewrite Hl in H.
  assert (Hnone : forall o x, (o, x, w) = (out, g', w') ->
            exists n : nat, calls w' = (calls w ++ repeat (plan_request cfg args) n)%list).
  { intros o x E. injection E as _ _ <-. exists 0%nat. now rewrite app_nil_r. }
  destruct (negb (isAIExecutionEnabled cfg)); [now apply Hnone in H|].
  destruct (getAIExecutor env g) as [ex|e]; [|now apply Hnone in H].
  rewrite executeStructuredPrompt_unfold in H.
  destruct (executePrompt env (plan_user_prompt args) (structured_options (plan_options cfg args))
              ex w) as [[o x] y] eqn:Hrun.
  destruct (executePrompt_calls _ _ _ _ _ _ _ _ Hrun) as [n Hn].
  assert (Hreq : build_request (plan_user_prompt args)
                   (derived_model (structured_options (plan_options cfg args)) (config x))
                   (structured_options (plan_options cfg args)) (config x)
                 = plan_request cfg args) by reflexivity.
  rewrite Hreq in Hn. exists n. rewrite <- Hn. f_equal.
  destruct o as [r|e].
  - destruct (parse_structured None (content r)); [|now injection H as _ _ <-].
    cbv zeta in H. destruct (negb (JS.truthy_string (content r))); [now injection H as _ _ <-|].
    destruct (JS.JSON_parse (content r)) as [rawPlan|]; [|now injection H as _ _ <-].
    destruct (schema_parse rawPlan) as [validatedPlan|]; [|now injection H as _ _ <-].
    destruct (validatePlanSafety validatedPlan (Args.constraints args));
      now injection H as _ _ <-.
  - now injection H as _ _ <-.
Qed.

Lemma generateToolChainPlan_requests_witness :
  exists out g' w',
    generateToolChainPlan accept_as_two_steps keyed_env (request_only "review the ADRs")
      (Some keyed_executor) echo_world = (out, g', w')
    /\ List.map req_model (calls w') = ["anthropic/claude-3-sonnet"]
    /\ List.map req_max_tokens (calls w') = [4000].
Proof.
  destruct (generateToolChainPlan accept_as_two_steps keyed_env (request_only "review the ADRs")
              (Some keyed_executor) echo_world) as [[out g'] w'] eqn:H.
  destruct (generateToolChainPlan_requests accept_as_two_steps keyed_env
              (request_only "review the ADRs") (Some keyed_executor) g' echo_world w' out
              (buildAIConfig keyed_env) eq_refl H) as [[n Hn] _].
  exists out, g', w'. split; [reflexivity|].
  assert (Hlen : length (calls w') = 1%nat).
  { pose proof H as H'. vm_compute in H'. injection H' as _ _ <-. reflexivity. }
  rewrite Hn in *. cbn [calls echo_world events flat_map app] in *.
  rewrite repeat_length in Hlen. subst n. split; reflexivity.
Defined.

(** ** Edge cases *)

(** X27.  An answer that is empty or only whitespace, or a completion that
    carries no content at all, makes [executeStructuredPrompt] fail with
    [AI_JSON_PARSE_ERROR] around a syntax error: the extraction returns the
    empty string, which [JSON.parse] rejects.  The failure comes after the
    provider has answered, so the executor and the world are those the
    execution left. *)
Theorem executeStructuredPrompt_empty_answer :
  forall (env : Env) (prompt : string) (schema : option (JS.JSONValue -> bool))
         (options : Options) (ex ex' : AIExecutor) (w w' : World) (r : AIExecutionResult),
    executePrompt env prompt (structured_options options) ex w = (Return r, ex', w') ->
    JS.trim (content r) = "" ->
    extractJsonFromResponse (content r) = ""
    /\ executeStructuredPrompt env prompt schema options ex w
       = (Throw (AIExecutionError "AI_JSON_PARSE_ERROR" false (Some SyntaxError)), ex', w').
Proof.
  intros env prompt schema options ex ex' w w' r Hrun Hempty.
  assert (Hx : extractJsonFromResponse (content r) = "").
  { unfold extractJsonFromResponse. rewrite Hempty. reflexivity. }
  split; [exact Hx|].
  rewrite executeStructuredPrompt_unfold, Hrun. unfold parse_structured. rewrite Hx.
  reflexivity.
Qed.

Lemma executeStructuredPrompt_empty_answer_witness :
  exists ex' w',
    executeStructuredPrompt keyed_env "ping" None [] keyed_executor silent_world
    = (Throw (AIExecutionError "AI_JSON_PARSE_ERROR" false (Some SyntaxError)), ex', w')
    /\ length (calls w') = 1%nat.
Proof.
  destruct (executePrompt keyed_env "ping" (structured_options []) keyed_executor silent_world)
    as [[[r|e] ex'] w'] eqn:H; [|exfalso; vm_compute in H; discriminate].
  pose proof H as H'. vm_compute in H'. injection H' as Er Eex Ew.
  assert (Hempty : JS.trim (content r) = "") by (rewrite <- Er; reflexivity).
  exists ex', w'. split.
  - exact (proj2 (executeStructuredPrompt_empty_answer keyed_env "ping" None [] keyed_executor
                    ex' silent_world w' r H Hempty)).
  - rewrite <- Ew. reflexivity.
Defined.

(** X28.  Nothing requires a plan to do anything: a plan without steps is
    accepted exactly when its confidence is not below 0.6 and the
    constraints, if any, do not set a negative [maxSteps].  The tool and
    dependency rules hold vacuously, whatever tools are excluded. *)
Theorem validatePlanSafety_empty_plan :
  forall (plan : ToolChainPlan) (constraints : option Constraints),
    steps plan = [] ->
    (validatePlanSafety plan constraints = Return tt
     <-> PrimFloat.ltb (confidence plan) 0.6%float = false
         /\ forall c, constraints = Some c -> 0 <= maxSteps c).
Proof.
  intros plan constraints Hs. rewrite validatePlanSafety_returns_iff. split.
  - intros H. split; [exact (H ConfidenceRule)|].
    intros c ->. specialize (H MaxStepsRule). cbn [violated] in H. rewrite Hs in H.
    cbn [length] in H. change (Z.of_nat 0) with 0 in H.
    destruct (Z.eqb_spec (maxSteps c) 0); [lia|]. cbn [negb andb] in H.
    now apply Z.ltb_ge in H.
  - intros [Hc Hm] r.
    destruct r; cbn [violated violated_as_stated];
      unfold names_excluded_tool, names_unknown_tool, has_dangling_dependency;
      rewrite ?Hs; try reflexivity.
    + destruct constraints as [c|]; [|reflexivity]. cbn [length Z.of_nat].
      specialize (Hm c eq_refl).
      change (Z.of_nat 0) with 0.
      destruct (Z.ltb_spec (maxSteps c) 0); [lia|]. now rewrite andb_false_r.
    + now destruct constraints as [[ms tl [ex|] ps]|].
    + exact Hc.
Qed.

Lemma validatePlanSafety_empty_plan_witness :
  validatePlanSafety (empty_plan 0.6) (Some (max_steps_only 2)) = Return tt.
Proof.
  apply (proj2 (validatePlanSafety_empty_plan (empty_plan 0.6) (Some (max_steps_only 2))
                  eq_refl)).
  split; [reflexivity|]. intros c H. injection H as <-. cbn. lia.
Defined.
